(** * SPOS: process table, context switch frames and boot-time configuration

    A shallow embedding of the SPOS kernel sources (defines.h, util.h,
    os_process.[ch], os_core.c, os_scheduler.c) and the properties the
    system description states about them. *)

From Stdlib Require Import ZArith List Lia Bool.
From stdpp Require Import base numbers option list gmap strings.

Local Open Scope Z_scope.

(* ===================================================================== *)
(** * Part I: the embedding                                               *)
(* ===================================================================== *)

(** ** The device header <avr/io.h>

    The kernel includes avr-libc's device header but the header is not part
    of the sources.  Everything the kernel takes from it is collected in
    one interface; [atmega644] instantiates it with the values of the
    ATmega644 the board carries (atmega644constants.h names that device). *)

Class avr_io := {
  RAMSTART : Z;   (* first SRAM address *)
  RAMEND   : Z;   (* last SRAM address *)
  (* Timer/Counter2 *)
  WGM20 : Z; WGM21 : Z;            (* in TCCR2A *)
  WGM22 : Z; CS22 : Z; CS21 : Z; CS20 : Z;   (* in TCCR2B *)
  OCIE2A : Z;                      (* in TIMSK2 *)
  (* Timer/Counter0 *)
  CS02 : Z; CS01 : Z; CS00 : Z;    (* in TCCR0B *)
  TOIE0 : Z                        (* in TIMSK0 *)
}.

#[export] Instance atmega644 : avr_io := {|
  RAMSTART := 0x0100; RAMEND := 0x10FF;
  WGM20 := 0; WGM21 := 1;
  WGM22 := 3; CS22 := 2; CS21 := 1; CS20 := 0;
  OCIE2A := 1;
  CS02 := 2; CS01 := 1; CS00 := 0;
  TOIE0 := 0
|}.

(** Stores into [uint8_t] and [uint16_t] objects. *)
Definition u8 (z : Z) : Z := z mod 256.
Definition u16 (z : Z) : Z := z mod 65536.

(** ** atmega644constants.h and defines.h *)

Module defines.
Section with_device.
Context {io : avr_io}.

Definition AVR_CLOCK_FREQUENCY : Z := 20000000.
Definition F_CPU : Z := AVR_CLOCK_FREQUENCY.

Definition AVR_SRAM_START : Z := RAMSTART.
Definition AVR_SRAM_END : Z := RAMEND + 1.
Definition AVR_SRAM_LAST : Z := RAMEND.
Definition AVR_MEMORY_SRAM : Z := AVR_SRAM_END - AVR_SRAM_START.

Definition NULL : Z := 0.
Definition MAX_NUMBER_OF_PROCESSES : Z := 8.
Definition DEFAULT_PRIORITY : Z := 2.
Definition INVALID_PROCESS : Z := 255.

Definition STACK_SIZE_MAIN : Z := 32.
Definition STACK_SIZE_ISR : Z := 192.
Definition STACK_SIZE_PROC : Z :=
  Z.quot ((Z.quot AVR_MEMORY_SRAM 2) - STACK_SIZE_MAIN - STACK_SIZE_ISR)
         MAX_NUMBER_OF_PROCESSES.

Definition BOTTOM_OF_MAIN_STACK : Z := AVR_SRAM_LAST.
Definition BOTTOM_OF_ISR_STACK : Z := BOTTOM_OF_MAIN_STACK - STACK_SIZE_MAIN.
Definition BOTTOM_OF_PROCS_STACK : Z := BOTTOM_OF_ISR_STACK - STACK_SIZE_ISR.
Definition PROCESS_STACK_BOTTOM (PID : Z) : Z :=
  BOTTOM_OF_PROCS_STACK - (PID * STACK_SIZE_PROC).

(** A stack region is the closed address interval [(top, bottom)]; stacks
    grow downwards from their bottom, the highest address. *)
Definition region : Type := Z * Z.

Definition in_region (a : Z) (r : region) : Prop := fst r <= a <= snd r.

Definition disjoint_regions (r1 r2 : region) : Prop :=
  forall a, in_region a r1 -> in_region a r2 -> False.

Definition stack_region (bottom size : Z) : region :=
  (bottom - size + 1, bottom).

Definition main_stack_region : region :=
  stack_region BOTTOM_OF_MAIN_STACK STACK_SIZE_MAIN.
Definition isr_stack_region : region :=
  stack_region BOTTOM_OF_ISR_STACK STACK_SIZE_ISR.
Definition process_stack_region (PID : Z) : region :=
  stack_region (PROCESS_STACK_BOTTOM PID) STACK_SIZE_PROC.
End with_device.
End defines.
Import defines.

(** ** util.h: bit macros *)

Module util.
(** [sbi(x, b)] is [x |= (1 << (b))], [cbi(x, b)] is [x &= ~(1 << (b))]
    and [gbi(x, b)] is [(((x) >> (b)) & 1)]; the kernel applies the first
    two to 8-bit I/O registers, so the result is stored as a [uint8_t]. *)
Definition sbi (x b : Z) : Z := u8 (Z.lor x (Z.shiftl 1 b)).
Definition cbi (x b : Z) : Z := u8 (Z.land x (Z.lnot (Z.shiftl 1 b))).
Definition gbi (x b : Z) : Z := Z.land (Z.shiftr x b) 1.
End util.
Import util.

(** ** util.h: the context switch macros, on a model of the AVR core

    [saveContext] and [restoreContext] are inline assembly.  The machine
    below has what the two macros touch: the 32 general registers, the
    status register SREG, the 16-bit stack pointer, the program counter and
    the data memory the stack lives in.  [push] stores at SP and then
    decrements SP; [pop] increments SP and then loads from SP, so SP always
    addresses the first free byte under the live stack.  Data memory is a
    flat array of bytes: the model is that of a stack lying in SRAM, above
    the addresses the register file and the I/O registers are mapped to. *)

Module avr_cpu.
Record machine : Type := {
  regs : Z -> Z;   (* r0 .. r31 *)
  SREG : Z;
  SP   : Z;
  PC   : Z;
  mem  : Z -> Z
}.

(** Function update, for the register file and for memory. *)
Definition upd (k v : Z) (f : Z -> Z) : Z -> Z :=
  fun x => if x =? k then v else f x.

(** SREG bit numbers: the global interrupt enable flag I and the
    arithmetic flags Z, N, V, S that [clr] rewrites. *)
Definition SREG_I : Z := 7.
Definition SREG_S : Z := 4.
Definition SREG_V : Z := 3.
Definition SREG_N : Z := 2.
Definition SREG_Z : Z := 1.

Inductive instr : Type :=
| push (r : Z)        (* push rN *)
| pop (r : Z)         (* pop rN *)
| in_SREG (r : Z)     (* in rN, __SREG__ *)
| out_SREG (r : Z)    (* out __SREG__, rN *)
| cli                 (* clear the I flag *)
| clr (r : Z)         (* eor rN, rN *)
| reti.               (* return from interrupt *)

Definition exec (i : instr) (m : machine) : machine :=
  match i with
  | push r =>
      {| regs := regs m; SREG := SREG m; SP := u16 (SP m - 1); PC := PC m;
         mem := upd (SP m) (regs m r) (mem m) |}
  | pop r =>
      {| regs := upd r (mem m (u16 (SP m + 1))) (regs m); SREG := SREG m;
         SP := u16 (SP m + 1); PC := PC m; mem := mem m |}
  | in_SREG r =>
      {| regs := upd r (SREG m) (regs m); SREG := SREG m; SP := SP m;
         PC := PC m; mem := mem m |}
  | out_SREG r =>
      {| regs := regs m; SREG := regs m r; SP := SP m; PC := PC m;
         mem := mem m |}
  | cli =>
      {| regs := regs m; SREG := Z.clearbit (SREG m) SREG_I; SP := SP m;
         PC := PC m; mem := mem m |}
  | clr r =>
      {| regs := upd r 0 (regs m);
         SREG := Z.setbit
                   (Z.clearbit (Z.clearbit (Z.clearbit (SREG m) SREG_S) SREG_V) SREG_N)
                   SREG_Z;
         SP := SP m; PC := PC m; mem := mem m |}
  | reti =>
      (* the return address comes off the stack, high byte first, and
         the I flag is set *)
      {| regs := regs m; SREG := Z.setbit (SREG m) SREG_I;
         SP := u16 (SP m + 2);
         PC := mem m (u16 (SP m + 1)) * 256 + mem m (u16 (SP m + 2));
         mem := mem m |}
  end.

Definition run (prog : list instr) (m : machine) : machine :=
  fold_left (fun m i => exec i m) prog m.

Definition saveContext : list instr :=
  [ push 31;
    in_SREG 31;
    cli;
    push 31;
    push 30; push 29; push 28; push 27; push 26; push 25; push 24;
    push 23; push 22; push 21; push 20; push 19; push 18; push 17;
    push 16; push 15; push 14; push 13; push 12; push 11; push 10;
    push 9; push 8; push 7; push 6; push 5; push 4; push 3; push 2;
    push 1;
    clr 1;
    push 0 ].

Definition restoreContext : list instr :=
  [ pop 0; pop 1; pop 2; pop 3; pop 4; pop 5; pop 6; pop 7; pop 8;
    pop 9; pop 10; pop 11; pop 12; pop 13; pop 14; pop 15; pop 16;
    pop 17; pop 18; pop 19; pop 20; pop 21; pop 22; pop 23; pop 24;
    pop 25; pop 26; pop 27; pop 28; pop 29; pop 30;
    pop 31;
    out_SREG 31;
    pop 31;
    reti ].

(** [restoreContext] without its closing [reti]: the pops and the [out]. *)
Definition restoreContext_pops : list instr := removelast restoreContext.

(** The two long runs inside the macros: [saveContext] pushes r31 (by
    then holding the status byte) down to r1 in one run, and
    [restoreContext] pops r0 up to r31 in one run. *)
Definition save_block : list Z := (fun j : nat => 31 - Z.of_nat j) <$> seq 0 31.
Definition restore_block : list Z := seqZ 0 32.

(** The frame of [saveContext] lies between the 16-bit bounds: neither
    the 33 pushes nor the [reti] after the 33 pops wrap the stack pointer. *)
Definition frame_fits (m : machine) : Prop := 33 <= SP m /\ SP m + 2 < 65536.

(** The reading of C4 as the system description words it: the first byte
    pushed is the original status byte, the second the status byte with
    the I flag cleared. *)
Definition status_pushed_twice (m : machine) : Prop :=
  mem (run saveContext m) (SP m) = SREG m /\
  mem (run saveContext m) (SP m - 1) = Z.clearbit (SREG m) SREG_I.

(** The reading of C5 as worded: save then restore is the identity on
    the general registers, the status byte and the stack pointer. *)
Definition context_round_trip (m : machine) : Prop :=
  let m' := run restoreContext (run saveContext m) in
  (forall r, 0 <= r < 32 -> regs m' r = regs m r) /\
  SREG m' = SREG m /\
  SP m' = SP m.

(** Two concrete machine states, rN = N + 11 (so r31 = 42), SP two bytes
    under the last SRAM byte of the ATmega644, memory cleared: one with
    the I and Z flags set (SREG = 0x82), as in a running process, and one
    with the I flag clear (SREG = 0x02), as at the entry of an interrupt
    service routine. *)
Definition sample_machine : machine :=
  {| regs := fun r => r + 11; SREG := 0x82; SP := 0x10FD; PC := 0;
     mem := fun _ => 0 |}.
Definition isr_entry_machine : machine :=
  {| regs := fun r => r + 11; SREG := 0x02; SP := 0x10FD; PC := 0;
     mem := fun _ => 0 |}.
End avr_cpu.
Import avr_cpu.

(** ** os_process.h and os_process.c *)

Module os_process.

Inductive ProcessState : Type :=
| OS_PS_UNUSED
| OS_PS_READY
| OS_PS_RUNNING
| OS_PS_BLOCKED.

#[export] Instance ProcessState_eq_dec : EqDecision ProcessState.
Proof. solve_decision. Defined.

(** Modelled from the spec: the members of [Process] are left out of
    os_process.h.  The record has the fields of the process record in the
    data model, under the names the test suite reads them by
    ([state], [program], [priority], [sp], [checksum]); [program] is the
    address of the program function, [sp] the saved stack pointer
    ([StackPointer], one 16-bit value read as an integer or as a byte
    pointer). *)
Record Process : Type := {
  state    : ProcessState;
  program  : Z;
  priority : Z;
  sp       : Z;
  checksum : Z
}.

(** Objects of type [Process] in memory, by address.  Reading through a
    pointer that addresses no [Process] (the null pointer among them) has no
    defined result. *)
Definition deref (ram : gmap Z Process) (p : Z) : option Process :=
  if p =? NULL then None else ram !! p.

(** [os_isRunnable(const Process *process)].  [&&] and [||] evaluate their
    right operand only when the left one does not decide the result. *)
Definition os_isRunnable (ram : gmap Z Process) (process : Z) : option bool :=
  cond ← (if negb (process =? NULL) then
            p ← deref ram process;
            if decide (state p = OS_PS_READY) then Some true
            else
              p' ← deref ram process;
              Some (bool_decide (state p' = OS_PS_RUNNING))
          else Some false);
  if (cond : bool) then Some true else Some false.

End os_process.

(** ** The autostart list (os_process.h, os_process.c) *)

Module autostart.

Record program_linked_list_node : Type := {
  program : Z;   (* Program *program *)
  next    : Z    (* struct program_linked_list_node *next *)
}.

(** The part of the image the list lives in: the [static] nodes, by
    address, and the global [autostart_head]. *)
Record image : Type := {
  nodes          : gmap Z program_linked_list_node;
  autostart_head : Z
}.

(** One expansion of [REGISTER_AUTOSTART(PROGRAM_FUNCTION)]: the address of
    its [static] node and the program it names. *)
Definition registration : Type := Z * Z.

(** Before any constructor has run: [autostart_head = NULL], and each node
    is as its initializer [{.program = PROGRAM_FUNCTION}] leaves it. *)
Definition static_node (r : registration) : Z * program_linked_list_node :=
  (r.1, {| program := r.2; next := NULL |}).

Definition load_image (rs : list registration) : image :=
  {| nodes := list_to_map (static_node <$> rs); autostart_head := NULL |}.

(** The constructor [register_autostart_##PROGRAM_FUNCTION]:
    [node.next = autostart_head; autostart_head = &node;]. *)
Definition register_autostart (node : Z) (s : image) : image :=
  {| nodes := alter (fun n => {| program := program n; next := autostart_head s |})
                    node (nodes s);
     autostart_head := node |}.

(** The constructors run one after the other before [main]. *)
Definition run_constructors (order : list Z) (s : image) : image :=
  foldl (fun s node => register_autostart node s) s order.

(** Following the [next] pointers from [p] and collecting the programs,
    as a consumer of the list does; [None] when the walk leaves the nodes
    or does not reach [NULL] within [fuel] steps. *)
Fixpoint autostart_programs (fuel : nat) (h : gmap Z program_linked_list_node)
    (p : Z) : option (list Z) :=
  if p =? NULL then Some []
  else match fuel with
       | O => None
       | S fuel' =>
           n ← h !! p;
           l ← autostart_programs fuel' h (next n);
           Some (program n :: l)
       end.

(** [chain h l p]: from [p] the nodes of [h] are linked in the order of [l],
    each carrying its registration's program, and the last one ends in
    [NULL]. *)
Fixpoint chain (h : gmap Z program_linked_list_node) (l : list registration)
    (p : Z) : Prop :=
  match l with
  | [] => p = NULL
  | r :: l' =>
      p = r.1 /\ r.1 <> NULL /\
      exists nx, h !! r.1 = Some {| program := r.2; next := nx |} /\ chain h l' nx
  end.

End autostart.

(** ** os_core.c: timer initialisation *)

Module os_core.
Section with_device.
Context {io : avr_io}.

(** The I/O registers [os_init_timer] writes. *)
Record io_registers : Type := {
  TCCR2A : Z;
  TCCR2B : Z;
  TIMSK2 : Z;
  OCR2A  : Z;
  TCCR0B : Z;
  TIMSK0 : Z
}.

Definition set_TCCR2A (v : Z) (r : io_registers) : io_registers :=
  {| TCCR2A := v; TCCR2B := TCCR2B r; TIMSK2 := TIMSK2 r; OCR2A := OCR2A r;
     TCCR0B := TCCR0B r; TIMSK0 := TIMSK0 r |}.
Definition set_TCCR2B (v : Z) (r : io_registers) : io_registers :=
  {| TCCR2A := TCCR2A r; TCCR2B := v; TIMSK2 := TIMSK2 r; OCR2A := OCR2A r;
     TCCR0B := TCCR0B r; TIMSK0 := TIMSK0 r |}.
Definition set_TIMSK2 (v : Z) (r : io_registers) : io_registers :=
  {| TCCR2A := TCCR2A r; TCCR2B := TCCR2B r; TIMSK2 := v; OCR2A := OCR2A r;
     TCCR0B := TCCR0B r; TIMSK0 := TIMSK0 r |}.
Definition set_OCR2A (v : Z) (r : io_registers) : io_registers :=
  {| TCCR2A := TCCR2A r; TCCR2B := TCCR2B r; TIMSK2 := TIMSK2 r; OCR2A := v;
     TCCR0B := TCCR0B r; TIMSK0 := TIMSK0 r |}.
Definition set_TCCR0B (v : Z) (r : io_registers) : io_registers :=
  {| TCCR2A := TCCR2A r; TCCR2B := TCCR2B r; TIMSK2 := TIMSK2 r; OCR2A := OCR2A r;
     TCCR0B := v; TIMSK0 := TIMSK0 r |}.
Definition set_TIMSK0 (v : Z) (r : io_registers) : io_registers :=
  {| TCCR2A := TCCR2A r; TCCR2B := TCCR2B r; TIMSK2 := TIMSK2 r; OCR2A := OCR2A r;
     TCCR0B := TCCR0B r; TIMSK0 := v |}.

Definition os_init_timer (r : io_registers) : io_registers :=
  (* Init timer 2 (Scheduler) *)
  let r := set_TCCR2A (sbi (TCCR2A r) WGM21) r in   (* Clear on timer compare match *)
  let r := set_TCCR2B (sbi (TCCR2B r) CS22) r in    (* Prescaler 1024 *)
  let r := set_TCCR2B (sbi (TCCR2B r) CS21) r in
  let r := set_TCCR2B (sbi (TCCR2B r) CS20) r in
  let r := set_TIMSK2 (sbi (TIMSK2 r) OCIE2A) r in  (* Enable interrupt *)
  let r := set_OCR2A (u8 60) r in
  (* Init timer 0 with prescaler 256 *)
  let r := set_TCCR0B (cbi (TCCR0B r) CS00) r in
  let r := set_TCCR0B (cbi (TCCR0B r) CS01) r in
  let r := set_TCCR0B (sbi (TCCR0B r) CS02) r in
  let r := set_TIMSK0 (sbi (TIMSK0 r) TOIE0) r in
  r.

(** The registers after reset: all of them read zero. *)
Definition reset_registers : io_registers :=
  {| TCCR2A := 0; TCCR2B := 0; TIMSK2 := 0; OCR2A := 0; TCCR0B := 0; TIMSK0 := 0 |}.

(** How Timer/Counter2 reads its registers (ATmega644 data sheet): the
    waveform generation mode is the number WGM22:WGM21:WGM20, mode 2 being
    clear-timer-on-compare-match with OCR2A as top; the clock select bits
    CS22:CS21:CS20 choose the prescaler; in mode 2 the counter runs from 0
    to OCR2A, so one compare match takes OCR2A + 1 prescaled clock ticks. *)
Definition timer2_wgm (r : io_registers) : Z :=
  4 * gbi (TCCR2B r) WGM22 + 2 * gbi (TCCR2A r) WGM21 + gbi (TCCR2A r) WGM20.

Definition WGM_CTC : Z := 2.

Definition timer2_clock_select (r : io_registers) : Z :=
  4 * gbi (TCCR2B r) CS22 + 2 * gbi (TCCR2B r) CS21 + gbi (TCCR2B r) CS20.

Definition timer2_prescaler (cs : Z) : Z :=
  match cs with
  | 1 => 1 | 2 => 8 | 3 => 32 | 4 => 64 | 5 => 128 | 6 => 256 | 7 => 1024
  | _ => 0   (* timer stopped *)
  end.

Definition tick_period_ns (r : io_registers) : Z :=
  timer2_prescaler (timer2_clock_select r) * (OCR2A r + 1) * 1000000000 / F_CPU.

(** What the kernel needs of the bit numbers in the device header: they are
    bit numbers of 8-bit registers, and the mode bits are not the bits next
    to them in the same register. *)
Definition timer2_bits_wf : Prop :=
  (0 <= WGM20 < 8 /\ 0 <= WGM21 < 8 /\ 0 <= WGM22 < 8) /\
  (0 <= CS22 < 8 /\ 0 <= CS21 < 8 /\ 0 <= CS20 < 8) /\
  0 <= OCIE2A < 8 /\
  WGM20 <> WGM21 /\
  (WGM22 <> CS22 /\ WGM22 <> CS21 /\ WGM22 <> CS20).

End with_device.
End os_core.

(** ** os_scheduler.c

    os_scheduler.c declares the scheduler's interface and documents it, but
    the process table, the critical section functions and the body of
    [os_exec] are left out of the sources ([#error IMPLEMENT STH. HERE]).
    [os_getProcessSlot] and the placeholder body of [os_getStackChecksum]
    are embedded as they stand; what is missing is modelled from the system
    description and marked so. *)

Module os_scheduler.
Import os_process.
Section with_device.
Context {io : avr_io}.

(** Modelled from the spec: the fatal errors of the critical section
    functions, which [os_exec] can run into (error taxonomy). *)
Inductive fatal_error : Type :=
| CriticalSectionOverflow
| CriticalSectionUnderflow.

(** A computation either returns or stops in a fatal error. *)
Inductive result (A : Type) : Type :=
| Ok (a : A)
| Fatal (e : fatal_error).
Arguments Ok {A} a.
Arguments Fatal {A} e.

#[export] Instance result_bind : MBind result := fun A B k r =>
  match r with
  | Ok a => k a
  | Fatal e => Fatal e
  end.

(** Modelled from the spec: the scheduler's globals, which os_scheduler.c
    leaves out.  [os_processes] is the process table (N slots),
    [currentProc] the index of the running process, [criticalSectionCount]
    the 8-bit nesting depth (the test suite declares it under that name),
    [scheduler_irq] the enable bit of the scheduler's timer interrupt,
    [scheduler_irq_saved] the shadow taken of it by the outermost
    [os_enterCriticalSection], [age] and [timeSlice] the per-slot accounting
    of the strategies, and [sram] the data memory holding the stacks. *)
Record scheduler : Type := {
  os_processes         : list Process;
  currentProc          : Z;
  criticalSectionCount : Z;
  scheduler_irq        : bool;
  scheduler_irq_saved  : bool;
  age                  : list Z;
  timeSlice            : list Z;
  sram                 : Z -> Z
}.

Definition set_os_processes (v : list Process) (s : scheduler) : scheduler :=
  {| os_processes := v; currentProc := currentProc s;
     criticalSectionCount := criticalSectionCount s;
     scheduler_irq := scheduler_irq s; scheduler_irq_saved := scheduler_irq_saved s;
     age := age s; timeSlice := timeSlice s; sram := sram s |}.
Definition set_criticalSectionCount (v : Z) (s : scheduler) : scheduler :=
  {| os_processes := os_processes s; currentProc := currentProc s;
     criticalSectionCount := v;
     scheduler_irq := scheduler_irq s; scheduler_irq_saved := scheduler_irq_saved s;
     age := age s; timeSlice := timeSlice s; sram := sram s |}.
Definition set_scheduler_irq (v : bool) (s : scheduler) : scheduler :=
  {| os_processes := os_processes s; currentProc := currentProc s;
     criticalSectionCount := criticalSectionCount s;
     scheduler_irq := v; scheduler_irq_saved := scheduler_irq_saved s;
     age := age s; timeSlice := timeSlice s; sram := sram s |}.
Definition set_scheduler_irq_saved (v : bool) (s : scheduler) : scheduler :=
  {| os_processes := os_processes s; currentProc := currentProc s;
     criticalSectionCount := criticalSectionCount s;
     scheduler_irq := scheduler_irq s; scheduler_irq_saved := v;
     age := age s; timeSlice := timeSlice s; sram := sram s |}.
Definition set_accounting (a t : list Z) (s : scheduler) : scheduler :=
  {| os_processes := os_processes s; currentProc := currentProc s;
     criticalSectionCount := criticalSectionCount s;
     scheduler_irq := scheduler_irq s; scheduler_irq_saved := scheduler_irq_saved s;
     age := a; timeSlice := t; sram := sram s |}.
Definition set_sram (v : Z -> Z) (s : scheduler) : scheduler :=
  {| os_processes := os_processes s; currentProc := currentProc s;
     criticalSectionCount := criticalSectionCount s;
     scheduler_irq := scheduler_irq s; scheduler_irq_saved := scheduler_irq_saved s;
     age := age s; timeSlice := timeSlice s; sram := v |}.

(** [os_getProcessSlot(pid)] is [os_processes + pid]. *)
Definition os_getProcessSlot (s : scheduler) (pid : Z) : option Process :=
  os_processes s !! Z.to_nat pid.

(** Modelled from the spec: [os_enterCriticalSection] (section 4.4,
    enter): overflow at depth 255; the outermost entry captures the enable
    bit into the shadow and masks the scheduler's timer interrupt; the depth
    is incremented. *)
Definition os_enterCriticalSection (s : scheduler) : result scheduler :=
  if criticalSectionCount s =? 255 then Fatal CriticalSectionOverflow
  else
    let s := if criticalSectionCount s =? 0
             then set_scheduler_irq false (set_scheduler_irq_saved (scheduler_irq s) s)
             else s in
    Ok (set_criticalSectionCount (u8 (criticalSectionCount s + 1)) s).

(** Modelled from the spec: [os_leaveCriticalSection] (section 4.4,
    leave): underflow at depth 0; the depth is decremented; when it reaches
    0 the timer interrupt is enabled again if the shadow says it was. *)
Definition os_leaveCriticalSection (s : scheduler) : result scheduler :=
  if criticalSectionCount s =? 0 then Fatal CriticalSectionUnderflow
  else
    let s := set_criticalSectionCount (u8 (criticalSectionCount s - 1)) s in
    Ok (if (criticalSectionCount s =? 0) && scheduler_irq_saved s
        then set_scheduler_irq true s
        else s).

(** Modelled from the spec: the per-process reset hook of the strategies
    ([os_resetProcessSchedulingInformation], declared in
    os_scheduling_strategies.h, not defined in the sources) clears the
    slot's age and time slice. *)
Definition os_resetProcessSchedulingInformation (id : Z) (s : scheduler) : scheduler :=
  set_accounting (<[Z.to_nat id := 0]> (age s)) (<[Z.to_nat id := 0]> (timeSlice s)) s.

(** The two bytes of a program address, as the unit test of [os_exec]
    takes them: [(uint16_t)program >> 8] and [(uint16_t)program & 0xFF]. *)
Definition high_byte (program : Z) : Z := Z.shiftr (u16 program) 8.
Definition low_byte (program : Z) : Z := Z.land (u16 program) 0xFF.

(** Modelled from the spec: the initial stack frame (section 3), in the
    order it is pushed from the bottom of the stack: the entry address, low
    byte first so that the high byte lies above it as in a return address,
    then 33 zero bytes, one per general register and one for the status
    byte. *)
Definition initial_frame (program : Z) : list Z :=
  [low_byte program; high_byte program] ++ replicate 33 0.

(** Modelled from the spec: laying the frame down pushes its bytes onto
    the empty stack of the slot, each byte stored at the stack pointer, which
    then moves down, so that [sp] ends one under the frame. *)
Definition push_byte (st : (Z -> Z) * Z) (b : Z) : (Z -> Z) * Z :=
  (upd st.2 b st.1, st.2 - 1).

Definition lay_frame (ram : Z -> Z) (bottom : Z) (frame : list Z) : (Z -> Z) * Z :=
  foldl push_byte (ram, bottom) frame.

(** Modelled from the spec: the stack checksum (section 4.3).  The live
    stack of a process are the bytes from [sp + 1] up to the bottom of its
    stack; the fold XORs each byte into a one-byte accumulator and rotates
    the accumulator left by one bit between bytes. *)
Definition rotl8 (x : Z) : Z := u8 (Z.lor (Z.shiftl x 1) (Z.shiftr x 7)).

Fixpoint byte_fold_from (acc : Z) (bytes : list Z) : Z :=
  match bytes with
  | [] => acc
  | [b] => Z.lxor acc b
  | b :: (_ :: _) as rest => byte_fold_from (rotl8 (Z.lxor acc b)) rest
  end.

Definition byte_fold (bytes : list Z) : Z := byte_fold_from 0 bytes.

Definition live_stack (ram : Z -> Z) (sp bottom : Z) : list Z :=
  ram <$> seqZ (sp + 1) (bottom - sp).

Definition stack_checksum (ram : Z -> Z) (sp bottom : Z) : Z :=
  byte_fold (live_stack ram sp bottom).

(** [os_getStackChecksum] as os_scheduler.c has it: the body is the
    placeholder [return 0;] under [#warning IMPLEMENT STH. HERE]. *)
Definition os_getStackChecksum (s : scheduler) (pid : Z) : Z := 0.

(** Modelled from the spec: the scan of [os_exec] for the first unused
    slot (section 4.5, step 3), in increasing order of process id, starting
    with id [pid] at the head of [procs]. *)
Fixpoint first_unused (procs : list Process) (pid : Z) : option Z :=
  match procs with
  | [] => None
  | p :: procs' =>
      if decide (state p = OS_PS_UNUSED) then Some pid
      else first_unused procs' (pid + 1)
  end.

(** Modelled from the spec: [os_exec] (section 4.5), whose body the
    sources leave out.  Step by step: enter the critical section; a null
    program and a full table both leave it and return [INVALID_PROCESS];
    otherwise the first unused slot gets the program, the priority and
    state ready, its accounting is reset, the initial frame is laid down at
    the bottom of its stack with [sp] one under the frame, the checksum of
    the new stack is stored, and the critical section is left. *)
Definition os_exec (s : scheduler) (program : Z) (priority : Z)
    : result (Z * scheduler) :=
  s ← os_enterCriticalSection s;
  if program =? NULL then
    s ← os_leaveCriticalSection s;
    Ok (INVALID_PROCESS, s)
  else
    match first_unused (take (Z.to_nat MAX_NUMBER_OF_PROCESSES) (os_processes s)) 0 with
    | None =>
        s ← os_leaveCriticalSection s;
        Ok (INVALID_PROCESS, s)
    | Some pid =>
        let '(ram, sp) :=
          lay_frame (sram s) (PROCESS_STACK_BOTTOM pid) (initial_frame program) in
        let slot :=
          {| state := OS_PS_READY; program := program; priority := priority;
             sp := sp;
             checksum := stack_checksum ram sp (PROCESS_STACK_BOTTOM pid) |} in
        let s := os_resetProcessSchedulingInformation pid s in
        let s := set_sram ram s in
        let s := set_os_processes (<[Z.to_nat pid := slot]> (os_processes s)) s in
        s ← os_leaveCriticalSection s;
        Ok (pid, s)
    end.

(** A table of N cleared slots, as the unit test of [os_exec] prepares it
    ([(Process){0}] in every slot), zeroed memory, no critical section
    entered. *)
Definition cleared_slot : Process :=
  {| state := OS_PS_UNUSED; program := 0; priority := 0; sp := 0; checksum := 0 |}.

Definition cleared_scheduler : scheduler :=
  {| os_processes := replicate (Z.to_nat MAX_NUMBER_OF_PROCESSES) cleared_slot;
     currentProc := 0; criticalSectionCount := 0;
     scheduler_irq := true; scheduler_irq_saved := false;
     age := replicate (Z.to_nat MAX_NUMBER_OF_PROCESSES) 0;
     timeSlice := replicate (Z.to_nat MAX_NUMBER_OF_PROCESSES) 0;
     sram := fun _ => 0 |}.

(** A table in which slot 0 is ready with one live stack byte, 0x01, at
    the bottom of its stack. *)
Definition one_byte_scheduler : scheduler :=
  set_sram (upd (PROCESS_STACK_BOTTOM 0) 1 (fun _ => 0))
    (set_os_processes
       (<[0%nat := {| state := OS_PS_READY; program := 0x0A30; priority := 2;
                      sp := PROCESS_STACK_BOTTOM 0 - 1; checksum := 1 |}]>
          (os_processes cleared_scheduler))
       cleared_scheduler).

(** The table has its N slots and the caller is less than 255 critical
    sections deep. *)
Definition scheduler_wf (s : scheduler) : Prop :=
  length (os_processes s) = Z.to_nat MAX_NUMBER_OF_PROCESSES /\
  0 <= criticalSectionCount s < 255.

End with_device.

Arguments Ok {A} a.
Arguments Fatal {A} e.

End os_scheduler.

(** ** util.h and os_core.c: Timer/Counter0, the time base

    [os_init_timer] also starts timer 0, whose overflows util.c counts as
    system time. *)

Module timer0.
Section with_device.
Context {io : avr_io}.

(** [#define TC0_PRESCALER 256] (util.h). *)
Definition TC0_PRESCALER : Z := 256.

(** How Timer/Counter0 reads TCCR0B (ATmega644 data sheet): the clock
    select bits CS02:CS01:CS00 choose the prescaler; 6 and 7 select an
    external clock. *)
Definition timer0_clock_select (r : os_core.io_registers) : Z :=
  4 * gbi (os_core.TCCR0B r) CS02 + 2 * gbi (os_core.TCCR0B r) CS01
  + gbi (os_core.TCCR0B r) CS00.

Definition timer0_prescaler (cs : Z) : Z :=
  match cs with
  | 1 => 1 | 2 => 8 | 3 => 64 | 4 => 256 | 5 => 1024
  | _ => 0   (* stopped, or clocked from the T0 pin *)
  end.

(** The bit numbers of timer 0 are bit numbers of 8-bit registers, and the
    three clock select bits are three different bits. *)
Definition timer0_bits_wf : Prop :=
  (0 <= CS02 < 8 /\ 0 <= CS01 < 8 /\ 0 <= CS00 < 8) /\
  0 <= TOIE0 < 8 /\
  (CS02 <> CS01 /\ CS02 <> CS00 /\ CS01 <> CS00).

End with_device.
End timer0.

(** A later state of the machine in which the frame [saveContext] laid down
    for [isr_entry_machine] is still in memory: the registers and the status
    byte hold other values (those of whatever ran in between) and the stack
    pointer has been set back to the saved one. *)
Definition resumed_machine : avr_cpu.machine :=
  {| avr_cpu.regs := fun _ => 0x99; avr_cpu.SREG := 0x01;
     avr_cpu.SP := avr_cpu.SP (avr_cpu.run avr_cpu.saveContext avr_cpu.isr_entry_machine);
     avr_cpu.PC := 0x0123;
     avr_cpu.mem := avr_cpu.mem (avr_cpu.run avr_cpu.saveContext avr_cpu.isr_entry_machine) |}.

(** A stack holding the first frame of a process whose program starts at
    0x0A30: 33 zero bytes over the high and the low byte of the address, in
    otherwise set memory. *)
Definition fresh_frame_machine : avr_cpu.machine :=
  {| avr_cpu.regs := fun _ => 0x99; avr_cpu.SREG := 0x01; avr_cpu.SP := 0x101F - 35;
     avr_cpu.PC := 0x0123;
     avr_cpu.mem := fun a =>
       if a =? 0x101F then 0x30
       else if a =? 0x101E then 0x0A
       else if (0x101F - 35 <? a) && (a <? 0x101E) then 0 else 0xFF |}.

(** ** util.c: system time and delays *)

Module util_c.
Section with_device.
(** The number of the timer 0 overflow flag in TIFR0 comes from the
    device header. *)
Context (TOV0 : Z).

(** Stores into [uint32_t] objects ([Time] is [uint32_t]). *)
Definition u32 (z : Z) : Z := z mod 4294967296.

(** What the time functions read and write: the overflow counter of
    util.c, the status register, the interrupt flag register of timer 0 and
    the counter register of timer 0 as it reads at the moment. *)
Record timebase : Type := {
  os_systemTime_overflows : Z;
  SREG  : Z;
  TIFR0 : Z;
  TCNT0 : Z
}.

Definition set_overflows (v : Z) (t : timebase) : timebase :=
  {| os_systemTime_overflows := v; SREG := SREG t; TIFR0 := TIFR0 t; TCNT0 := TCNT0 t |}.
Definition set_TIFR0 (v : Z) (t : timebase) : timebase :=
  {| os_systemTime_overflows := os_systemTime_overflows t; SREG := SREG t;
     TIFR0 := v; TCNT0 := TCNT0 t |}.

(** [ISR(TIMER0_OVF_vect)]: [os_systemTime_overflows++]. *)
Definition TIMER0_OVF_vect (t : timebase) : timebase :=
  set_overflows (u32 (os_systemTime_overflows t + 1)) t.

Definition os_systemTime_reset (t : timebase) : timebase :=
  set_overflows 0 t.

(** [os_systemTime_overflows * 1000 / (F_CPU / TC0_PRESCALER / 256)], in
    [unsigned long] arithmetic. *)
Definition os_systemTime_coarse (t : timebase) : Z :=
  u32 (os_systemTime_overflows t * 1000) / (F_CPU / timer0.TC0_PRESCALER / 256).

(** An interrupt flag register clears the flags that are written as one
    (ATmega644 data sheet); [TIFR0 |= (1 << TOV0)] reads the register and
    writes the value back with the TOV0 bit set. *)
Definition write_flags (old written : Z) : Z := Z.land old (Z.lnot written).

(** [os_systemTime_augment]: with interrupts off and the overflow flag set
    the overflow is counted here and the flag is cleared; the result is
    [(os_systemTime_overflows << 8) | TCNT0]. *)
Definition os_systemTime_augment (t : timebase) : Z * timebase :=
  let t :=
    if (Z.land (SREG t) (Z.shiftl 1 7) =? 0)
       && negb (Z.land (TIFR0 t) (Z.shiftl 1 TOV0) =? 0)
    then
      let t := set_TIFR0 (write_flags (TIFR0 t) (u8 (Z.lor (TIFR0 t) (Z.shiftl 1 TOV0)))) t in
      set_overflows (u32 (os_systemTime_overflows t + 1)) t
    else t in
  (u32 (Z.lor (u32 (Z.shiftl (os_systemTime_overflows t) 8)) (TCNT0 t)), t).

(** [os_systemTime_augment() / (F_CPU / (TC0_PRESCALER * 1000ul))]. *)
Definition os_systemTime_precise (t : timebase) : Z * timebase :=
  let '(a, t) := os_systemTime_augment t in
  (a / (F_CPU / (timer0.TC0_PRESCALER * 1000)), t).

(** [delayMs] sees the clock through the successive results of
    [os_systemTime_precise()]: [clock] lists them, the first one being the
    start time.  The result is what is left of the readings when the
    function returns, [None] when it is still waiting after the last of
    them. *)
Fixpoint delay_loop (keep_waiting : Z -> bool) (clock : list Z) : option (list Z) :=
  match clock with
  | [] => None
  | now :: clock' =>
      (* do { now = os_systemTime_precise(); } while (...) *)
      if keep_waiting now then delay_loop keep_waiting clock' else Some clock'
  end.

Definition delayMs (ms : Z) (clock : list Z) : option (list Z) :=
  match clock with
  | [] => None
  | startTime :: clock' =>
      let destinationTime := u32 (startTime + ms) in
      if startTime <=? destinationTime then
        delay_loop (fun now => (startTime <=? now) && (now <? destinationTime)) clock'
      else
        delay_loop (fun now => (now <? destinationTime) || (startTime <=? now)) clock'
  end.

(** The time that has passed from [start] to [now] on a 32-bit clock. *)
Definition elapsed (start now : Z) : Z := u32 (now - start).

End with_device.
End util_c.

(** ** os_core.c: the reset source check *)

(** The bit numbers of the reset flags in MCUSR, from the device header. *)
Class avr_mcusr := {
  JTRF : Z; WDRF : Z; BORF : Z; EXTRF : Z; PORF : Z
}.

#[export] Instance atmega644_mcusr : avr_mcusr := {|
  PORF := 0; EXTRF := 1; BORF := 2; WDRF := 3; JTRF := 4
|}.

Module os_core_reset.
Section with_device.
Context {mcusr : avr_mcusr}.

(** What [os_checkResetSource] does to the outside: its calls into the LCD
    driver and the button driver, in order. *)
Inductive io_call : Type :=
| call_lcd_line1
| call_lcd_line2
| call_lcd_writeProgString (text : string)
| call_os_waitForInput
| call_os_waitForNoInput.

#[export] Instance io_call_eq_dec : EqDecision io_call.
Proof. solve_decision. Defined.

(** [_BV(bit)] of avr-libc is [(1 << (bit))]. *)
Definition _BV (bit : Z) : Z := Z.shiftl 1 bit.

(** os_core.h. *)
Definition OS_ALLOWED_RESET_SOURCES : Z :=
  Z.lor (Z.lor (Z.lor (_BV JTRF) (_BV BORF)) (_BV EXTRF)) (_BV PORF).

Definition os_checkResetSource (savedMCUSR allowedSources : Z) : list io_call :=
  [call_lcd_line2]
  ++ (if gbi savedMCUSR JTRF =? 0 then [] else [call_lcd_writeProgString "JT "])
  ++ (if gbi savedMCUSR WDRF =? 0 then [] else [call_lcd_writeProgString "WATCHDOG "])
  ++ (if gbi savedMCUSR BORF =? 0 then [] else [call_lcd_writeProgString "BO "])
  ++ (if gbi savedMCUSR EXTRF =? 0 then [] else [call_lcd_writeProgString "EXT "])
  ++ (if gbi savedMCUSR PORF =? 0 then [] else [call_lcd_writeProgString "POW"])
  ++ (if savedMCUSR =? 0 then [call_lcd_writeProgString "SOFT RESET"] else [])
  ++ (if Z.land savedMCUSR allowedSources =? 0
      then [call_lcd_line1; call_lcd_writeProgString "SYSTEM ERROR:   ";
            call_os_waitForInput; call_os_waitForNoInput]
      else []).

Definition mcusr_bits_wf : Prop :=
  0 <= JTRF < 8 /\ 0 <= WDRF < 8 /\ 0 <= BORF < 8 /\ 0 <= EXTRF < 8 /\ 0 <= PORF < 8.

End with_device.
End os_core_reset.

(** ** lcd.h and lcd.c: the LCD driver

    The driver talks to the display through port A: it writes
    [LCD_PORT_DATA] and [LCD_PORT_DDR] and reads the busy flag from
    [LCD_PIN].  The state below has the driver's variables ([charCtr] and
    the two [static] variables of [lcd_writeChar]), the status register, the
    two port registers, what the pins will show at each successive read
    ([LCD_PIN], counted by [pin_reads]) and, as the visible behaviour of
    the driver, the sequence of values written to [LCD_PORT_DATA]
    ([port_trace]).  Delays ([_delay_us]) take time and change nothing.
    [char] is an unsigned byte, as the comparisons of [lcd_writeChar] with
    0xBF .. 0xFF presuppose. *)

Module lcd.

Definition LCD_CLEAR : Z := 0x01.
Definition LCD_LINE_1 : Z := 0x80.
Definition LCD_LINE_2 : Z := 0xC0.
Definition LCD_CURSOR_MOVE_R : Z := 0x80.
Definition LCD_NEXT_ROW : Z := 0x40.
Definition LCD_BUSY_TIMEOUT : Z := 2000.
Definition LCD_CC_IXI : Z := 0.
Definition LCD_CC_TILDE : Z := 1.
Definition LCD_CC_BACKSLASH : Z := 2.
Definition LCD_CC_MU : Z := 3.

Record lcd_state : Type := {
  charCtr       : Z;          (* uint8_t charCtr *)
  codePoint     : Z;          (* static uint32_t codePoint *)
  expectedBytes : Z;          (* static uint8_t expectedBytes *)
  SREG          : Z;
  LCD_PORT_DDR  : Z;
  LCD_PORT_DATA : Z;
  LCD_PIN       : nat -> Z;
  pin_reads     : nat;
  port_trace    : list Z
}.

Definition set_charCtr (v : Z) (s : lcd_state) : lcd_state :=
  {| charCtr := v; codePoint := codePoint s; expectedBytes := expectedBytes s;
     SREG := SREG s; LCD_PORT_DDR := LCD_PORT_DDR s; LCD_PORT_DATA := LCD_PORT_DATA s;
     LCD_PIN := LCD_PIN s; pin_reads := pin_reads s; port_trace := port_trace s |}.
Definition set_codePoint (v : Z) (s : lcd_state) : lcd_state :=
  {| charCtr := charCtr s; codePoint := v; expectedBytes := expectedBytes s;
     SREG := SREG s; LCD_PORT_DDR := LCD_PORT_DDR s; LCD_PORT_DATA := LCD_PORT_DATA s;
     LCD_PIN := LCD_PIN s; pin_reads := pin_reads s; port_trace := port_trace s |}.
Definition set_expectedBytes (v : Z) (s : lcd_state) : lcd_state :=
  {| charCtr := charCtr s; codePoint := codePoint s; expectedBytes := v;
     SREG := SREG s; LCD_PORT_DDR := LCD_PORT_DDR s; LCD_PORT_DATA := LCD_PORT_DATA s;
     LCD_PIN := LCD_PIN s; pin_reads := pin_reads s; port_trace := port_trace s |}.
Definition set_SREG (v : Z) (s : lcd_state) : lcd_state :=
  {| charCtr := charCtr s; codePoint := codePoint s; expectedBytes := expectedBytes s;
     SREG := v; LCD_PORT_DDR := LCD_PORT_DDR s; LCD_PORT_DATA := LCD_PORT_DATA s;
     LCD_PIN := LCD_PIN s; pin_reads := pin_reads s; port_trace := port_trace s |}.
Definition set_LCD_PORT_DDR (v : Z) (s : lcd_state) : lcd_state :=
  {| charCtr := charCtr s; codePoint := codePoint s; expectedBytes := expectedBytes s;
     SREG := SREG s; LCD_PORT_DDR := v; LCD_PORT_DATA := LCD_PORT_DATA s;
     LCD_PIN := LCD_PIN s; pin_reads := pin_reads s; port_trace := port_trace s |}.

(** A write to [LCD_PORT_DATA] changes the register and shows on the port. *)
Definition set_LCD_PORT_DATA (v : Z) (s : lcd_state) : lcd_state :=
  {| charCtr := charCtr s; codePoint := codePoint s; expectedBytes := expectedBytes s;
     SREG := SREG s; LCD_PORT_DDR := LCD_PORT_DDR s; LCD_PORT_DATA := v;
     LCD_PIN := LCD_PIN s; pin_reads := pin_reads s;
     port_trace := port_trace s ++ [v] |}.

(** A read of [LCD_PIN] uses up one reading. *)
Definition read_LCD_PIN (s : lcd_state) : Z * lcd_state :=
  (LCD_PIN s (pin_reads s),
   {| charCtr := charCtr s; codePoint := codePoint s; expectedBytes := expectedBytes s;
      SREG := SREG s; LCD_PORT_DDR := LCD_PORT_DDR s; LCD_PORT_DATA := LCD_PORT_DATA s;
      LCD_PIN := LCD_PIN s; pin_reads := S (pin_reads s);
      port_trace := port_trace s |}).

(** [cli()]. *)
Definition cli (s : lcd_state) : lcd_state := set_SREG (Z.clearbit (SREG s) 7) s.

Definition lcd_enable (s : lcd_state) : lcd_state :=
  let s := set_LCD_PORT_DATA (sbi (LCD_PORT_DATA s) 5) s in   (* Enable *)
  set_LCD_PORT_DATA (cbi (LCD_PORT_DATA s) 5) s.              (* Disable *)

(** One round of the [do ... while (busy)] loop of [lcd_sendStream], up to
    the [iterations++]: the busy flag that was read, and the state. *)
Definition lcd_poll (s : lcd_state) : bool * lcd_state :=
  let s := set_LCD_PORT_DATA 0x40 s in
  let s := set_LCD_PORT_DATA (sbi (LCD_PORT_DATA s) 5) s in
  let s := set_LCD_PORT_DDR 0xF0 s in
  let s := set_LCD_PORT_DATA (u8 (Z.lor (LCD_PORT_DATA s) 0x0F)) s in
  let '(pin, s) := read_LCD_PIN s in
  let busy := negb (Z.land pin 0x08 =? 0) in
  let s := set_LCD_PORT_DATA (cbi (LCD_PORT_DATA s) 5) s in
  (busy, lcd_enable s).

(** The loop; the result is [false] when the function has to return because
    of the timeout.  The loop ends at the latest when [iterations] reaches
    [LCD_BUSY_TIMEOUT], so [fuel] is never used up when it starts at that
    value. *)
Fixpoint lcd_busyWait (fuel : nat) (iterations : Z) (s : lcd_state)
    : bool * lcd_state :=
  match fuel with
  | O => (false, s)
  | S fuel' =>
      let '(busy, s) := lcd_poll s in
      let iterations := u16 (iterations + 1) in
      if iterations =? LCD_BUSY_TIMEOUT then (false, lcd_enable s)
      else if busy then lcd_busyWait fuel' iterations s
      else (true, s)
  end.

Definition lcd_sendStream (firstByte secondByte : Z) (s : lcd_state) : lcd_state :=
  let sreg := Z.land (SREG s) (Z.shiftl 1 7) in
  let s := cli s in
  let '(ready, s) := lcd_busyWait (Z.to_nat LCD_BUSY_TIMEOUT) 0 s in
  if ready then
    let s := set_LCD_PORT_DDR 0xFF s in
    let s := set_LCD_PORT_DATA firstByte s in
    let s := lcd_enable s in
    let s := set_LCD_PORT_DATA secondByte s in
    let s := lcd_enable s in
    set_SREG (u8 (Z.lor (SREG s) sreg)) s
  else
    set_SREG (u8 (Z.lor (SREG s) sreg)) s.

Definition lcd_command (command : Z) (s : lcd_state) : lcd_state :=
  lcd_sendStream (Z.land (Z.shiftr command 4) 0xF) (Z.land command 0xF) s.

Definition lcd_clear (s : lcd_state) : lcd_state :=
  lcd_command LCD_CLEAR (set_charCtr 0 s).

Definition lcd_line1 (s : lcd_state) : lcd_state :=
  set_charCtr 0 (lcd_command LCD_LINE_1 s).

Definition lcd_line2 (s : lcd_state) : lcd_state :=
  set_charCtr 16 (lcd_command LCD_LINE_2 s).

(** [lcd_goto(unsigned char row, unsigned char column)]. *)
Definition lcd_goto (row column : Z) (s : lcd_state) : lcd_state :=
  let row := u8 (row - 1) in
  let row := if 1 <? row then 0 else row in
  let column := u8 (column - 1) in
  let column := if 15 <? column then 0 else column in
  let command := u8 (LCD_CURSOR_MOVE_R + column + row * LCD_NEXT_ROW) in
  let s := set_charCtr (u8 (row * 16 + column)) s in
  lcd_command command s.

(** The arguments are computed in [int] ([/] and [%] truncate towards
    zero) and converted to [unsigned char]. *)
Definition lcd_back (s : lcd_state) : lcd_state :=
  lcd_goto (u8 (1 + Z.quot (charCtr s - 1) 16)) (u8 (1 + Z.rem (charCtr s - 1) 16)) s.

Definition lcd_forward (s : lcd_state) : lcd_state :=
  lcd_goto (u8 (1 + Z.quot (charCtr s + 1) 16)) (u8 (1 + Z.rem (charCtr s + 1) 16)) s.

Definition lcd_home (s : lcd_state) : lcd_state :=
  lcd_goto (u8 (1 + Z.quot (charCtr s) 16)) 0 s.

(** The [switch] of [lcd_writeChar] that maps a code point to the
    character code of the display; [character] is the byte read last. *)
Definition lcd_remap (codePoint character : Z) : Z :=
  match codePoint with
  | 0x5C => LCD_CC_BACKSLASH
  | 0x7E => LCD_CC_TILDE
  | 0xC2A5 => 0x5C
  | 0xC2B0 => 0xDF
  | 0xC2B5 => 0xE4
  | 0xC39F => 0xE2
  | 0xC3A4 => 0xE1
  | 0xC3B6 => 0xEF
  | 0xC3B7 => 0xFD
  | 0xC3BC => 0xF5
  | 0xCEA3 => 0xF6
  | 0xCEA9 => 0xF4
  | 0xCEB1 => 0xE0
  | 0xCEB5 => 0xE3
  | 0xCEBC => LCD_CC_MU
  | 0xCF80 => 0xF7
  | 0xCF81 => 0xE6
  | 0xCF83 => 0xE5
  | 0xE285BA => LCD_CC_IXI
  | 0xE28690 => 0x7F
  | 0xE28692 => 0x7E
  | 0xE2889A => 0xE8
  | 0xE296A1 => 0xDB
  | 0xE296AE => 0xFF
  | _ => if codePoint <=? 0x7F then codePoint else character
  end.

(** The UTF-8 step of [lcd_writeChar]. *)
Definition lcd_decode (character : Z) (s : lcd_state) : lcd_state :=
  if expectedBytes s =? 0 then
    let s := set_codePoint character s in
    if character <=? 0x7F then set_expectedBytes 0 s
    else if character <=? 0xBF then set_expectedBytes 0 (set_codePoint 0xE296A1 s)
    else if character <=? 0xDF then set_expectedBytes 1 s
    else if character <=? 0xEF then set_expectedBytes 2 s
    else if character <=? 0xFF then set_expectedBytes 3 s
    else s
  else if (0x80 <=? character) && (character <=? 0xBF) then
    let s := set_codePoint (util_c.u32 (Z.lor (Z.shiftl (codePoint s) 8) character)) s in
    set_expectedBytes (u8 (expectedBytes s - 1)) s
  else
    set_expectedBytes 0 (set_codePoint 0xE296A1 s).

(** The line change of [lcd_writeChar]: a newline moves [charCtr] to the
    end of the line, and a full line or a full display is left before the
    next character is printed. *)
Definition lcd_lineChange (s : lcd_state) : lcd_state :=
  let s := if codePoint s =? 10
           then set_charCtr (if charCtr s <? 0x10 then 0x10 else 0x20) s
           else s in
  if charCtr s =? 0x10 then lcd_line2 s
  else if charCtr s =? 0x20 then lcd_line1 (lcd_clear s)
  else s.

(** The end of [lcd_writeChar]: the code point is mapped to the character
    set of the display and sent, and [charCtr] counts it. *)
Definition lcd_print (character : Z) (s : lcd_state) : lcd_state :=
  let character := lcd_remap (codePoint s) character in
  let s := lcd_sendStream
             (Z.lor 0x10 (Z.shiftr (Z.land character 0xF0) 4))
             (Z.lor 0x10 (Z.land character 0x0F)) s in
  set_charCtr (u8 (charCtr s + 1)) s.

(** The body of the [ATOMIC] block of [lcd_writeChar]. *)
Definition lcd_writeChar_body (character : Z) (s : lcd_state) : lcd_state :=
  let s := lcd_decode character s in
  if negb (expectedBytes s =? 0) then s        (* UTF-8 special bytes *)
  else
    let s := lcd_lineChange s in
    if codePoint s =? 10 then s
    else lcd_print character s.

(** [ATOMIC] saves the status register, turns interrupts off and restores
    the register wherever the block is left. *)
Definition lcd_writeChar (character : Z) (s : lcd_state) : lcd_state :=
  set_SREG (SREG s) (lcd_writeChar_body character (cli s)).

(** Consecutive calls of [lcd_writeChar]. *)
Definition lcd_writeChars (text : list Z) (s : lcd_state) : lcd_state :=
  foldl (fun s c => lcd_writeChar c s) s text.

(** [lcd_writeString] and [lcd_writeProgString]: the bytes of [text] up to
    the terminating zero. *)
Fixpoint lcd_writeString (text : list Z) (s : lcd_state) : lcd_state :=
  match text with
  | [] => s
  | c :: text' => if c =? 0 then s else lcd_writeString text' (lcd_writeChar c s)
  end.

Definition lcd_writeHexNibble (number : Z) (s : lcd_state) : lcd_state :=
  let low := Z.land number 0xF in
  if low <? 10 then lcd_writeChar (u8 (low + 48)) s
  else lcd_writeChar (u8 (low - 10 + 65)) s.

Definition lcd_writeHexByte (number : Z) (s : lcd_state) : lcd_state :=
  let s := lcd_writeHexNibble (u8 (Z.shiftr number 4)) s in
  lcd_writeHexNibble (u8 (Z.land number 0xF)) s.

Definition lcd_writeHexWord (number : Z) (s : lcd_state) : lcd_state :=
  let s := lcd_writeHexByte (u8 (Z.shiftr number 8)) s in
  lcd_writeHexByte (u8 number) s.

(** The [while (nib)] loop of [lcd_writeHex]; it runs four times. *)
Fixpoint lcd_writeHex_loop (fuel : nat) (nib print number : Z) (s : lcd_state)
    : lcd_state :=
  match fuel with
  | O => s
  | S fuel' =>
      if nib =? 0 then s
      else
        let nib := u16 (nib - 4) in
        let print := u8 (Z.lor print (Z.shiftr number nib)) in
        let s := if negb (print =? 0)
                 then lcd_writeHexNibble (u8 (Z.shiftr number nib)) s
                 else s in
        lcd_writeHex_loop fuel' nib print number s
  end.

Definition lcd_writeHex (number : Z) (s : lcd_state) : lcd_state :=
  if number =? 0 then lcd_writeChar 48 s
  else lcd_writeHex_loop 5 16 0 number s.

(** The [do ... while (pos /= 10)] loop of [lcd_writeDec]; it runs five
    times. *)
Fixpoint lcd_writeDec_loop (fuel : nat) (pos print number : Z) (s : lcd_state)
    : lcd_state :=
  match fuel with
  | O => s
  | S fuel' =>
      let digit := u8 (number / pos) in
      let number := u16 (number - digit * pos) in
      let print := Z.lor print digit in
      let s := if negb (print =? 0) then lcd_writeChar (u8 (digit + 48)) s else s in
      let pos := pos / 10 in
      if pos =? 0 then s else lcd_writeDec_loop fuel' pos print number s
  end.

Definition lcd_writeDec (number : Z) (s : lcd_state) : lcd_state :=
  if number =? 0 then lcd_writeChar 48 s
  else lcd_writeDec_loop 6 10000 0 number s.

(** Reading numbers back from the characters written. *)
Definition hex_digit (c : Z) : option Z :=
  if (48 <=? c) && (c <=? 57) then Some (c - 48)
  else if (65 <=? c) && (c <=? 70) then Some (c - 55)
  else None.

Definition dec_digit (c : Z) : option Z :=
  if (48 <=? c) && (c <=? 57) then Some (c - 48) else None.

Definition read_number (base : Z) (digit : Z -> option Z) (text : list Z) : option Z :=
  foldl (fun acc c => n ← acc; d ← digit c; Some (n * base + d)) (Some 0) text.

(** The characters the number writers hand to [lcd_writeChar], computed
    the way the functions compute them. *)
Definition hexNibble_char (number : Z) : Z :=
  let low := Z.land number 0xF in
  if low <? 10 then u8 (low + 48) else u8 (low - 10 + 65).

Definition hexByte_chars (number : Z) : list Z :=
  [hexNibble_char (u8 (Z.shiftr number 4)); hexNibble_char (u8 (Z.land number 0xF))].

Definition hexWord_chars (number : Z) : list Z :=
  hexByte_chars (u8 (Z.shiftr number 8)) ++ hexByte_chars (u8 number).

Fixpoint hex_loop_chars (fuel : nat) (nib print number : Z) : list Z :=
  match fuel with
  | O => []
  | S fuel' =>
      if nib =? 0 then []
      else
        let nib := u16 (nib - 4) in
        let print := u8 (Z.lor print (Z.shiftr number nib)) in
        (if negb (print =? 0) then [hexNibble_char (u8 (Z.shiftr number nib))] else [])
        ++ hex_loop_chars fuel' nib print number
  end.

Definition hex_chars (number : Z) : list Z :=
  if number =? 0 then [48] else hex_loop_chars 5 16 0 number.

Fixpoint dec_loop_chars (fuel : nat) (pos print number : Z) : list Z :=
  match fuel with
  | O => []
  | S fuel' =>
      let digit := u8 (number / pos) in
      let number := u16 (number - digit * pos) in
      let print := Z.lor print digit in
      (if negb (print =? 0) then [u8 (digit + 48)] else [])
      ++ (let pos := pos / 10 in
          if pos =? 0 then [] else dec_loop_chars fuel' pos print number)
  end.

Definition dec_chars (number : Z) : list Z :=
  if number =? 0 then [48] else dec_loop_chars 6 10000 0 number.

(** [lcd_erase(uint8_t line)]. *)
Definition lcd_erase (line : Z) (s : lcd_state) : lcd_state :=
  let oldCtr := charCtr s in
  let line := if 2 <? line then 1 else line in
  let s := lcd_goto line 1 s in
  let s := lcd_writeChars (replicate 16 32) s in
  let s := set_charCtr oldCtr s in
  lcd_goto (u8 (Z.quot (charCtr s) 16 + 1)) (u8 (Z.rem (charCtr s) 16 + 1)) s.

(** The string literal of [lcd_drawBar]: U+25AE in UTF-8. *)
Definition bar_string : list Z := [0xE2; 0x96; 0xAE; 0].

(** The [for (i = 0; i < val; i += 100)] loop of [lcd_drawBar]; [val] is at
    most 1600, so the loop runs at most sixteen times. *)
Fixpoint lcd_drawBar_loop (fuel : nat) (i val : Z) (s : lcd_state) : lcd_state :=
  match fuel with
  | O => s
  | S fuel' =>
      if i <? val
      then lcd_drawBar_loop fuel' (u16 (i + 100)) val (lcd_writeString bar_string s)
      else s
  end.

Definition lcd_drawBar (percent : Z) (s : lcd_state) : lcd_state :=
  let s := lcd_clear s in
  let val := u16 ((if percent <=? 100 then percent else 100) * 16) in
  lcd_drawBar_loop 17 0 val s.

(** What the display's busy flag will show at the [k]-th read from now. *)
Definition busy_at (s : lcd_state) (k : nat) : bool :=
  negb (Z.land (LCD_PIN s (pin_reads s + k)%nat) 0x08 =? 0).

(** The port values of one round of the busy-flag loop, and of one byte
    put on the port and clocked in with [lcd_enable]. *)
Definition poll_cycle : list Z := [0x40; 0x60; 0x6F; 0x4F; 0x6F; 0x4F].
Definition strobe (byte : Z) : list Z := [byte; sbi byte 5; cbi (sbi byte 5) 5].

(** [lcd_write32bitHex(uint32_t number)]. *)
Definition lcd_write32bitHex (number : Z) (s : lcd_state) : lcd_state :=
  let s := lcd_writeDec 0 s in
  let s := lcd_writeChar 120 s in                     (* 'x' *)
  let s := lcd_writeHexWord (u16 (Z.shiftr number 16)) s in
  lcd_writeHexWord (u16 number) s.

(** [lcd_writeVoltage(uint16_t voltage, uint16_t valueUpperBound,
    uint8_t voltUpperBound)].  The arithmetic is that of 16-bit [unsigned
    int], apart from the product with 1000 and its quotient, which are
    32-bit.  A [valueUpperBound] of zero divides by zero in the source;
    here the quotient is then 0. *)
Definition lcd_writeVoltage (voltage valueUpperBound voltUpperBound : Z)
    (s : lcd_state) : lcd_state :=
  let voltage := u16 (voltage * voltUpperBound) in
  let intVal := u8 (voltage / valueUpperBound) in
  let floatVal :=
    u16 (util_c.u32 (u16 (voltage - u16 (intVal * valueUpperBound)) * 1000)
         / valueUpperBound) in
  let s := lcd_writeDec intVal s in
  let s := lcd_writeChar 46 s in                      (* '.' *)
  let s := if floatVal <? 100 then lcd_writeChar 48 s else s in
  let s := if floatVal <? 10 then lcd_writeChar 48 s else s in
  let s := lcd_writeDec floatVal s in
  lcd_writeChar 86 s.                                 (* 'V' *)

(** The three places that [lcd_writeVoltage] prints after the point. *)
Definition fraction_chars (floatVal : Z) : list Z :=
  (if floatVal <? 100 then [48] else [])
  ++ (if floatVal <? 10 then [48] else [])
  ++ dec_chars floatVal.

(** A display that is idle: nothing pending in the decoder, cursor at the
    top left, interrupts on, and a busy flag that always reads clear. *)
Definition idle_lcd : lcd_state :=
  {| charCtr := 0; codePoint := 0; expectedBytes := 0; SREG := 0x80;
     LCD_PORT_DDR := 0xFF; LCD_PORT_DATA := 0; LCD_PIN := fun _ => 0;
     pin_reads := 0; port_trace := [] |}.

End lcd.

(** What [lcd_sendStream] leaves alone: the driver's variables, the status
    register and the readings still to come. *)
Definition lcd_frame (s s' : lcd.lcd_state) : Prop :=
  lcd.charCtr s' = lcd.charCtr s /\
  lcd.codePoint s' = lcd.codePoint s /\
  lcd.expectedBytes s' = lcd.expectedBytes s /\
  lcd.SREG s' = lcd.SREG s /\
  lcd.LCD_PIN s' = lcd.LCD_PIN s.

(** A display whose busy flag never clears. *)
Definition stuck_lcd : lcd.lcd_state :=
  {| lcd.charCtr := 0; lcd.codePoint := 0; lcd.expectedBytes := 0; lcd.SREG := 0x80;
     lcd.LCD_PORT_DDR := 0xFF; lcd.LCD_PORT_DATA := 0; lcd.LCD_PIN := fun _ => 0x08;
     lcd.pin_reads := 0; lcd.port_trace := [] |}.

(** A display that is ready whenever it is asked, and what then goes over
    the port for one byte pair: one poll round and the two bytes. *)
Definition always_ready (s : lcd.lcd_state) : Prop :=
  forall j, lcd.busy_at s j = false.

Definition transfer (firstByte secondByte : Z) : list Z :=
  lcd.poll_cycle ++ lcd.strobe firstByte ++ lcd.strobe secondByte.

(** What [lcd_writeChar] sends to a ready display before it prints: the
    command for line 2 when line 1 is full or left by a newline, the
    commands to clear the display and go to line 1 when line 2 is. *)
Definition line_change (newline : bool) (charCtr : Z) : list Z :=
  if newline then
    if charCtr <? 16 then transfer 0xC 0x0 else transfer 0x0 0x1 ++ transfer 0x8 0x0
  else if charCtr =? 16 then transfer 0xC 0x0
  else if charCtr =? 32 then transfer 0x0 0x1 ++ transfer 0x8 0x0
  else [].

(** A character code of the display on the port: two nibbles with the
    register-select bit 0x10. *)
Definition send_char (code : Z) : list Z :=
  transfer (Z.lor 0x10 (Z.shiftr (Z.land code 0xF0) 4)) (Z.lor 0x10 (Z.land code 0x0F)).

(** The bytes of a UTF-8 sequence read as one number, the way
    [lcd_writeChar] collects them in [codePoint]. *)
Definition utf8_code (lead : Z) (continuation : list Z) : Z :=
  foldl (fun acc c => acc * 256 + c) lead continuation.

(** How many continuation bytes [lcd_writeChar] expects after a lead
    byte. *)
Definition utf8_expected (lead : Z) : nat :=
  if lead <=? 0xDF then 1%nat else if lead <=? 0xEF then 2%nat else 3%nat.

(** Checking a decidable property of every [bits]-bit number whose leading
    bits are [prefix], by running through them. *)
Fixpoint all_numbers (bits : nat) (P : Z -> bool) (prefix : Z) : bool :=
  match bits with
  | O => P prefix
  | S bits' =>
      all_numbers bits' P (2 * prefix) && all_numbers bits' P (2 * prefix + 1)
  end.

(** The check that [digits] is the numeral of [number] without leading
    zeros: at least one and at most [longest] digits, that read back as
    [number], the first of them 0 only for the number 0. *)
Definition digits_ok (base : Z) (digit : Z -> option Z) (longest : nat)
    (number : Z) (digits : list Z) : bool :=
  Nat.leb 1 (length digits) && Nat.leb (length digits) longest
  && match lcd.read_number base digit digits with
     | Some m => m =? number
     | None => false
     end
  && ((number =? 0) || negb (hd 0 digits =? 48)).

(* ===================================================================== *)
(** * Part II: properties                                                 *)
(* ===================================================================== *)

Section stack_layout.
Context {io : avr_io}.
Hypothesis sram_4k : AVR_MEMORY_SRAM = 4096.

Lemma STACK_SIZE_PROC_228 : STACK_SIZE_PROC = 228.
Proof using sram_4k. unfold STACK_SIZE_PROC. rewrite sram_4k. reflexivity. Qed.

Lemma PROCESS_STACK_BOTTOM_eq k :
  PROCESS_STACK_BOTTOM k = RAMEND - 224 - 228 * k.
Proof using sram_4k.
  unfold PROCESS_STACK_BOTTOM. rewrite STACK_SIZE_PROC_228.
  unfold BOTTOM_OF_PROCS_STACK, BOTTOM_OF_ISR_STACK, BOTTOM_OF_MAIN_STACK,
    AVR_SRAM_LAST, STACK_SIZE_ISR, STACK_SIZE_MAIN. lia.
Qed.

Lemma process_stack_region_eq k :
  process_stack_region k = (RAMEND - 451 - 228 * k, RAMEND - 224 - 228 * k).
Proof using sram_4k.
  unfold process_stack_region, stack_region.
  rewrite PROCESS_STACK_BOTTOM_eq, STACK_SIZE_PROC_228. f_equal; lia.
Qed.

(** C6: with 4096 bytes of SRAM the per-process stack size is 228, and
    the eight process stack regions
    [PROCESS_STACK_BOTTOM k - STACK_SIZE_PROC + 1, PROCESS_STACK_BOTTOM k]
    are pairwise disjoint and disjoint from the ISR stack and from the
    main (boot) stack. *)
Theorem stack_regions_disjoint :
  STACK_SIZE_MAIN = 32 /\ STACK_SIZE_ISR = 192 /\ MAX_NUMBER_OF_PROCESSES = 8 /\
  STACK_SIZE_PROC =
    ((AVR_MEMORY_SRAM / 2) - STACK_SIZE_MAIN - STACK_SIZE_ISR) / MAX_NUMBER_OF_PROCESSES /\
  STACK_SIZE_PROC = 228 /\
  (forall j k, 0 <= j < MAX_NUMBER_OF_PROCESSES -> 0 <= k < MAX_NUMBER_OF_PROCESSES ->
     j <> k -> disjoint_regions (process_stack_region j) (process_stack_region k)) /\
  (forall k, 0 <= k < MAX_NUMBER_OF_PROCESSES ->
     disjoint_regions (process_stack_region k) isr_stack_region /\
     disjoint_regions (process_stack_region k) main_stack_region) /\
  disjoint_regions isr_stack_region main_stack_region.
Proof using sram_4k.
  repeat split; try reflexivity.
  - rewrite STACK_SIZE_PROC_228, sram_4k. reflexivity.
  - apply STACK_SIZE_PROC_228.
  - intros j k Hj Hk Hjk a. rewrite !process_stack_region_eq.
    unfold in_region, MAX_NUMBER_OF_PROCESSES in *. simpl. lia.
  - intros a. rewrite process_stack_region_eq.
    unfold isr_stack_region, stack_region, in_region, BOTTOM_OF_ISR_STACK,
      BOTTOM_OF_MAIN_STACK, AVR_SRAM_LAST, STACK_SIZE_ISR, STACK_SIZE_MAIN,
      MAX_NUMBER_OF_PROCESSES in *. simpl. lia.
  - intros a. rewrite process_stack_region_eq.
    unfold main_stack_region, stack_region, in_region,
      BOTTOM_OF_MAIN_STACK, AVR_SRAM_LAST, STACK_SIZE_MAIN,
      MAX_NUMBER_OF_PROCESSES in *. simpl. lia.
  - intros a.
    unfold isr_stack_region, main_stack_region, stack_region, in_region,
      BOTTOM_OF_ISR_STACK, BOTTOM_OF_MAIN_STACK, AVR_SRAM_LAST, STACK_SIZE_ISR,
      STACK_SIZE_MAIN. simpl. lia.
Qed.
End stack_layout.

Lemma stack_regions_disjoint_witness :
  @AVR_MEMORY_SRAM atmega644 = 4096 /\ @STACK_SIZE_PROC atmega644 = 228.
Proof.
  split; [reflexivity|].
  apply (@stack_regions_disjoint atmega644). reflexivity.
Defined.

(** ** The context switch macros *)

Section context_switch.

Lemma u16_small z : 0 <= z < 65536 -> u16 z = z.
Proof. intros Hz. unfold u16. apply Z.mod_small. exact Hz. Qed.

Lemma u8_small z : 0 <= z < 256 -> u8 z = z.
Proof. intros Hz. unfold u8. apply Z.mod_small. exact Hz. Qed.

Lemma upd_eq k v f : upd k v f k = v.
Proof. unfold upd. rewrite Z.eqb_refl. reflexivity. Qed.

Lemma upd_ne k v f x : x <> k -> upd k v f x = f x.
Proof. unfold upd. intros Hx. destruct (Z.eqb_spec x k); [contradiction|reflexivity]. Qed.

Lemma run_app p q m : run (p ++ q) m = run q (run p m).
Proof. unfold run. apply fold_left_app. Qed.

(** A run of pushes lays the registers down from SP downwards and changes
    nothing else. *)
Lemma run_pushes rs : forall m,
  Z.of_nat (length rs) <= SP m < 65536 ->
  SP (run (map push rs) m) = SP m - Z.of_nat (length rs) /\
  regs (run (map push rs) m) = regs m /\
  SREG (run (map push rs) m) = SREG m /\
  PC (run (map push rs) m) = PC m /\
  (forall (i : nat) r, rs !! i = Some r ->
     mem (run (map push rs) m) (SP m - Z.of_nat i) = regs m r) /\
  (forall a, ~ (SP m - Z.of_nat (length rs) < a <= SP m) ->
     mem (run (map push rs) m) a = mem m a).
Proof.
  induction rs as [|r rs IH]; intros m Hsp.
  - simpl. repeat split; try lia.
    intros i r Hi. destruct i; discriminate.
  - change (run (map push (r :: rs)) m) with (run (map push rs) (exec (push r) m)).
    set (m1 := exec (push r) m).
    assert (Hsp1 : SP m1 = SP m - 1).
    { subst m1. simpl. apply u16_small. simpl length in Hsp. lia. }
    destruct (IH m1) as (Hs & Hr & Hf & Hp & Hin & Hout).
    { rewrite Hsp1. simpl length in Hsp. lia. }
    simpl length. repeat split.
    + rewrite Hs, Hsp1. lia.
    + rewrite Hr. reflexivity.
    + rewrite Hf. reflexivity.
    + rewrite Hp. reflexivity.
    + intros i r' Hi. destruct i as [|i].
      * simpl in Hi. injection Hi as <-.
        rewrite Hout by (rewrite Hsp1; simpl; lia).
        subst m1. simpl. rewrite Z.sub_0_r. apply upd_eq.
      * simpl in Hi. specialize (Hin i r' Hi).
        rewrite Hsp1 in Hin. replace (SP m - Z.of_nat (S i)) with (SP m - 1 - Z.of_nat i) by lia.
        rewrite Hin. reflexivity.
    + intros a Ha. rewrite Hout by (rewrite Hsp1; lia).
      subst m1. simpl. apply upd_ne. lia.
Qed.

(** A run of pops into pairwise different registers loads them from SP+1
    upwards and changes nothing else. *)
Lemma run_pops rs : forall m,
  NoDup rs -> 0 <= SP m -> SP m + Z.of_nat (length rs) < 65536 ->
  SP (run (map pop rs) m) = SP m + Z.of_nat (length rs) /\
  mem (run (map pop rs) m) = mem m /\
  SREG (run (map pop rs) m) = SREG m /\
  PC (run (map pop rs) m) = PC m /\
  (forall (i : nat) r, rs !! i = Some r ->
     regs (run (map pop rs) m) r = mem m (SP m + 1 + Z.of_nat i)) /\
  (forall r, r ∉ rs -> regs (run (map pop rs) m) r = regs m r).
Proof.
  induction rs as [|r rs IH]; intros m Hnd Hlo Hhi.
  - simpl. repeat split; try lia.
    intros i r Hi. destruct i; discriminate.
  - change (run (map pop (r :: rs)) m) with (run (map pop rs) (exec (pop r) m)).
    set (m1 := exec (pop r) m).
    simpl length in *.
    assert (Hsp1 : SP m1 = SP m + 1).
    { subst m1. simpl. apply u16_small. lia. }
    apply NoDup_cons in Hnd as [Hr Hnd].
    destruct (IH m1 Hnd) as (Hs & Hm & Hf & Hp & Hin & Hout).
    { rewrite Hsp1. lia. }
    { rewrite Hsp1. lia. }
    repeat split.
    + rewrite Hs, Hsp1. lia.
    + rewrite Hm. reflexivity.
    + rewrite Hf. reflexivity.
    + rewrite Hp. reflexivity.
    + intros i r' Hi. destruct i as [|i].
      * simpl in Hi. injection Hi as <-.
        rewrite (Hout r Hr). subst m1. simpl.
        rewrite upd_eq, u16_small by lia. f_equal. lia.
      * simpl in Hi. rewrite (Hin i r' Hi), Hsp1.
        subst m1. simpl. f_equal. lia.
    + intros r' Hr'. apply not_elem_of_cons in Hr' as [Hne Hr'].
      rewrite (Hout r' Hr'). subst m1. simpl. apply upd_ne. exact Hne.
Qed.

Lemma saveContext_blocks :
  saveContext = [push 31; in_SREG 31; cli] ++ map push save_block ++ [clr 1; push 0].
Proof. reflexivity. Qed.

Lemma restoreContext_blocks :
  restoreContext = map pop restore_block ++ [out_SREG 31; pop 31; reti].
Proof. reflexivity. Qed.

Lemma restoreContext_pops_blocks :
  restoreContext_pops = map pop restore_block ++ [out_SREG 31; pop 31].
Proof. reflexivity. Qed.

Lemma save_block_lookup (j : nat) :
  (j < 31)%nat -> save_block !! j = Some (31 - Z.of_nat j).
Proof.
  intros Hj. unfold save_block. rewrite list_lookup_fmap, lookup_seq_lt by exact Hj.
  reflexivity.
Qed.

Lemma restore_block_lookup (j : nat) :
  (j < 32)%nat -> restore_block !! j = Some (Z.of_nat j).
Proof.
  intros Hj. unfold restore_block. apply lookup_seqZ. lia.
Qed.

Lemma save_prologue m :
  1 <= SP m < 65536 ->
  SP (run [push 31; in_SREG 31; cli] m) = SP m - 1 /\
  regs (run [push 31; in_SREG 31; cli] m) = upd 31 (SREG m) (regs m) /\
  SREG (run [push 31; in_SREG 31; cli] m) = Z.clearbit (SREG m) SREG_I /\
  PC (run [push 31; in_SREG 31; cli] m) = PC m /\
  mem (run [push 31; in_SREG 31; cli] m) = upd (SP m) (regs m 31) (mem m).
Proof.
  intros Hsp. unfold run. cbn [fold_left exec SP mem regs SREG PC].
  rewrite u16_small by lia. repeat apply conj; reflexivity.
Qed.

(** What [saveContext] leaves behind: the frame, the moved stack pointer
    and the three registers it overwrites. *)
Lemma saveContext_spec m :
  33 <= SP m < 65536 ->
  SP (run saveContext m) = SP m - 33 /\
  mem (run saveContext m) (SP m) = regs m 31 /\
  mem (run saveContext m) (SP m - 1) = SREG m /\
  (forall k, 0 <= k <= 30 -> mem (run saveContext m) (SP m - 32 + k) = regs m k) /\
  (forall a, ~ (SP m - 33 < a <= SP m) -> mem (run saveContext m) a = mem m a) /\
  regs (run saveContext m) 31 = SREG m /\
  regs (run saveContext m) 1 = 0 /\
  (forall k, k <> 1 -> k <> 31 -> regs (run saveContext m) k = regs m k) /\
  Z.testbit (SREG (run saveContext m)) SREG_I = false /\
  PC (run saveContext m) = PC m.
Proof.
  intros Hsp. rewrite saveContext_blocks, !run_app.
  destruct (save_prologue m) as (Hsp3 & Hr3 & Hf3 & Hp3 & Hm3); [lia|].
  revert Hsp3 Hr3 Hf3 Hp3 Hm3.
  generalize (run [push 31; in_SREG 31; cli] m). intros m3 Hsp3 Hr3 Hf3 Hp3 Hm3.
  assert (Hlen : length save_block = 31%nat) by reflexivity.
  destruct (run_pushes save_block m3) as (Hs & Hr & Hf & Hp & Hin & Hout).
  { rewrite Hsp3, Hlen. lia. }
  revert Hs Hr Hf Hp Hin Hout. rewrite Hlen, Hsp3, Hr3, Hf3, Hp3, Hm3.
  generalize (run (map push save_block) m3). intros m4 Hs Hr Hf Hp Hin Hout.
  assert (Hmem4 : forall a, a <> SP m -> ~ (SP m - 32 < a <= SP m - 1) ->
                            mem m4 a = mem m a).
  { intros a Ha1 Ha2. rewrite Hout by lia. apply upd_ne. exact Ha1. }
  unfold run. cbn [fold_left exec SP mem regs SREG PC]. rewrite Hr, Hf, Hp, Hs.
  repeat apply conj.
  - rewrite u16_small; lia.
  - rewrite upd_ne by lia. rewrite Hout by lia. apply upd_eq.
  - rewrite upd_ne by lia. specialize (Hin 0%nat 31 eq_refl).
    rewrite Z.sub_0_r in Hin. rewrite Hin. apply upd_eq.
  - intros k Hk. destruct (Z.eq_dec k 0) as [->|Hk0].
    + rewrite Z.add_0_r. replace (SP m - 32) with (SP m - 1 - Z.of_nat 31) by lia.
      rewrite upd_eq, !upd_ne by lia. reflexivity.
    + rewrite upd_ne by lia.
      replace (SP m - 32 + k) with (SP m - 1 - Z.of_nat (Z.to_nat (31 - k))) by lia.
      rewrite (Hin (Z.to_nat (31 - k)) k).
      * apply upd_ne. lia.
      * rewrite save_block_lookup by lia. f_equal. lia.
  - intros a Ha. rewrite upd_ne by lia. apply Hmem4; lia.
  - rewrite upd_ne by lia. apply upd_eq.
  - apply upd_eq.
  - intros k Hk1 Hk31. rewrite !upd_ne by assumption. reflexivity.
  - unfold SREG_Z, SREG_N, SREG_V, SREG_S, SREG_I.
    rewrite Z.setbit_neq, !Z.clearbit_neq, Z.clearbit_eq by lia. reflexivity.
  - reflexivity.
Qed.

Lemma restoreContext_reti : restoreContext = restoreContext_pops ++ [reti].
Proof. reflexivity. Qed.

(** What the pops and the [out] of [restoreContext] load from a frame. *)
Lemma restoreContext_pops_spec m :
  0 <= SP m -> SP m + 33 < 65536 ->
  (forall k, 0 <= k <= 30 ->
     regs (run restoreContext_pops m) k = mem m (SP m + 1 + k)) /\
  regs (run restoreContext_pops m) 31 = mem m (SP m + 33) /\
  SREG (run restoreContext_pops m) = mem m (SP m + 32) /\
  SP (run restoreContext_pops m) = SP m + 33 /\
  PC (run restoreContext_pops m) = PC m /\
  mem (run restoreContext_pops m) = mem m.
Proof.
  intros Hlo Hhi. rewrite restoreContext_pops_blocks, run_app.
  assert (Hlen : length restore_block = 32%nat) by reflexivity.
  destruct (run_pops restore_block m) as (Hs & Hm & Hf & Hp & Hin & _).
  { apply NoDup_seqZ. }
  { exact Hlo. }
  { rewrite Hlen. lia. }
  revert Hs Hm Hf Hp Hin. rewrite Hlen.
  generalize (run (map pop restore_block) m). intros m5 Hs Hm Hf Hp Hin.
  unfold run. cbn [fold_left exec SP mem regs SREG PC].
  rewrite Hs, Hm, Hp, u16_small by lia.
  repeat apply conj.
  - intros k Hk. rewrite upd_ne by lia.
    rewrite (Hin (Z.to_nat k) k) by (rewrite restore_block_lookup by lia; f_equal; lia).
    f_equal. lia.
  - rewrite upd_eq. f_equal. lia.
  - rewrite (Hin 31%nat 31) by reflexivity. f_equal. lia.
  - lia.
  - reflexivity.
  - reflexivity.
Qed.

(** The closing [reti] takes the return address from the two bytes under
    the frame and sets the I flag. *)
Lemma restoreContext_spec m :
  0 <= SP m -> SP m + 35 < 65536 ->
  (forall k, 0 <= k <= 30 ->
     regs (run restoreContext m) k = mem m (SP m + 1 + k)) /\
  regs (run restoreContext m) 31 = mem m (SP m + 33) /\
  SREG (run restoreContext m) = Z.setbit (mem m (SP m + 32)) SREG_I /\
  SP (run restoreContext m) = SP m + 35 /\
  PC (run restoreContext m) = mem m (SP m + 34) * 256 + mem m (SP m + 35) /\
  mem (run restoreContext m) = mem m.
Proof.
  intros Hlo Hhi. rewrite restoreContext_reti, run_app.
  destruct (restoreContext_pops_spec m) as (Hk & H31 & Hf & Hs & Hp & Hm); [lia..|].
  revert Hk H31 Hf Hs Hp Hm.
  generalize (run restoreContext_pops m). intros m6 Hk H31 Hf Hs Hp Hm.
  unfold run. cbn [fold_left exec SP mem regs SREG PC].
  rewrite Hs, Hm, Hf, !u16_small by lia.
  repeat apply conj; try assumption; try reflexivity.
  - lia.
  - f_equal; [f_equal|]; f_equal; lia.
Qed.
End context_switch.

(** C4 (as amended): [saveContext] pushes 33 bytes in a fixed order: r31
    first, then the status byte exactly as it was before the [cli] (it is
    read into r31 before the [cli] and pushed once), then r30 down to r0,
    r1 with the value it had before it is cleared.  The stack pointer ends
    33 lower, the I flag is clear, r1 is 0, r31 holds the status byte, and
    no byte outside the frame is written. *)
Theorem saveContext_frame_layout (m : machine) :
  33 <= SP m < 65536 ->
  SP (run saveContext m) = SP m - 33 /\
  mem (run saveContext m) (SP m) = regs m 31 /\
  mem (run saveContext m) (SP m - 1) = SREG m /\
  (forall k, 0 <= k <= 30 -> mem (run saveContext m) (SP m - 32 + k) = regs m k) /\
  (forall a, ~ (SP m - 33 < a <= SP m) -> mem (run saveContext m) a = mem m a) /\
  Z.testbit (SREG (run saveContext m)) SREG_I = false /\
  regs (run saveContext m) 1 = 0 /\
  regs (run saveContext m) 31 = SREG m.
Proof.
  intros Hsp.
  destruct (saveContext_spec m Hsp) as (H1 & H2 & H3 & H4 & H5 & H6 & H7 & _ & H9 & _).
  repeat apply conj; assumption.
Qed.

Lemma saveContext_frame_layout_witness :
  33 <= SP sample_machine < 65536 /\
  SP (run saveContext sample_machine) = SP sample_machine - 33 /\
  mem (run saveContext sample_machine) (SP sample_machine) = regs sample_machine 31 /\
  mem (run saveContext sample_machine) (SP sample_machine - 1) = SREG sample_machine.
Proof.
  assert (H : 33 <= SP sample_machine < 65536) by (simpl; lia).
  split; [exact H|].
  destruct (saveContext_frame_layout sample_machine H) as (H1 & H2 & H3 & _).
  repeat apply conj; assumption.
Defined.

(** C4, the claim as worded fails: on [sample_machine] the first byte pushed
    is r31 (42), not the status byte (0x82), and the second is the status
    byte with the I flag still set (0x82), not the cleared one (0x02). *)
Lemma saveContext_pushes_status_once :
  mem (run saveContext sample_machine) (SP sample_machine) = 42 /\
  mem (run saveContext sample_machine) (SP sample_machine - 1) = 130 /\
  SREG sample_machine = 130 /\
  Z.clearbit (SREG sample_machine) SREG_I = 2 /\
  ~ status_pushed_twice sample_machine.
Proof.
  repeat apply conj; try (vm_compute; reflexivity).
  intros [H _]. vm_compute in H. discriminate H.
Qed.

(** C5 (as amended): on the frame [saveContext] laid down, the 33 pops and
    the [out] of [restoreContext] bring every general register, the status
    byte and the stack pointer back to their values before the save; the
    closing [reti] then also pops the two-byte return address lying under
    the frame into the program counter, so the stack pointer ends two above
    its value before the save, and sets the I flag of the restored status
    byte.  Memory outside the frame is as before. *)
Theorem restoreContext_after_saveContext (m : machine) :
  frame_fits m ->
  ((forall r, 0 <= r < 32 ->
      regs (run restoreContext_pops (run saveContext m)) r = regs m r) /\
   SREG (run restoreContext_pops (run saveContext m)) = SREG m /\
   SP (run restoreContext_pops (run saveContext m)) = SP m) /\
  ((forall r, 0 <= r < 32 ->
      regs (run restoreContext (run saveContext m)) r = regs m r) /\
   SREG (run restoreContext (run saveContext m)) = Z.setbit (SREG m) SREG_I /\
   SP (run restoreContext (run saveContext m)) = SP m + 2 /\
   PC (run restoreContext (run saveContext m)) =
     mem m (SP m + 1) * 256 + mem m (SP m + 2) /\
   (forall a, ~ (SP m - 33 < a <= SP m) ->
      mem (run restoreContext (run saveContext m)) a = mem m a)).
Proof.
  intros [Hlo Hhi].
  destruct (saveContext_spec m) as (Hs & H31 & Hf & Hk & Hout & _); [lia|].
  destruct (restoreContext_pops_spec (run saveContext m))
    as (Pk & P31 & Pf & Ps & _ & _); [rewrite Hs; lia..|].
  destruct (restoreContext_spec (run saveContext m))
    as (Rk & R31 & Rf & Rs & Rp & Rm); [rewrite Hs; lia..|].
  revert Pk P31 Pf Ps Rk R31 Rf Rs Rp Rm. rewrite Hs.
  intros Pk P31 Pf Ps Rk R31 Rf Rs Rp Rm.
  assert (Hreg : forall r, 0 <= r <= 30 ->
            mem (run saveContext m) (SP m - 33 + 1 + r) = regs m r).
  { intros r Hr. replace (SP m - 33 + 1 + r) with (SP m - 32 + r) by lia.
    apply Hk. exact Hr. }
  assert (Hr31 : mem (run saveContext m) (SP m - 33 + 33) = regs m 31).
  { replace (SP m - 33 + 33) with (SP m) by lia. exact H31. }
  assert (Hsreg : mem (run saveContext m) (SP m - 33 + 32) = SREG m).
  { replace (SP m - 33 + 32) with (SP m - 1) by lia. exact Hf. }
  split; repeat apply conj.
  - intros r Hr. destruct (Z.eq_dec r 31) as [->|Hne].
    + rewrite P31. exact Hr31.
    + rewrite Pk by lia. apply Hreg. lia.
  - rewrite Pf. exact Hsreg.
  - rewrite Ps. lia.
  - intros r Hr. destruct (Z.eq_dec r 31) as [->|Hne].
    + rewrite R31. exact Hr31.
    + rewrite Rk by lia. apply Hreg. lia.
  - rewrite Rf, Hsreg. reflexivity.
  - rewrite Rs. lia.
  - rewrite Rp, !Hout by lia. f_equal; [f_equal|]; f_equal; lia.
  - intros a Ha. rewrite Rm. apply Hout. exact Ha.
Qed.

Lemma restoreContext_after_saveContext_witness :
  frame_fits isr_entry_machine /\
  SREG (run restoreContext_pops (run saveContext isr_entry_machine)) = SREG isr_entry_machine /\
  SP (run restoreContext_pops (run saveContext isr_entry_machine)) = SP isr_entry_machine /\
  SREG (run restoreContext (run saveContext isr_entry_machine)) =
    Z.setbit (SREG isr_entry_machine) SREG_I /\
  SP (run restoreContext (run saveContext isr_entry_machine)) = SP isr_entry_machine + 2.
Proof.
  assert (H : frame_fits isr_entry_machine) by (unfold frame_fits; simpl; lia).
  split; [exact H|].
  destruct (restoreContext_after_saveContext isr_entry_machine H)
    as ((_ & H1 & H2) & (_ & H3 & H4 & _)).
  repeat apply conj; assumption.
Defined.

(** C5, the claim as worded fails: started at the entry of an interrupt
    service routine (I flag clear), the save followed by the whole of
    [restoreContext] ends with the stack pointer two above its value before
    the save and with the I flag set in the status byte. *)
Lemma restoreContext_is_not_identity :
  SP isr_entry_machine = 0x10FD /\
  SP (run restoreContext (run saveContext isr_entry_machine)) = 0x10FF /\
  SREG isr_entry_machine = 0x02 /\
  SREG (run restoreContext (run saveContext isr_entry_machine)) = 0x82 /\
  ~ context_round_trip isr_entry_machine.
Proof.
  repeat apply conj; try (vm_compute; reflexivity).
  intros (_ & H & _). vm_compute in H. discriminate H.
Qed.


(** ** os_isRunnable *)

(** C7: for every process record [p] (at any non-null address),
    [os_isRunnable] returns true if and only if [p]'s state is
    [OS_PS_READY] or [OS_PS_RUNNING]. *)
Theorem os_isRunnable_ready_or_running
    (ram : gmap Z os_process.Process) (process : Z) (p : os_process.Process) :
  process <> NULL ->
  ram !! process = Some p ->
  exists b : bool,
    os_process.os_isRunnable ram process = Some b /\
    (b = true <->
     os_process.state p = os_process.OS_PS_READY \/
     os_process.state p = os_process.OS_PS_RUNNING).
Proof.
  intros Hnn Hp. unfold os_process.os_isRunnable, os_process.deref.
  destruct (Z.eqb_spec process NULL) as [->|_]; [contradiction|].
  cbn [negb]. rewrite Hp. cbn.
  destruct (os_process.state p) eqn:Hs; cbn;
    (eexists; split; [reflexivity|]); split; intros H;
    try discriminate; try reflexivity; try (left; reflexivity);
    try (right; reflexivity); destruct H; discriminate.
Qed.

Lemma os_isRunnable_ready_or_running_witness :
  (16 : Z) <> NULL /\
  exists b : bool,
    os_process.os_isRunnable
      {[ 16 := {| os_process.state := os_process.OS_PS_READY; os_process.program := 2;
                  os_process.priority := 2; os_process.sp := 4000;
                  os_process.checksum := 0 |} ]} 16 = Some b /\
    (b = true <->
     os_process.OS_PS_READY = os_process.OS_PS_READY \/
     os_process.OS_PS_READY = os_process.OS_PS_RUNNING).
Proof.
  assert (H : (16 : Z) <> NULL) by (unfold NULL; lia).
  split; [exact H|].
  exact (os_isRunnable_ready_or_running _ 16 _ H (lookup_singleton_eq 16 _)).
Defined.

(** C10: [os_isRunnable] is defined on the null pointer, whatever memory
    holds: it returns false, and it does so without reading through the
    pointer (a read through the null pointer has no result in the model). *)
Theorem os_isRunnable_NULL (ram : gmap Z os_process.Process) :
  os_process.os_isRunnable ram NULL = Some false /\
  os_process.deref ram NULL = None.
Proof. split; reflexivity. Qed.


(** ** The autostart list *)

Section autostart_list.
Import autostart.

Lemma chain_programs h l : forall p,
  chain h l p -> autostart_programs (length l) h p = Some (l.*2).
Proof.
  induction l as [|r l IH]; intros p Hc; simpl in Hc.
  - subst p. reflexivity.
  - destruct Hc as (-> & Hnn & nx & Hn & Hc).
    cbn [length autostart_programs].
    destruct (Z.eqb_spec r.1 NULL) as [E|_]; [contradiction|].
    rewrite Hn. cbn. rewrite (IH nx Hc). reflexivity.
Qed.

(** Writing the [next] field of a node outside a chain leaves the chain as
    it is. *)
Lemma chain_alter_fresh h f a l : forall p,
  a ∉ l.*1 -> chain h l p -> chain (alter f a h) l p.
Proof.
  induction l as [|r l IH]; intros p Ha Hc; simpl in *.
  - exact Hc.
  - apply not_elem_of_cons in Ha as [Hne Ha].
    destruct Hc as (-> & Hnn & nx & Hn & Hc).
    split; [reflexivity|]. split; [exact Hnn|].
    exists nx. split.
    + rewrite lookup_alter_ne by congruence. exact Hn.
    + apply IH; assumption.
Qed.

(** One constructor prepends exactly one node: its own. *)
Lemma register_autostart_prepends s l a p nx :
  chain (nodes s) l (autostart_head s) ->
  a <> NULL -> a ∉ l.*1 ->
  nodes s !! a = Some {| program := p; next := nx |} ->
  chain (nodes (register_autostart a s)) ((a, p) :: l)
        (autostart_head (register_autostart a s)).
Proof.
  intros Hc Hnn Ha Hn. cbn [register_autostart nodes autostart_head chain fst snd].
  split; [reflexivity|]. split; [exact Hnn|].
  exists (autostart_head s). split.
  - rewrite lookup_alter_eq, Hn. reflexivity.
  - apply chain_alter_fresh; assumption.
Qed.

Lemma register_autostart_other s a b :
  a <> b -> forall p, (exists nx, nodes s !! b = Some {| program := p; next := nx |}) ->
  exists nx, nodes (register_autostart a s) !! b = Some {| program := p; next := nx |}.
Proof.
  intros Hab p [nx Hn]. exists nx. cbn [register_autostart nodes].
  rewrite lookup_alter_ne by exact Hab. exact Hn.
Qed.

Lemma run_constructors_chain todo : forall s l,
  chain (nodes s) l (autostart_head s) ->
  NoDup (todo.*1) -> NULL ∉ (todo.*1) ->
  (forall a, a ∈ todo.*1 -> a ∉ l.*1) ->
  (forall r, r ∈ todo -> exists nx, nodes s !! r.1 = Some {| program := r.2; next := nx |}) ->
  chain (nodes (run_constructors (todo.*1) s)) (reverse todo ++ l)
        (autostart_head (run_constructors (todo.*1) s)).
Proof.
  induction todo as [|[a p] todo IH]; intros s l Hc Hnd Hnull Hfresh Hnodes.
  - exact Hc.
  - rewrite fmap_cons in *. cbn [fst] in *.
    apply NoDup_cons in Hnd as [Ha Hnd].
    apply not_elem_of_cons in Hnull as [Hnn Hnull].
    destruct (Hnodes (a, p)) as [nx Hn]; [left|]. cbn [fst snd] in Hn.
    change (run_constructors (a :: todo.*1) s)
      with (run_constructors (todo.*1) (register_autostart a s)).
    rewrite reverse_cons, <- app_assoc. cbn [app].
    apply IH.
    + apply (register_autostart_prepends s l a p nx); auto.
      apply Hfresh. left.
    + exact Hnd.
    + exact Hnull.
    + intros b Hb Hin. apply elem_of_cons in Hin as [->|Hin].
      * contradiction.
      * apply (Hfresh b); [right; exact Hb|exact Hin].
    + intros r Hr. apply register_autostart_other.
      * intros ->. apply Ha. apply list_elem_of_fmap. exists r. split; [reflexivity|exact Hr].
      * apply Hnodes. right. exact Hr.
Qed.

Lemma load_image_nodes rs r :
  NoDup (rs.*1) -> r ∈ rs ->
  nodes (load_image rs) !! r.1 = Some {| program := r.2; next := NULL |}.
Proof.
  intros Hnd Hr. cbn [load_image nodes].
  apply (elem_of_list_to_map_1 (static_node <$> rs) r.1).
  - rewrite <- list_fmap_compose. exact Hnd.
  - apply list_elem_of_fmap. exists r. split; [reflexivity|exact Hr].
Qed.
Lemma chain_head h l p : chain h l p -> p = default NULL (head (l.*1)).
Proof.
  destruct l as [|r l]; simpl.
  - intros ->. reflexivity.
  - intros (-> & _). reflexivity.
Qed.

Lemma run_constructors_prefix rs k :
  NoDup (rs.*1) -> NULL ∉ (rs.*1) ->
  chain (nodes (run_constructors ((take k rs).*1) (load_image rs)))
        (reverse (take k rs))
        (autostart_head (run_constructors ((take k rs).*1) (load_image rs))).
Proof.
  intros Hnd Hnull.
  rewrite <- (app_nil_r (reverse (take k rs))).
  apply run_constructors_chain.
  - reflexivity.
  - rewrite fmap_take. apply (sublist_NoDup _ (rs.*1)); [exact Hnd|apply sublist_take].
  - rewrite fmap_take. intros Hin. apply Hnull. apply (subseteq_take k). exact Hin.
  - intros a _ Hin. simpl in Hin. apply elem_of_nil in Hin. exact Hin.
  - intros r Hr. exists NULL. apply load_image_nodes; [exact Hnd|].
    apply (subseteq_take k). exact Hr.
Qed.
End autostart_list.

(** C9: [autostart_head] is initially [NULL], every constructor prepends
    exactly one node (after the first [k] constructors the list holds the
    programs of the first [k] registrations, the latest first), so when all
    constructors have run the list holds exactly the registered programs in
    reverse order of constructor execution, and [autostart_head] is the
    node of the program registered last. *)
Theorem autostart_list_reverse_order (rs : list autostart.registration) :
  NoDup (rs.*1) -> NULL ∉ (rs.*1) ->
  autostart.autostart_head (autostart.load_image rs) = NULL /\
  (forall k : nat, (k <= length rs)%nat ->
     autostart.autostart_programs k
       (autostart.nodes (autostart.run_constructors ((take k rs).*1) (autostart.load_image rs)))
       (autostart.autostart_head
          (autostart.run_constructors ((take k rs).*1) (autostart.load_image rs)))
     = Some (reverse ((take k rs).*2))) /\
  autostart.autostart_programs (length rs)
    (autostart.nodes (autostart.run_constructors (rs.*1) (autostart.load_image rs)))
    (autostart.autostart_head (autostart.run_constructors (rs.*1) (autostart.load_image rs)))
  = Some (reverse (rs.*2)) /\
  autostart.autostart_head (autostart.run_constructors (rs.*1) (autostart.load_image rs))
  = default NULL (last (rs.*1)).
Proof.
  intros Hnd Hnull.
  assert (Hk : forall k : nat, (k <= length rs)%nat ->
     autostart.autostart_programs k
       (autostart.nodes (autostart.run_constructors ((take k rs).*1) (autostart.load_image rs)))
       (autostart.autostart_head
          (autostart.run_constructors ((take k rs).*1) (autostart.load_image rs)))
     = Some (reverse ((take k rs).*2))).
  { intros k Hle.
    pose proof (chain_programs _ _ _ (run_constructors_prefix rs k Hnd Hnull)) as H.
    rewrite length_reverse, length_take_le, fmap_reverse in H by exact Hle.
    exact H. }
  split; [reflexivity|]. split; [exact Hk|].
  pose proof (Hk (length rs) (le_n _)) as Hall.
  pose proof (chain_head _ _ _ (run_constructors_prefix rs (length rs) Hnd Hnull)) as Hhead.
  rewrite fmap_reverse, head_reverse in Hhead.
  rewrite take_ge in Hall, Hhead by reflexivity.
  split; assumption.
Qed.

Lemma autostart_list_reverse_order_witness :
  NoDup ([(0x0200, 0x0A00); (0x0204, 0x0A10); (0x0208, 0x0A20); (0x020C, 0x0A30)].*1) /\
  (NULL ∉ ([(0x0200, 0x0A00); (0x0204, 0x0A10); (0x0208, 0x0A20); (0x020C, 0x0A30)].*1)) /\
  autostart.autostart_programs 4
    (autostart.nodes
       (autostart.run_constructors [0x0200; 0x0204; 0x0208; 0x020C]
          (autostart.load_image
             [(0x0200, 0x0A00); (0x0204, 0x0A10); (0x0208, 0x0A20); (0x020C, 0x0A30)])))
    (autostart.autostart_head
       (autostart.run_constructors [0x0200; 0x0204; 0x0208; 0x020C]
          (autostart.load_image
             [(0x0200, 0x0A00); (0x0204, 0x0A10); (0x0208, 0x0A20); (0x020C, 0x0A30)])))
  = Some [0x0A30; 0x0A20; 0x0A10; 0x0A00].
Proof.
  assert (H1 : NoDup ([(0x0200, 0x0A00); (0x0204, 0x0A10); (0x0208, 0x0A20);
                        (0x020C, 0x0A30)].*1)) by compute_done.
  assert (H2 : NULL ∉ ([(0x0200, 0x0A00); (0x0204, 0x0A10); (0x0208, 0x0A20);
                        (0x020C, 0x0A30)].*1)) by compute_done.
  split; [exact H1|]. split; [exact H2|].
  exact (proj1 (proj2 (proj2 (autostart_list_reverse_order _ H1 H2)))).
Defined.


(** ** os_init_timer *)

Section timer.
Import os_core.
Context {io : avr_io}.

Lemma gbi_testbit x b : 0 <= b -> gbi x b = Z.b2z (Z.testbit x b).
Proof.
  intros Hb. unfold gbi. change 1 with (Z.ones 1).
  rewrite Z.land_ones by lia. change (2 ^ 1) with 2.
  rewrite <- Z.bit0_mod, Z.shiftr_spec by lia. reflexivity.
Qed.

Lemma testbit_u8 x c : 0 <= c < 8 -> Z.testbit (u8 x) c = Z.testbit x c.
Proof.
  intros Hc. unfold u8. change 256 with (2 ^ 8).
  apply Z.mod_pow2_bits_low. lia.
Qed.

Lemma testbit_sbi x b c :
  0 <= b -> 0 <= c < 8 -> Z.testbit (sbi x b) c = Z.testbit x c || (b =? c).
Proof.
  intros Hb Hc. unfold sbi.
  rewrite testbit_u8, Z.lor_spec, Z.shiftl_1_l, Z.pow2_bits_eqb by lia.
  reflexivity.
Qed.

Lemma gbi_sbi_same x b : 0 <= b < 8 -> gbi (sbi x b) b = 1.
Proof.
  intros Hb. rewrite gbi_testbit, testbit_sbi, Z.eqb_refl, orb_true_r by lia.
  reflexivity.
Qed.

Lemma gbi_sbi_keeps x b c : 0 <= b -> 0 <= c < 8 -> gbi x c = 1 -> gbi (sbi x b) c = 1.
Proof.
  intros Hb Hc. rewrite !gbi_testbit, testbit_sbi by lia.
  destruct (Z.testbit x c); [reflexivity|discriminate].
Qed.

Lemma gbi_sbi_other x b c :
  0 <= b -> 0 <= c < 8 -> c <> b -> gbi (sbi x b) c = gbi x c.
Proof.
  intros Hb Hc Hne. rewrite !gbi_testbit, testbit_sbi by lia.
  destruct (Z.eqb_spec b c) as [->|_]; [contradiction|].
  rewrite orb_false_r. reflexivity.
Qed.

Lemma gbi_reset b : gbi 0 b = 0.
Proof. unfold gbi. rewrite Z.shiftr_0_l. reflexivity. Qed.

(** The timer 2 registers after [os_init_timer], bit by bit. *)
Lemma os_init_timer_bits (r : io_registers) :
  timer2_bits_wf ->
  gbi (TCCR2A (os_init_timer r)) WGM21 = 1 /\
  gbi (TCCR2A (os_init_timer r)) WGM20 = gbi (TCCR2A r) WGM20 /\
  gbi (TCCR2B (os_init_timer r)) WGM22 = gbi (TCCR2B r) WGM22 /\
  gbi (TCCR2B (os_init_timer r)) CS22 = 1 /\
  gbi (TCCR2B (os_init_timer r)) CS21 = 1 /\
  gbi (TCCR2B (os_init_timer r)) CS20 = 1 /\
  gbi (TIMSK2 (os_init_timer r)) OCIE2A = 1 /\
  OCR2A (os_init_timer r) = 60.
Proof.
  intros ((Hw0 & Hw1 & Hw2) & (Hc2 & Hc1 & Hc0) & Ho & Hne & Hn2 & Hn1 & Hn0).
  unfold os_init_timer.
  cbn [TCCR2A TCCR2B TIMSK2 OCR2A set_TCCR2A set_TCCR2B set_TIMSK2 set_OCR2A
       set_TCCR0B set_TIMSK0].
  repeat apply conj.
  - apply gbi_sbi_same. exact Hw1.
  - apply gbi_sbi_other; lia.
  - rewrite !gbi_sbi_other by lia. reflexivity.
  - do 2 (apply gbi_sbi_keeps; [lia|lia|]). apply gbi_sbi_same. exact Hc2.
  - apply gbi_sbi_keeps; [lia|lia|]. apply gbi_sbi_same. exact Hc1.
  - apply gbi_sbi_same. exact Hc0.
  - apply gbi_sbi_same. exact Ho.
  - reflexivity.
Qed.
End timer.

(** C8: [os_init_timer] puts timer 2 into clear-on-compare-match mode (it
    sets WGM21 and leaves WGM22 and WGM20 as they are, so from the reset
    values the mode number is 2), selects the prescaler 1024 (CS22, CS21
    and CS20 all set), sets OCR2A to 60 and enables the compare-match
    interrupt (OCIE2A); with the 20 MHz clock one tick then takes
    1024 * 61 / 20 MHz = 3.1232 ms. *)
Theorem os_init_timer_configures_timer2 {io : avr_io} (r : os_core.io_registers) :
  os_core.timer2_bits_wf ->
  gbi (os_core.TCCR2A (os_core.os_init_timer r)) WGM21 = 1 /\
  os_core.timer2_wgm (os_core.os_init_timer r) =
    4 * gbi (os_core.TCCR2B r) WGM22 + 2 + gbi (os_core.TCCR2A r) WGM20 /\
  os_core.timer2_wgm (os_core.os_init_timer os_core.reset_registers) = os_core.WGM_CTC /\
  (gbi (os_core.TCCR2B (os_core.os_init_timer r)) CS22 = 1 /\
   gbi (os_core.TCCR2B (os_core.os_init_timer r)) CS21 = 1 /\
   gbi (os_core.TCCR2B (os_core.os_init_timer r)) CS20 = 1) /\
  os_core.timer2_prescaler (os_core.timer2_clock_select (os_core.os_init_timer r)) = 1024 /\
  os_core.OCR2A (os_core.os_init_timer r) = 60 /\
  gbi (os_core.TIMSK2 (os_core.os_init_timer r)) OCIE2A = 1 /\
  F_CPU = 20000000 /\
  os_core.tick_period_ns (os_core.os_init_timer r) = 3123200 /\
  3100000 <= os_core.tick_period_ns (os_core.os_init_timer r) < 3200000.
Proof.
  intros Hwf.
  destruct (os_init_timer_bits r Hwf) as (B1 & B2 & B3 & B4 & B5 & B6 & B7 & B8).
  destruct (os_init_timer_bits os_core.reset_registers Hwf) as (Z1 & Z2 & Z3 & _).
  assert (Hper : os_core.tick_period_ns (os_core.os_init_timer r) = 3123200).
  { unfold os_core.tick_period_ns, os_core.timer2_clock_select.
    rewrite B4, B5, B6, B8. reflexivity. }
  repeat apply conj.
  - exact B1.
  - unfold os_core.timer2_wgm. rewrite B1, B2, B3. lia.
  - unfold os_core.timer2_wgm. rewrite Z1, Z2, Z3.
    cbn [os_core.reset_registers os_core.TCCR2A os_core.TCCR2B].
    rewrite !gbi_reset. reflexivity.
  - exact B4.
  - exact B5.
  - exact B6.
  - unfold os_core.timer2_clock_select. rewrite B4, B5, B6. reflexivity.
  - exact B8.
  - exact B7.
  - reflexivity.
  - exact Hper.
  - rewrite Hper. lia.
  - rewrite Hper. lia.
Qed.

Lemma os_init_timer_configures_timer2_witness :
  @os_core.timer2_bits_wf atmega644 /\
  os_core.timer2_wgm (os_core.os_init_timer os_core.reset_registers) = os_core.WGM_CTC /\
  os_core.OCR2A (os_core.os_init_timer os_core.reset_registers) = 60 /\
  os_core.tick_period_ns (os_core.os_init_timer os_core.reset_registers) = 3123200.
Proof.
  assert (H : @os_core.timer2_bits_wf atmega644)
    by (unfold os_core.timer2_bits_wf; cbn; lia).
  split; [exact H|].
  destruct (@os_init_timer_configures_timer2 atmega644 os_core.reset_registers H)
    as (_ & _ & H1 & _ & _ & H2 & _ & _ & H3 & _).
  repeat apply conj; assumption.
Defined.


(** ** os_exec *)

Section exec.
Import os_process os_scheduler.
Context {io : avr_io}.

Lemma first_unused_Some procs : forall pid0 k,
  first_unused procs pid0 = Some k ->
  exists i : nat,
    k = pid0 + Z.of_nat i /\
    (exists p, procs !! i = Some p /\ state p = OS_PS_UNUSED) /\
    (forall (j : nat) q, (j < i)%nat -> procs !! j = Some q -> state q <> OS_PS_UNUSED).
Proof.
  induction procs as [|p procs IH]; intros pid0 k Hk; simpl in Hk.
  - discriminate.
  - destruct (decide (state p = OS_PS_UNUSED)) as [Hu|Hu].
    + injection Hk as <-. exists 0%nat. split; [lia|]. split.
      * exists p. split; [reflexivity|exact Hu].
      * intros j q Hj. lia.
    + destruct (IH _ _ Hk) as (i & -> & Hi & Hlt).
      exists (S i). split; [lia|]. split; [exact Hi|].
      intros [|j] q Hj Hq; simpl in Hq.
      * injection Hq as <-. exact Hu.
      * apply (Hlt j q); [lia|exact Hq].
Qed.

Lemma first_unused_None procs : forall pid0,
  first_unused procs pid0 = None <-> (forall p, p ∈ procs -> state p <> OS_PS_UNUSED).
Proof.
  induction procs as [|p procs IH]; intros pid0; simpl.
  - split; [|reflexivity]. intros _ p Hp. apply elem_of_nil in Hp. contradiction.
  - destruct (decide (state p = OS_PS_UNUSED)) as [Hu|Hu].
    + split; [discriminate|]. intros H. exfalso. apply (H p); [left|exact Hu].
    + rewrite IH. split.
      * intros H q Hq. apply elem_of_cons in Hq as [->|Hq]; [exact Hu|apply H; exact Hq].
      * intros H q Hq. apply H. right. exact Hq.
Qed.

(** Below depth 255 entering the critical section succeeds, and above
    depth 0 leaving it does; neither touches the table or the memory. *)
Lemma enter_Ok s :
  0 <= criticalSectionCount s < 255 ->
  exists s1, os_enterCriticalSection s = Ok s1 /\
    os_processes s1 = os_processes s /\ sram s1 = sram s /\
    age s1 = age s /\ timeSlice s1 = timeSlice s /\
    criticalSectionCount s1 = criticalSectionCount s + 1.
Proof.
  intros Hc. unfold os_enterCriticalSection.
  destruct (Z.eqb_spec (criticalSectionCount s) 255) as [E|_]; [lia|].
  eexists. split; [reflexivity|].
  destruct (criticalSectionCount s =? 0); cbn; rewrite u8_small by lia; auto.
Qed.

Lemma leave_Ok s :
  0 < criticalSectionCount s <= 255 ->
  exists s2, os_leaveCriticalSection s = Ok s2 /\
    os_processes s2 = os_processes s /\ sram s2 = sram s /\
    criticalSectionCount s2 = criticalSectionCount s - 1.
Proof.
  intros Hc. unfold os_leaveCriticalSection.
  destruct (Z.eqb_spec (criticalSectionCount s) 0) as [E|_]; [lia|].
  eexists. split; [reflexivity|].
  match goal with |- context [if ?b then _ else _] => destruct b end;
    cbn; rewrite u8_small by lia; auto.
Qed.

(** Laying a frame down writes its bytes from the bottom downwards and
    nothing else. *)
Lemma lay_frame_spec frame : forall ram bottom,
  (lay_frame ram bottom frame).2 = bottom - Z.of_nat (length frame) /\
  (forall (i : nat) x, frame !! i = Some x ->
     (lay_frame ram bottom frame).1 (bottom - Z.of_nat i) = x) /\
  (forall a, ~ (bottom - Z.of_nat (length frame) < a <= bottom) ->
     (lay_frame ram bottom frame).1 a = ram a).
Proof.
  unfold lay_frame.
  induction frame as [|b frame IH]; intros ram bottom.
  - cbn. repeat apply conj; [lia| |reflexivity].
    intros i x Hi. destruct i; discriminate.
  - cbn [foldl length]. unfold push_byte at 2. cbn [fst snd].
    destruct (IH (upd bottom b ram) (bottom - 1)) as (Hs & Hin & Hout).
    repeat apply conj.
    + rewrite Hs. lia.
    + intros [|i] x Hi; simpl in Hi.
      * injection Hi as <-. rewrite Hout by lia.
        rewrite Z.sub_0_r. apply upd_eq.
      * replace (bottom - Z.of_nat (S i)) with (bottom - 1 - Z.of_nat i) by lia.
        apply Hin. exact Hi.
    + intros a Ha. rewrite Hout by lia. apply upd_ne. lia.
Qed.

(** The initial frame in memory: 35 bytes under the bottom of the stack. *)
Lemma initial_frame_spec ram bottom program :
  (lay_frame ram bottom (initial_frame program)).2 = bottom - 35 /\
  (forall i, 1 <= i <= 33 ->
     (lay_frame ram bottom (initial_frame program)).1 (bottom - 35 + i) = 0) /\
  (lay_frame ram bottom (initial_frame program)).1 (bottom - 35 + 34) = high_byte program /\
  (lay_frame ram bottom (initial_frame program)).1 (bottom - 35 + 35) = low_byte program /\
  (forall a, ~ (bottom - 35 < a <= bottom) ->
     (lay_frame ram bottom (initial_frame program)).1 a = ram a).
Proof.
  destruct (lay_frame_spec (initial_frame program) ram bottom) as (Hs & Hin & Hout).
  change (length (initial_frame program)) with 35%nat in *.
  repeat apply conj.
  - rewrite Hs. lia.
  - intros i Hi.
    replace (bottom - 35 + i) with (bottom - Z.of_nat (2 + Z.to_nat (33 - i))) by lia.
    apply Hin. unfold initial_frame. cbn [app lookup list_lookup plus].
    apply lookup_replicate_2. lia.
  - replace (bottom - 35 + 34) with (bottom - Z.of_nat 1) by lia.
    apply Hin. reflexivity.
  - replace (bottom - 35 + 35) with (bottom - Z.of_nat 0) by lia.
    apply Hin. reflexivity.
  - intros a Ha. apply Hout. lia.
Qed.

(** The three ways through [os_exec]. *)
Lemma os_exec_null s priority :
  scheduler_wf s ->
  exists s', os_exec s NULL priority = Ok (INVALID_PROCESS, s') /\
    os_processes s' = os_processes s /\ sram s' = sram s.
Proof.
  intros [Hlen Hc]. unfold os_exec.
  destruct (enter_Ok s Hc) as (s1 & -> & Hp1 & Hm1 & _ & _ & Hc1).
  cbn [mbind result_bind]. rewrite Z.eqb_refl.
  destruct (leave_Ok s1) as (s2 & -> & Hp2 & Hm2 & _); [lia|].
  cbn [mbind result_bind]. exists s2.
  repeat apply conj; [reflexivity|congruence|congruence].
Qed.

Lemma os_exec_full s program priority :
  scheduler_wf s ->
  first_unused (os_processes s) 0 = None ->
  exists s', os_exec s program priority = Ok (INVALID_PROCESS, s') /\
    os_processes s' = os_processes s /\ sram s' = sram s.
Proof.
  intros [Hlen Hc] Hfull. unfold os_exec.
  destruct (enter_Ok s Hc) as (s1 & -> & Hp1 & Hm1 & _ & _ & Hc1).
  cbn [mbind result_bind].
  destruct (leave_Ok s1) as (s2 & Hl & Hp2 & Hm2 & _); [lia|].
  rewrite Hp1, take_ge, Hfull, Hl by lia.
  destruct (program =? NULL); cbn [mbind result_bind]; exists s2;
    (repeat apply conj; [reflexivity|congruence|congruence]).
Qed.

Lemma os_exec_fresh s program priority pid :
  scheduler_wf s ->
  program <> NULL ->
  first_unused (os_processes s) 0 = Some pid ->
  exists s', os_exec s program priority = Ok (pid, s') /\
    os_processes s' =
      <[Z.to_nat pid :=
          {| state := OS_PS_READY; os_process.program := program;
             os_process.priority := priority;
             sp := PROCESS_STACK_BOTTOM pid - 35;
             checksum :=
               stack_checksum
                 (lay_frame (sram s) (PROCESS_STACK_BOTTOM pid) (initial_frame program)).1
                 (PROCESS_STACK_BOTTOM pid - 35) (PROCESS_STACK_BOTTOM pid) |}]>
        (os_processes s) /\
    sram s' = (lay_frame (sram s) (PROCESS_STACK_BOTTOM pid) (initial_frame program)).1.
Proof.
  intros [Hlen Hc] Hnn Hfree. unfold os_exec.
  destruct (enter_Ok s Hc) as (s1 & -> & Hp1 & Hm1 & Ha1 & Ht1 & Hc1).
  cbn [mbind result_bind].
  destruct (Z.eqb_spec program NULL) as [E|_]; [contradiction|].
  rewrite Hp1, take_ge, Hfree, Hm1 by lia.
  destruct (initial_frame_spec (sram s) (PROCESS_STACK_BOTTOM pid) program) as (Hsp & _).
  destruct (lay_frame (sram s) (PROCESS_STACK_BOTTOM pid) (initial_frame program))
    as [ram sp'] eqn:Hlay.
  cbn [fst snd] in *. subst sp'.
  match goal with |- context [os_leaveCriticalSection ?t] =>
    destruct (leave_Ok t) as (s2 & -> & Hp2 & Hm2 & _); [cbn; lia|] end.
  cbn [mbind result_bind]. exists s2.
  repeat apply conj; [reflexivity| |].
  - rewrite Hp2. cbn. rewrite Hp1. reflexivity.
  - rewrite Hm2. reflexivity.
Qed.
End exec.

(** C1: for every program pointer and priority, [os_exec] returns
    [INVALID_PROCESS] (255) if the program pointer is null or no slot is
    unused; otherwise it returns the smallest process id whose slot was
    unused, which is less than N = 8, and after the call that slot is ready
    and its program field is the argument. *)
Theorem os_exec_slot_choice {io : avr_io}
    (s : os_scheduler.scheduler) (program priority : Z) :
  os_scheduler.scheduler_wf s ->
  exists pid s',
    os_scheduler.os_exec s program priority = os_scheduler.Ok (pid, s') /\
    INVALID_PROCESS = 255 /\ MAX_NUMBER_OF_PROCESSES = 8 /\
    ((program = NULL \/
      (forall p, p ∈ os_scheduler.os_processes s ->
                 os_process.state p <> os_process.OS_PS_UNUSED)) ->
     pid = INVALID_PROCESS) /\
    (program <> NULL ->
     (exists p, p ∈ os_scheduler.os_processes s /\
                os_process.state p = os_process.OS_PS_UNUSED) ->
     0 <= pid < MAX_NUMBER_OF_PROCESSES /\
     (exists p, os_scheduler.os_getProcessSlot s pid = Some p /\
                os_process.state p = os_process.OS_PS_UNUSED) /\
     (forall j q, 0 <= j < pid -> os_scheduler.os_getProcessSlot s j = Some q ->
                  os_process.state q <> os_process.OS_PS_UNUSED) /\
     (exists p', os_scheduler.os_getProcessSlot s' pid = Some p' /\
                 os_process.state p' = os_process.OS_PS_READY /\
                 os_process.program p' = program)).
Proof.
  intros Hwf. pose proof Hwf as [Hlen Hc].
  destruct (Z.eq_dec program NULL) as [->|Hnn].
  { destruct (os_exec_null s priority Hwf) as (s' & He & _).
    exists INVALID_PROCESS, s'. repeat apply conj; try reflexivity; try exact He.
    intros Hne. contradiction. }
  destruct (os_scheduler.first_unused (os_scheduler.os_processes s) 0) as [pid|] eqn:Hf.
  - destruct (os_exec_fresh s program priority pid Hwf Hnn Hf) as (s' & He & Hp & _).
    destruct (first_unused_Some _ _ _ Hf) as (i & -> & (p & Hi & Hu) & Hlt).
    assert (Hil : (i < length (os_scheduler.os_processes s))%nat)
      by (apply lookup_lt_is_Some; eauto).
    exists (0 + Z.of_nat i), s'. repeat apply conj; try reflexivity; try exact He.
    + intros [E|Hall]; [contradiction|].
      exfalso. apply (Hall p); [|exact Hu]. apply list_elem_of_lookup. eauto.
    + intros _ _. unfold os_scheduler.os_getProcessSlot.
      replace (Z.to_nat (0 + Z.of_nat i)) with i by lia.
      repeat apply conj.
      * lia.
      * rewrite Hlen in Hil. lia.
      * exists p. split; assumption.
      * intros j q Hj Hq. apply (Hlt (Z.to_nat j) q); [lia|exact Hq].
      * eexists. rewrite Hp. replace (Z.to_nat (0 + Z.of_nat i)) with i by lia.
        rewrite list_lookup_insert_eq by exact Hil.
        split; [reflexivity|]. split; reflexivity.
  - destruct (os_exec_full s program priority Hwf Hf) as (s' & He & _).
    exists INVALID_PROCESS, s'. repeat apply conj; try reflexivity; try exact He.
    intros _ (p & Hp & Hu). exfalso.
    apply (proj1 (first_unused_None _ _) Hf p Hp Hu).
Qed.

(** C2: when [os_exec(entry, prio)] succeeds on slot [k], the slot's saved
    stack pointer is PROCESS_STACK_BOTTOM(k) - 35, the 33 bytes at
    sp+1 .. sp+33 are zero, the byte at sp+34 is the high byte of the entry
    address and the byte at sp+35 is its low byte; the slot is ready with
    the given program and priority, and no byte outside the frame is
    written. *)
Theorem os_exec_initial_frame {io : avr_io}
    (s : os_scheduler.scheduler) (entry prio : Z) :
  os_scheduler.scheduler_wf s ->
  entry <> NULL ->
  (exists p, p ∈ os_scheduler.os_processes s /\
             os_process.state p = os_process.OS_PS_UNUSED) ->
  exists k s' slot,
    os_scheduler.os_exec s entry prio = os_scheduler.Ok (k, s') /\
    0 <= k < MAX_NUMBER_OF_PROCESSES /\
    os_scheduler.os_getProcessSlot s' k = Some slot /\
    os_process.sp slot = PROCESS_STACK_BOTTOM k - 35 /\
    (forall i, 1 <= i <= 33 -> os_scheduler.sram s' (os_process.sp slot + i) = 0) /\
    os_scheduler.sram s' (os_process.sp slot + 34) = os_scheduler.high_byte entry /\
    os_scheduler.sram s' (os_process.sp slot + 35) = os_scheduler.low_byte entry /\
    os_process.state slot = os_process.OS_PS_READY /\
    os_process.program slot = entry /\
    os_process.priority slot = prio /\
    (forall a, ~ (PROCESS_STACK_BOTTOM k - 35 < a <= PROCESS_STACK_BOTTOM k) ->
       os_scheduler.sram s' a = os_scheduler.sram s a).
Proof.
  intros Hwf Hnn (p & Hp & Hu). pose proof Hwf as [Hlen Hc].
  destruct (os_scheduler.first_unused (os_scheduler.os_processes s) 0) as [pid|] eqn:Hf.
  2: { exfalso. apply (proj1 (first_unused_None _ _) Hf p Hp Hu). }
  destruct (os_exec_fresh s entry prio pid Hwf Hnn Hf) as (s' & He & Hps & Hm).
  destruct (first_unused_Some _ _ _ Hf) as (i & -> & _ & _).
  destruct (initial_frame_spec (os_scheduler.sram s) (PROCESS_STACK_BOTTOM (0 + Z.of_nat i)) entry)
    as (_ & Hz & Hhi & Hlo & Hout).
  assert (Hil : (i < length (os_scheduler.os_processes s))%nat).
  { destruct (first_unused_Some _ _ _ Hf) as (i' & Hi' & (q & Hq & _) & _).
    replace i with i' by lia. apply lookup_lt_is_Some. eauto. }
  eexists (0 + Z.of_nat i), s', _.
  split; [exact He|]. split; [rewrite Hlen in Hil; unfold MAX_NUMBER_OF_PROCESSES in *; lia|].
  split.
  { unfold os_scheduler.os_getProcessSlot. rewrite Hps.
    apply list_lookup_insert_eq. replace (Z.to_nat (0 + Z.of_nat i)) with i by lia.
    exact Hil. }
  cbn [os_process.sp os_process.state os_process.program os_process.priority].
  rewrite Hm. repeat apply conj; try reflexivity; assumption.
Qed.

Lemma os_exec_slot_choice_witness :
  os_scheduler.scheduler_wf os_scheduler.cleared_scheduler /\
  exists pid s',
    os_scheduler.os_exec os_scheduler.cleared_scheduler 0x0A30 10
      = os_scheduler.Ok (pid, s') /\
    (0 <= pid < MAX_NUMBER_OF_PROCESSES) /\
    exists p', os_scheduler.os_getProcessSlot s' pid = Some p' /\
               os_process.state p' = os_process.OS_PS_READY /\
               os_process.program p' = 0x0A30.
Proof.
  assert (H : os_scheduler.scheduler_wf os_scheduler.cleared_scheduler)
    by (split; [reflexivity|cbn; lia]).
  split; [exact H|].
  destruct (@os_exec_slot_choice atmega644 os_scheduler.cleared_scheduler 0x0A30 10 H)
    as (pid & s' & He & _ & _ & _ & Hok).
  destruct Hok as (Hlt & _ & _ & Hp').
  - unfold NULL. lia.
  - exists os_scheduler.cleared_slot. split; [left|reflexivity].
  - exists pid, s'. split; [exact He|]. split; assumption.
Defined.

Lemma os_exec_initial_frame_witness :
  os_scheduler.scheduler_wf os_scheduler.cleared_scheduler /\
  (0x0A30 <> NULL) /\
  (exists p, p ∈ os_scheduler.os_processes os_scheduler.cleared_scheduler /\
             os_process.state p = os_process.OS_PS_UNUSED) /\
  exists k s' slot,
    os_scheduler.os_exec os_scheduler.cleared_scheduler 0x0A30 10
      = os_scheduler.Ok (k, s') /\
    os_scheduler.os_getProcessSlot s' k = Some slot /\
    os_process.sp slot = PROCESS_STACK_BOTTOM k - 35 /\
    os_scheduler.sram s' (os_process.sp slot + 34) = os_scheduler.high_byte 0x0A30 /\
    os_scheduler.sram s' (os_process.sp slot + 35) = os_scheduler.low_byte 0x0A30.
Proof.
  assert (H1 : os_scheduler.scheduler_wf os_scheduler.cleared_scheduler)
    by (split; [reflexivity|cbn; lia]).
  assert (H2 : 0x0A30 <> NULL) by (unfold NULL; lia).
  assert (H3 : exists p, p ∈ os_scheduler.os_processes os_scheduler.cleared_scheduler /\
                         os_process.state p = os_process.OS_PS_UNUSED)
    by (exists os_scheduler.cleared_slot; split; [left|reflexivity]).
  split; [exact H1|]. split; [exact H2|]. split; [exact H3|].
  destruct (@os_exec_initial_frame atmega644 os_scheduler.cleared_scheduler 0x0A30 10 H1 H2 H3)
    as (k & s' & slot & He & _ & Hs & Hsp & _ & Hhi & Hlo & _).
  exists k, s', slot. repeat apply conj; assumption.
Defined.

(** The scenarios of the unit test of [os_exec] on the ATmega644: on a
    cleared table the first process gets slot 0 with its frame under
    PROCESS_STACK_BOTTOM(0) = 0x101F, and a gap at slot 2 is filled. *)
Example os_exec_cleared_table :
  exists s',
    os_scheduler.os_exec os_scheduler.cleared_scheduler 0x0A30 10 = os_scheduler.Ok (0, s') /\
    (os_process.sp <$> os_scheduler.os_getProcessSlot s' 0) = Some (0x101F - 35) /\
    os_scheduler.sram s' (0x101F - 1) = 0x0A /\
    os_scheduler.sram s' 0x101F = 0x30.
Proof. eexists. split; [reflexivity|]. repeat apply conj; reflexivity. Qed.

Example os_exec_fills_gap :
  exists s',
    os_scheduler.os_exec
      (os_scheduler.set_os_processes
         (<[2%nat := os_scheduler.cleared_slot]>
            (replicate 8
               {| os_process.state := os_process.OS_PS_READY; os_process.program := 0x0A30;
                  os_process.priority := 2; os_process.sp := 0;
                  os_process.checksum := 0 |}))
         os_scheduler.cleared_scheduler)
      0x0A30 2
    = os_scheduler.Ok (2, s').
Proof. eexists. reflexivity. Qed.

Example os_exec_full_table :
  exists s',
    os_scheduler.os_exec
      (os_scheduler.set_os_processes
         (replicate 8
            {| os_process.state := os_process.OS_PS_READY; os_process.program := 0x0A30;
               os_process.priority := 2; os_process.sp := 0;
               os_process.checksum := 0 |})
         os_scheduler.cleared_scheduler)
      0x0A30 2
    = os_scheduler.Ok (INVALID_PROCESS, s').
Proof. eexists. reflexivity. Qed.

(** ** os_getStackChecksum *)

(** C3: the fold over the live stack differs from what
    [os_getStackChecksum] returns.  In [one_byte_scheduler] slot 0 is ready
    and its live stack is the single byte 0x01, whose fold is 1; the
    function returns 0, as it does for every table and every process id. *)
Lemma os_getStackChecksum_placeholder :
  (os_process.state <$> os_scheduler.os_getProcessSlot os_scheduler.one_byte_scheduler 0)
    = Some os_process.OS_PS_READY /\
  os_scheduler.live_stack (os_scheduler.sram os_scheduler.one_byte_scheduler)
    (PROCESS_STACK_BOTTOM 0 - 1) (PROCESS_STACK_BOTTOM 0) = [1] /\
  os_scheduler.stack_checksum (os_scheduler.sram os_scheduler.one_byte_scheduler)
    (PROCESS_STACK_BOTTOM 0 - 1) (PROCESS_STACK_BOTTOM 0) = 1 /\
  os_scheduler.os_getStackChecksum os_scheduler.one_byte_scheduler 0 = 0 /\
  (forall (io : avr_io) s pid, os_scheduler.os_getStackChecksum s pid = 0).
Proof. repeat apply conj; reflexivity. Qed.

(** The fold of the system description at work: the frame [os_exec] lays
    down for the entry address 0x0A30 folds to 0x24, and flipping the same
    bit in two neighbouring bytes changes the fold. *)
Example byte_fold_initial_frame :
  os_scheduler.byte_fold (rev (os_scheduler.initial_frame 0x0A30)) = 0x24 /\
  os_scheduler.byte_fold [0; 0] = 0 /\
  os_scheduler.byte_fold [1; 1] = 3.
Proof. repeat apply conj; reflexivity. Qed.

(** ** The first resume of a new process *)

Lemma high_low_byte program :
  os_scheduler.high_byte program * 256 + os_scheduler.low_byte program = u16 program.
Proof.
  unfold os_scheduler.high_byte, os_scheduler.low_byte.
  change 255 with (Z.ones 8). rewrite Z.land_ones, Z.shiftr_div_pow2 by lia.
  change (2 ^ 8) with 256. pose proof (Z.div_mod (u16 program) 256). lia.
Qed.

(** Restoring the context from the initial frame of a new process starts
    it like a fresh call of its program: every general register is 0, the
    status byte is clear but for the I flag the [reti] sets, the program
    counter is the entry address, and the stack pointer is back at the
    bottom of the stack. *)
Lemma initial_frame_resumes (ram : Z -> Z) (bottom program : Z) (m : machine) :
  35 <= bottom < 65536 ->
  SP m = bottom - 35 ->
  mem m = (os_scheduler.lay_frame ram bottom (os_scheduler.initial_frame program)).1 ->
  (forall r, 0 <= r < 32 -> regs (run restoreContext m) r = 0) /\
  SREG (run restoreContext m) = 128 /\
  PC (run restoreContext m) = u16 program /\
  SP (run restoreContext m) = bottom.
Proof.
  intros Hb Hsp Hmem.
  destruct (restoreContext_spec m) as (Rk & R31 & Rf & Rs & Rp & _); [lia..|].
  destruct (initial_frame_spec ram bottom program) as (_ & Hz & Hhi & Hlo & _).
  rewrite Hmem, Hsp in *.
  repeat apply conj.
  - intros r Hr. destruct (Z.eq_dec r 31) as [->|Hne].
    + rewrite R31. apply Hz. lia.
    + rewrite Rk by lia. replace (bottom - 35 + 1 + r) with (bottom - 35 + (1 + r)) by lia.
      apply Hz. lia.
  - rewrite Rf, Hz by lia. reflexivity.
  - rewrite Rp, Hhi, Hlo. apply high_low_byte.
  - rewrite Rs. lia.
Qed.


(* ===================================================================== *)
(** * Part III: further properties of the sources                         *)
(* ===================================================================== *)

(** ** util.h: the bit macros *)

Lemma testbit_cbi x b c :
  0 <= b -> 0 <= c < 8 -> Z.testbit (cbi x b) c = Z.testbit x c && negb (b =? c).
Proof.
  intros Hb Hc. unfold cbi.
  rewrite testbit_u8, Z.land_spec, Z.lnot_spec, Z.shiftl_1_l, Z.pow2_bits_eqb by lia.
  reflexivity.
Qed.

Lemma sbi_range x b : 0 <= sbi x b < 256.
Proof. unfold sbi, u8. apply Z.mod_pos_bound. lia. Qed.

Lemma cbi_range x b : 0 <= cbi x b < 256.
Proof. unfold cbi, u8. apply Z.mod_pos_bound. lia. Qed.

Lemma sbi_cbi_bits x b c :
  0 <= b < 8 -> 0 <= c < 8 ->
  gbi (sbi x b) c = (if c =? b then 1 else gbi x c) /\
  gbi (cbi x b) c = (if c =? b then 0 else gbi x c).
Proof.
  intros Hb Hc. rewrite !gbi_testbit, testbit_sbi, testbit_cbi by lia.
  rewrite (Z.eqb_sym c b).
  split; destruct (b =? c), (Z.testbit x c); reflexivity.
Qed.

(** [sbi] sets bit [b] of an 8-bit register and [cbi] clears it; [gbi]
    reads a bit as 0 or 1; neither [sbi] nor [cbi] changes another bit of
    the register, and both leave a value that fits the register. *)
Theorem sbi_cbi_gbi (x b c : Z) :
  0 <= b < 8 -> 0 <= c < 8 ->
  gbi (sbi x b) c = (if c =? b then 1 else gbi x c) /\
  gbi (cbi x b) c = (if c =? b then 0 else gbi x c) /\
  (gbi x c = 0 \/ gbi x c = 1) /\
  0 <= sbi x b < 256 /\ 0 <= cbi x b < 256.
Proof.
  intros Hb Hc. rewrite !gbi_testbit, testbit_sbi, testbit_cbi by lia.
  rewrite (Z.eqb_sym c b).
  repeat apply conj; try apply sbi_range; try apply cbi_range.
  - destruct (b =? c), (Z.testbit x c); reflexivity.
  - destruct (b =? c), (Z.testbit x c); reflexivity.
  - destruct (Z.testbit x c); [right|left]; reflexivity.
Qed.

Lemma sbi_cbi_gbi_witness :
  (0 <= 2 < 8) /\ (0 <= 5 < 8) /\
  gbi (sbi 0x0A 2) 5 = (if 5 =? 2 then 1 else gbi 0x0A 5) /\
  gbi (cbi 0x0A 2) 5 = (if 5 =? 2 then 0 else gbi 0x0A 5).
Proof.
  assert (H1 : 0 <= 2 < 8) by lia. assert (H2 : 0 <= 5 < 8) by lia.
  split; [exact H1|]. split; [exact H2|].
  destruct (sbi_cbi_gbi 0x0A 2 5 H1 H2) as (A & B & _).
  split; assumption.
Defined.

(** ** defines.h: the stacks fill the upper half of the SRAM *)

(** With 4096 bytes of SRAM the main stack, the ISR stack and the eight
    process stacks cover the upper half of the SRAM exactly: an address
    lies in one of the ten regions if and only if it is one of the last
    2048 addresses, so the lower half is left to globals and the heap and
    no byte of the upper half is outside every stack. *)
Theorem stack_regions_cover_upper_half {io : avr_io} (a : Z) :
  AVR_MEMORY_SRAM = 4096 ->
  (AVR_SRAM_START + 2048 <= a <= AVR_SRAM_LAST <->
   in_region a main_stack_region \/ in_region a isr_stack_region \/
   exists k, 0 <= k < MAX_NUMBER_OF_PROCESSES /\ in_region a (process_stack_region k)).
Proof.
  intros H4k.
  assert (Hend : RAMEND = RAMSTART + 4095)
    by (unfold AVR_MEMORY_SRAM, AVR_SRAM_END, AVR_SRAM_START in H4k; lia).
  assert (Hreg : forall k, process_stack_region k =
                           (RAMEND - 451 - 228 * k, RAMEND - 224 - 228 * k))
    by (intros k; apply process_stack_region_eq; exact H4k).
  unfold main_stack_region, isr_stack_region, stack_region, in_region,
    BOTTOM_OF_ISR_STACK, BOTTOM_OF_MAIN_STACK, AVR_SRAM_LAST, AVR_SRAM_START,
    STACK_SIZE_ISR, STACK_SIZE_MAIN, MAX_NUMBER_OF_PROCESSES.
  cbn [fst snd]. split.
  - intros Ha.
    destruct (Z_le_gt_dec (RAMEND - 31) a) as [Hm|Hm]; [left; lia|].
    destruct (Z_le_gt_dec (RAMEND - 223) a) as [Hi|Hi]; [right; left; lia|].
    right; right. exists ((RAMEND - 224 - a) / 228).
    pose proof (Z.div_mod (RAMEND - 224 - a) 228 ltac:(lia)) as Hdm.
    pose proof (Z.mod_pos_bound (RAMEND - 224 - a) 228 ltac:(lia)) as Hmod.
    rewrite Hreg. cbn [fst snd]. lia.
  - intros [Hm|[Hi|(k & Hk & Hp)]]; [lia|lia|].
    rewrite Hreg in Hp. cbn [fst snd] in Hp. lia.
Qed.

Lemma stack_regions_cover_upper_half_witness :
  @AVR_MEMORY_SRAM atmega644 = 4096 /\
  (@AVR_SRAM_START atmega644 + 2048 <= 0x0900 <= @AVR_SRAM_LAST atmega644 <->
   in_region 0x0900 (@main_stack_region atmega644) \/
   in_region 0x0900 (@isr_stack_region atmega644) \/
   exists k, 0 <= k < MAX_NUMBER_OF_PROCESSES /\
             in_region 0x0900 (@process_stack_region atmega644 k)).
Proof.
  assert (H : @AVR_MEMORY_SRAM atmega644 = 4096) by reflexivity.
  split; [exact H|].
  exact (@stack_regions_cover_upper_half atmega644 0x0900 H).
Defined.

(** ** os_core.c: timer 0 *)

(** [os_init_timer] selects the prescaler 256 for timer 0 (CS02 set, CS01
    and CS00 cleared, whatever they were), which is the [TC0_PRESCALER] the
    system time functions of util.c divide by; it enables the overflow
    interrupt that counts the time, and leaves the other bits of TCCR0B as
    they were. *)
Theorem os_init_timer_configures_timer0 {io : avr_io} (r : os_core.io_registers) :
  timer0.timer0_bits_wf ->
  (gbi (os_core.TCCR0B (os_core.os_init_timer r)) CS02 = 1 /\
   gbi (os_core.TCCR0B (os_core.os_init_timer r)) CS01 = 0 /\
   gbi (os_core.TCCR0B (os_core.os_init_timer r)) CS00 = 0) /\
  timer0.timer0_prescaler (timer0.timer0_clock_select (os_core.os_init_timer r))
    = timer0.TC0_PRESCALER /\
  gbi (os_core.TIMSK0 (os_core.os_init_timer r)) TOIE0 = 1 /\
  (forall c, 0 <= c < 8 -> c <> CS02 -> c <> CS01 -> c <> CS00 ->
     gbi (os_core.TCCR0B (os_core.os_init_timer r)) c = gbi (os_core.TCCR0B r) c).
Proof.
  intros ((H2 & H1 & H0) & Ht & N21 & N20 & N10).
  assert (Hb : forall c, 0 <= c < 8 ->
     gbi (os_core.TCCR0B (os_core.os_init_timer r)) c =
       if c =? CS02 then 1 else if c =? CS01 then 0 else if c =? CS00 then 0
       else gbi (os_core.TCCR0B r) c).
  { intros c Hc. unfold os_core.os_init_timer.
    cbn [os_core.TCCR0B os_core.set_TCCR2A os_core.set_TCCR2B os_core.set_TIMSK2
         os_core.set_OCR2A os_core.set_TCCR0B os_core.set_TIMSK0].
    rewrite (proj1 (sbi_cbi_bits _ CS02 c H2 Hc)).
    rewrite (proj2 (sbi_cbi_bits _ CS01 c H1 Hc)).
    rewrite (proj2 (sbi_cbi_bits _ CS00 c H0 Hc)).
    reflexivity. }
  assert (B2 := Hb CS02 H2). assert (B1 := Hb CS01 H1). assert (B0 := Hb CS00 H0).
  rewrite Z.eqb_refl in B2.
  destruct (Z.eqb_spec CS01 CS02) as [E|_] in B1; [congruence|]. rewrite Z.eqb_refl in B1.
  destruct (Z.eqb_spec CS00 CS02) as [E|_] in B0; [congruence|].
  destruct (Z.eqb_spec CS00 CS01) as [E|_] in B0; [congruence|].
  rewrite Z.eqb_refl in B0.
  repeat apply conj; try assumption.
  - unfold timer0.timer0_clock_select. rewrite B2, B1, B0. reflexivity.
  - unfold os_core.os_init_timer.
    cbn [os_core.TIMSK0 os_core.set_TIMSK0]. apply gbi_sbi_same. exact Ht.
  - intros c Hc C2 C1 C0. rewrite (Hb c Hc).
    destruct (Z.eqb_spec c CS02); [contradiction|].
    destruct (Z.eqb_spec c CS01); [contradiction|].
    destruct (Z.eqb_spec c CS00); [contradiction|]. reflexivity.
Qed.

Lemma os_init_timer_configures_timer0_witness :
  @timer0.timer0_bits_wf atmega644 /\
  timer0.timer0_prescaler
    (timer0.timer0_clock_select (os_core.os_init_timer os_core.reset_registers))
    = timer0.TC0_PRESCALER.
Proof.
  assert (H : @timer0.timer0_bits_wf atmega644)
    by (unfold timer0.timer0_bits_wf; cbn; lia).
  split; [exact H|].
  exact (proj1 (proj2 (@os_init_timer_configures_timer0 atmega644 os_core.reset_registers H))).
Defined.

(** ** util.h: resuming a process *)

(** A process that was preempted resumes with the registers it had: if the
    frame [saveContext] laid down and the return address under it are still
    in memory and the stack pointer is set back to the saved one, then
    [restoreContext] brings back every general register and the status byte
    (with the I flag set by the [reti]), whatever the registers held in
    between, continues at the return address and leaves the stack pointer
    where it was before the interrupt. *)
Theorem restoreContext_resumes (m m' : machine) :
  frame_fits m ->
  SP m' = SP (run saveContext m) ->
  (forall a, SP m - 33 < a <= SP m + 2 -> mem m' a = mem (run saveContext m) a) ->
  (forall r, 0 <= r < 32 -> regs (run restoreContext m') r = regs m r) /\
  SREG (run restoreContext m') = Z.setbit (SREG m) SREG_I /\
  SP (run restoreContext m') = SP m + 2 /\
  PC (run restoreContext m') = mem m (SP m + 1) * 256 + mem m (SP m + 2).
Proof.
  intros [Hlo Hhi] Hsp Hmem.
  destruct (saveContext_spec m) as (Hs & H31 & Hf & Hk & Hout & _); [lia|].
  rewrite Hs in Hsp.
  destruct (restoreContext_spec m') as (Rk & R31 & Rf & Rs & Rp & _); [lia..|].
  rewrite Hsp in Rk, R31, Rf, Rs, Rp.
  repeat apply conj.
  - intros r Hr. destruct (Z.eq_dec r 31) as [->|Hne].
    + rewrite R31, Hmem by lia. replace (SP m - 33 + 33) with (SP m) by lia. exact H31.
    + rewrite Rk, Hmem by lia.
      replace (SP m - 33 + 1 + r) with (SP m - 32 + r) by lia. apply Hk. lia.
  - rewrite Rf, Hmem by lia. replace (SP m - 33 + 32) with (SP m - 1) by lia.
    rewrite Hf. reflexivity.
  - rewrite Rs. lia.
  - rewrite Rp, !Hmem, !Hout by lia. f_equal; [f_equal|]; f_equal; lia.
Qed.

Lemma resumed_machine_SP :
  SP resumed_machine = SP (run saveContext isr_entry_machine).
Proof. vm_compute. reflexivity. Qed.

Lemma resumed_machine_mem a :
  mem resumed_machine a = mem (run saveContext isr_entry_machine) a.
Proof. vm_compute. reflexivity. Qed.

Lemma restoreContext_resumes_witness :
  frame_fits isr_entry_machine /\
  SP resumed_machine = SP (run saveContext isr_entry_machine) /\
  (forall r, 0 <= r < 32 ->
     regs (run restoreContext resumed_machine) r = regs isr_entry_machine r) /\
  SP (run restoreContext resumed_machine) = SP isr_entry_machine + 2.
Proof.
  assert (H1 : frame_fits isr_entry_machine) by (unfold frame_fits; simpl; lia).
  split; [exact H1|]. split; [exact resumed_machine_SP|].
  destruct (restoreContext_resumes isr_entry_machine resumed_machine H1
              resumed_machine_SP (fun a _ => resumed_machine_mem a))
    as (A & _ & B & _).
  split; assumption.
Defined.

(** The first dispatch of a process: on a stack whose 33 top bytes are
    zero and whose next two bytes are the high and the low byte of an
    address (the frame the unit test of [os_exec] checks for),
    [restoreContext] starts the program at that address with every general
    register zero, a status byte in which only the I flag is set, and an
    empty stack. *)
Theorem restoreContext_fresh_frame (m : machine) (entry : Z) :
  0 <= SP m -> SP m + 35 < 65536 ->
  0 <= entry < 65536 ->
  (forall i, 1 <= i <= 33 -> mem m (SP m + i) = 0) ->
  mem m (SP m + 34) = Z.shiftr entry 8 ->
  mem m (SP m + 35) = Z.land entry 0xFF ->
  (forall r, 0 <= r < 32 -> regs (run restoreContext m) r = 0) /\
  SREG (run restoreContext m) = 0x80 /\
  PC (run restoreContext m) = entry /\
  SP (run restoreContext m) = SP m + 35.
Proof.
  intros Hlo Hhi He Hz Hh Hl.
  destruct (restoreContext_spec m Hlo Hhi) as (Rk & R31 & Rf & Rs & Rp & _).
  repeat apply conj.
  - intros r Hr. destruct (Z.eq_dec r 31) as [->|Hne].
    + rewrite R31. apply Hz. lia.
    + rewrite Rk by lia. replace (SP m + 1 + r) with (SP m + (1 + r)) by lia.
      apply Hz. lia.
  - rewrite Rf, Hz by lia. reflexivity.
  - rewrite Rp, Hh, Hl. change 255 with (Z.ones 8).
    rewrite Z.land_ones, Z.shiftr_div_pow2 by lia. change (2 ^ 8) with 256.
    pose proof (Z.div_mod entry 256). lia.
  - exact Rs.
Qed.

Lemma restoreContext_fresh_frame_witness :
  (0 <= SP fresh_frame_machine) /\ (SP fresh_frame_machine + 35 < 65536) /\
  (0 <= 0x0A30 < 65536) /\
  (forall r, 0 <= r < 32 -> regs (run restoreContext fresh_frame_machine) r = 0) /\
  SREG (run restoreContext fresh_frame_machine) = 0x80 /\
  PC (run restoreContext fresh_frame_machine) = 0x0A30 /\
  SP (run restoreContext fresh_frame_machine) = 0x101F.
Proof.
  assert (H1 : 0 <= SP fresh_frame_machine) by (simpl; lia).
  assert (H2 : SP fresh_frame_machine + 35 < 65536) by (simpl; lia).
  assert (H3 : 0 <= 0x0A30 < 65536) by lia.
  split; [exact H1|]. split; [exact H2|]. split; [exact H3|].
  apply (restoreContext_fresh_frame fresh_frame_machine 0x0A30 H1 H2 H3).
  - intros i Hi. cbn [mem SP fresh_frame_machine].
    destruct (Z.eqb_spec (4127 - 35 + i) 4127); [lia|].
    destruct (Z.eqb_spec (4127 - 35 + i) 4126); [lia|].
    destruct (Z.ltb_spec (4127 - 35) (4127 - 35 + i)); [|lia].
    destruct (Z.ltb_spec (4127 - 35 + i) 4126); [|lia]. reflexivity.
  - reflexivity.
  - reflexivity.
Defined.

(** ** os_process.h: a constructor that runs twice *)

(** The constructor of [REGISTER_AUTOSTART] must run once: run again while
    its node is the head of the list, it makes the node its own successor,
    and a walk along [next] from [autostart_head] then never reaches
    [NULL]. *)
Theorem register_autostart_twice (s : autostart.image) (a : Z)
    (n : autostart.program_linked_list_node) :
  a <> NULL ->
  autostart.nodes s !! a = Some n ->
  autostart.autostart_head
    (autostart.register_autostart a (autostart.register_autostart a s)) = a /\
  autostart.nodes (autostart.register_autostart a (autostart.register_autostart a s)) !! a
    = Some {| autostart.program := autostart.program n; autostart.next := a |} /\
  (forall fuel,
     autostart.autostart_programs fuel
       (autostart.nodes (autostart.register_autostart a (autostart.register_autostart a s)))
       (autostart.autostart_head
          (autostart.register_autostart a (autostart.register_autostart a s)))
     = None).
Proof.
  intros Hnn Hn.
  assert (Hnode :
    autostart.nodes (autostart.register_autostart a (autostart.register_autostart a s)) !! a
    = Some {| autostart.program := autostart.program n; autostart.next := a |}).
  { cbn [autostart.register_autostart autostart.nodes autostart.autostart_head].
    rewrite !lookup_alter_eq, Hn. reflexivity. }
  split; [reflexivity|]. split; [exact Hnode|].
  cbn [autostart.autostart_head autostart.register_autostart].
  revert Hnode.
  generalize (autostart.nodes
                (autostart.register_autostart a (autostart.register_autostart a s))).
  intros h Hnode fuel. induction fuel as [|fuel IH]; cbn [autostart.autostart_programs].
  - destruct (Z.eqb_spec a NULL); [contradiction|reflexivity].
  - destruct (Z.eqb_spec a NULL); [contradiction|].
    rewrite Hnode. cbn. rewrite IH. reflexivity.
Qed.

Lemma register_autostart_twice_witness :
  (0x0200 <> NULL) /\
  autostart.nodes (autostart.load_image [(0x0200, 0x0A00)]) !! 0x0200
    = Some {| autostart.program := 0x0A00; autostart.next := NULL |} /\
  autostart.autostart_programs 100
    (autostart.nodes
       (autostart.register_autostart 0x0200
          (autostart.register_autostart 0x0200 (autostart.load_image [(0x0200, 0x0A00)]))))
    0x0200 = None.
Proof.
  assert (H1 : 0x0200 <> NULL) by (unfold NULL; lia).
  assert (H2 : autostart.nodes (autostart.load_image [(0x0200, 0x0A00)]) !! 0x0200
               = Some {| autostart.program := 0x0A00; autostart.next := NULL |})
    by reflexivity.
  split; [exact H1|]. split; [exact H2|].
  exact (proj2 (proj2 (register_autostart_twice _ 0x0200 _ H1 H2)) 100%nat).
Defined.

(** ** util.c: the system time *)

Section system_time.
Import util_c.

Lemma u32_small z : 0 <= z < 4294967296 -> u32 z = z.
Proof. intros Hz. unfold u32. apply Z.mod_small. exact Hz. Qed.

Lemma u32_range z : 0 <= u32 z < 4294967296.
Proof. unfold u32. apply Z.mod_pos_bound. lia. Qed.

Lemma coarse_divisor : F_CPU / timer0.TC0_PRESCALER / 256 = 305.
Proof. reflexivity. Qed.

Lemma precise_divisor : F_CPU / (timer0.TC0_PRESCALER * 1000) = 78.
Proof. reflexivity. Qed.

Lemma land_bit_eqb x k :
  0 <= k -> (Z.land x (Z.shiftl 1 k) =? 0) = negb (Z.testbit x k).
Proof.
  intros Hk. rewrite Z.shiftl_1_l.
  destruct (Z.testbit x k) eqn:Hb; cbn [negb].
  - apply Z.eqb_neq. intros H0.
    assert (Hk' : Z.testbit (Z.land x (2 ^ k)) k = true)
      by (rewrite Z.land_spec, Hb, Z.pow2_bits_true by lia; reflexivity).
    rewrite H0, Z.bits_0 in Hk'. discriminate.
  - apply Z.eqb_eq. apply Z.bits_inj'. intros n Hn.
    rewrite Z.land_spec, Z.bits_0, Z.pow2_bits_eqb by lia.
    destruct (Z.eqb_spec k n) as [->|_]; [rewrite Hb; reflexivity|apply andb_false_r].
Qed.

(** A value shifted left by eight bits and a byte have no bit in common. *)
Lemma lor_shiftl8 a b : 0 <= b < 256 -> Z.lor (Z.shiftl a 8) b = a * 256 + b.
Proof.
  intros Hb. rewrite Z.shiftl_mul_pow2 by lia.
  assert (Hl : Z.land (a * 2 ^ 8) b = 0).
  { apply Z.bits_inj'. intros n Hn. rewrite Z.land_spec, Z.bits_0.
    destruct (Z_lt_ge_dec n 8) as [Hlt|Hge].
    - rewrite Z.mul_pow2_bits_low by lia. reflexivity.
    - rewrite <- (Z.mod_small b (2 ^ 8)) by (change (2 ^ 8) with 256; lia).
      rewrite Z.mod_pow2_bits_high by lia. apply andb_false_r. }
  rewrite <- Z.lxor_lor by exact Hl. symmetry.
  change 256 with (2 ^ 8). apply Z.add_nocarry_lxor. exact Hl.
Qed.
Lemma augment_idle TOV0 t :
  0 <= TOV0 ->
  (Z.testbit (SREG t) 7 = true \/ Z.testbit (TIFR0 t) TOV0 = false) ->
  os_systemTime_augment TOV0 t
  = (u32 (Z.lor (u32 (Z.shiftl (os_systemTime_overflows t) 8)) (TCNT0 t)), t).
Proof.
  intros Hb Hnp. unfold os_systemTime_augment. rewrite !land_bit_eqb by lia.
  replace (negb (Z.testbit (SREG t) 7) && negb (negb (Z.testbit (TIFR0 t) TOV0)))
    with false; [reflexivity|].
  destruct Hnp as [-> | ->]; [reflexivity|]. rewrite andb_false_r. reflexivity.
Qed.

Lemma augment_counts TOV0 t :
  0 <= TOV0 ->
  Z.testbit (SREG t) 7 = false -> Z.testbit (TIFR0 t) TOV0 = true ->
  os_systemTime_augment TOV0 t
  = (u32 (Z.lor (u32 (Z.shiftl (u32 (os_systemTime_overflows t + 1)) 8)) (TCNT0 t)),
     set_overflows (u32 (os_systemTime_overflows t + 1))
       (set_TIFR0 (write_flags (TIFR0 t) (u8 (Z.lor (TIFR0 t) (Z.shiftl 1 TOV0)))) t)).
Proof.
  intros Hb Hi Hf. unfold os_systemTime_augment. rewrite !land_bit_eqb by lia.
  rewrite Hi, Hf. reflexivity.
Qed.
End system_time.

(** [os_systemTime_coarse] is overflows * 1000 / 305 milliseconds and never
    runs backwards for up to 4294967 overflows (about 3.9 hours); with the
    next overflow the product no longer fits 32 bits and the time falls
    from 14081859 ms back to 2 ms.  After [os_systemTime_reset] it is 0. *)
Theorem os_systemTime_coarse_wraps :
  (forall t, 0 <= util_c.os_systemTime_overflows t <= 4294967 ->
     util_c.os_systemTime_coarse t = util_c.os_systemTime_overflows t * 1000 / 305) /\
  (forall t1 t2,
     0 <= util_c.os_systemTime_overflows t1 <= util_c.os_systemTime_overflows t2 ->
     util_c.os_systemTime_overflows t2 <= 4294967 ->
     util_c.os_systemTime_coarse t1 <= util_c.os_systemTime_coarse t2) /\
  (forall t, util_c.os_systemTime_overflows t = 4294967 ->
     util_c.os_systemTime_coarse t = 14081859) /\
  (forall t, util_c.os_systemTime_overflows t = 4294968 ->
     util_c.os_systemTime_coarse t = 2) /\
  (forall t, util_c.os_systemTime_coarse (util_c.os_systemTime_reset t) = 0).
Proof.
  assert (Hc : forall t, 0 <= util_c.os_systemTime_overflows t <= 4294967 ->
     util_c.os_systemTime_coarse t = util_c.os_systemTime_overflows t * 1000 / 305).
  { intros t Ht. unfold util_c.os_systemTime_coarse.
    rewrite coarse_divisor, u32_small by lia. reflexivity. }
  repeat apply conj.
  - exact Hc.
  - intros t1 t2 H1 H2. rewrite !Hc by lia. apply Z.div_le_mono; lia.
  - intros t Ht. rewrite Hc by lia. rewrite Ht. reflexivity.
  - intros t Ht. unfold util_c.os_systemTime_coarse. rewrite Ht. reflexivity.
  - intros t. reflexivity.
Qed.

(** [os_systemTime_augment] counts an overflow that is pending while
    interrupts are off exactly once: it increments the overflow counter,
    clears the overflow flag, and a second call right after it changes
    nothing and returns the same time.  With interrupts on, or without a
    pending overflow, it only reads. *)
Theorem os_systemTime_augment_pending (TOV0 : Z) (t : util_c.timebase) :
  0 <= TOV0 < 8 ->
  0 <= util_c.os_systemTime_overflows t < 4294967295 ->
  (Z.testbit (util_c.SREG t) 7 = false /\ Z.testbit (util_c.TIFR0 t) TOV0 = true ->
   util_c.os_systemTime_overflows (util_c.os_systemTime_augment TOV0 t).2
     = util_c.os_systemTime_overflows t + 1 /\
   Z.testbit (util_c.TIFR0 (util_c.os_systemTime_augment TOV0 t).2) TOV0 = false /\
   util_c.os_systemTime_augment TOV0 (util_c.os_systemTime_augment TOV0 t).2
     = util_c.os_systemTime_augment TOV0 t) /\
  (Z.testbit (util_c.SREG t) 7 = true \/ Z.testbit (util_c.TIFR0 t) TOV0 = false ->
   (util_c.os_systemTime_augment TOV0 t).2 = t).
Proof.
  intros Hb Ho. split.
  - intros [Hi Hf].
    assert (Hclr : Z.testbit
              (util_c.write_flags (util_c.TIFR0 t)
                 (u8 (Z.lor (util_c.TIFR0 t) (Z.shiftl 1 TOV0)))) TOV0 = false).
    { unfold util_c.write_flags.
      rewrite Z.land_spec, Z.lnot_spec, testbit_u8, Z.lor_spec, Hf by lia.
      reflexivity. }
    rewrite (augment_counts TOV0 t) by (assumption || lia).
    cbn [snd]. repeat apply conj.
    + cbn. apply u32_small. lia.
    + exact Hclr.
    + rewrite augment_idle; [reflexivity|lia|]. right. exact Hclr.
  - intros Hnp. rewrite augment_idle by (assumption || lia). reflexivity.
Qed.

Lemma os_systemTime_augment_pending_witness :
  (0 <= 0 < 8) /\ (0 <= 7 < 4294967295) /\
  util_c.os_systemTime_augment 0
    {| util_c.os_systemTime_overflows := 7; util_c.SREG := 0x02; util_c.TIFR0 := 0x01;
       util_c.TCNT0 := 3 |}
  = (8 * 256 + 3,
     {| util_c.os_systemTime_overflows := 8; util_c.SREG := 0x02; util_c.TIFR0 := 0x00;
        util_c.TCNT0 := 3 |}) /\
  (util_c.os_systemTime_augment 0
     {| util_c.os_systemTime_overflows := 7; util_c.SREG := 0x82; util_c.TIFR0 := 0x01;
        util_c.TCNT0 := 3 |}).2
  = {| util_c.os_systemTime_overflows := 7; util_c.SREG := 0x82; util_c.TIFR0 := 0x01;
       util_c.TCNT0 := 3 |}.
Proof.
  assert (H1 : 0 <= 0 < 8) by lia. assert (H2 : 0 <= 7 < 4294967295) by lia.
  split; [exact H1|]. split; [exact H2|]. split; [reflexivity|].
  apply (proj2 (os_systemTime_augment_pending 0
     {| util_c.os_systemTime_overflows := 7; util_c.SREG := 0x82; util_c.TIFR0 := 0x01;
        util_c.TCNT0 := 3 |} H1 H2)).
  left. reflexivity.
Defined.

(** [os_systemTime_precise] is (256 * overflows + TCNT0) / 78 milliseconds
    for fewer than 2^24 overflows, so it never runs backwards while the
    timer counts up; it never exceeds 55063683 ms (about 15.3 hours), and
    with the 2^24th overflow it starts again from TCNT0 / 78. *)
Theorem os_systemTime_precise_wraps (TOV0 : Z) (t : util_c.timebase) :
  0 <= TOV0 ->
  (Z.testbit (util_c.SREG t) 7 = true \/ Z.testbit (util_c.TIFR0 t) TOV0 = false) ->
  0 <= util_c.TCNT0 t < 256 ->
  0 <= (util_c.os_systemTime_precise TOV0 t).1 <= 55063683 /\
  (0 <= util_c.os_systemTime_overflows t < 16777216 ->
   (util_c.os_systemTime_precise TOV0 t).1
     = (256 * util_c.os_systemTime_overflows t + util_c.TCNT0 t) / 78) /\
  (util_c.os_systemTime_overflows t = 16777216 ->
   (util_c.os_systemTime_precise TOV0 t).1 = util_c.TCNT0 t / 78) /\
  (forall t', 
     (Z.testbit (util_c.SREG t') 7 = true \/ Z.testbit (util_c.TIFR0 t') TOV0 = false) ->
     0 <= util_c.TCNT0 t' < 256 ->
     0 <= util_c.os_systemTime_overflows t ->
     256 * util_c.os_systemTime_overflows t + util_c.TCNT0 t
       <= 256 * util_c.os_systemTime_overflows t' + util_c.TCNT0 t' ->
     util_c.os_systemTime_overflows t' < 16777216 ->
     (util_c.os_systemTime_precise TOV0 t).1 <= (util_c.os_systemTime_precise TOV0 t').1).
Proof.
  intros Hb Hnp Hc.
  assert (Hval : forall u,
     (Z.testbit (util_c.SREG u) 7 = true \/ Z.testbit (util_c.TIFR0 u) TOV0 = false) ->
     (util_c.os_systemTime_precise TOV0 u).1 =
       util_c.u32 (Z.lor (util_c.u32 (Z.shiftl (util_c.os_systemTime_overflows u) 8))
                         (util_c.TCNT0 u)) / 78).
  { intros u Hu. unfold util_c.os_systemTime_precise, util_c.os_systemTime_augment.
    rewrite !land_bit_eqb by lia.
    replace (negb (Z.testbit (util_c.SREG u) 7) && negb (negb (Z.testbit (util_c.TIFR0 u) TOV0)))
      with false by (destruct Hu as [-> | ->]; [reflexivity|rewrite andb_false_r; reflexivity]).
    cbn [fst]. rewrite precise_divisor. reflexivity. }
  assert (Hsmall : forall u,
     (Z.testbit (util_c.SREG u) 7 = true \/ Z.testbit (util_c.TIFR0 u) TOV0 = false) ->
     0 <= util_c.TCNT0 u < 256 ->
     0 <= util_c.os_systemTime_overflows u < 16777216 ->
     (util_c.os_systemTime_precise TOV0 u).1
       = (256 * util_c.os_systemTime_overflows u + util_c.TCNT0 u) / 78).
  { intros u Hu Hcu Hou. rewrite (Hval u Hu).
    rewrite (u32_small (Z.shiftl _ 8))
      by (rewrite Z.shiftl_mul_pow2 by lia; change (2 ^ 8) with 256; lia).
    rewrite lor_shiftl8 by exact Hcu. rewrite u32_small by lia.
    f_equal. lia. }
  repeat apply conj.
  - rewrite (Hval t Hnp). apply Z.div_pos; [apply u32_range|lia].
  - rewrite (Hval t Hnp).
    pose proof (u32_range (Z.lor (util_c.u32 (Z.shiftl (util_c.os_systemTime_overflows t) 8))
                                 (util_c.TCNT0 t))) as Hr.
    change 55063683 with (4294967295 / 78). apply Z.div_le_mono; lia.
  - intros Ho. apply Hsmall; assumption.
  - intros Ho. rewrite (Hval t Hnp), Ho.
    change (util_c.u32 (Z.shiftl 16777216 8)) with (Z.shiftl 0 8).
    rewrite lor_shiftl8 by exact Hc. rewrite u32_small by lia. reflexivity.
  - intros t' Hnp' Hc' Ho Hle Ho'.
    rewrite (Hsmall t Hnp Hc) by lia. rewrite (Hsmall t' Hnp' Hc') by lia.
    apply Z.div_le_mono; lia.
Qed.

Lemma os_systemTime_precise_wraps_witness :
  (0 <= 0) /\
  (util_c.os_systemTime_precise 0
     {| util_c.os_systemTime_overflows := 305; util_c.SREG := 0x80; util_c.TIFR0 := 0;
        util_c.TCNT0 := 40 |}).1 = (256 * 305 + 40) / 78.
Proof.
  assert (H1 : 0 <= 0) by lia.
  split; [exact H1|].
  refine (proj1 (proj2 (os_systemTime_precise_wraps 0
     {| util_c.os_systemTime_overflows := 305; util_c.SREG := 0x80; util_c.TIFR0 := 0;
        util_c.TCNT0 := 40 |} H1 _ _)) _).
  - left. reflexivity.
  - cbn. lia.
  - cbn. lia.
Defined.

(** ** util.c: delayMs *)

Section delay.
Import util_c.

(** Both loop conditions of [delayMs] say the same thing: fewer than [ms]
    milliseconds have passed since the start, on a clock that wraps at 2^32. *)
Lemma delay_condition ms start now :
  0 <= ms < 4294967296 -> 0 <= start < 4294967296 -> 0 <= now < 4294967296 ->
  (if start <=? u32 (start + ms)
   then (start <=? now) && (now <? u32 (start + ms))
   else (now <? u32 (start + ms)) || (start <=? now))
  = (elapsed start now <? ms).
Proof.
  intros Hms Hs Hn. unfold elapsed, u32.
  assert (Hd : (start + ms) mod 4294967296 = start + ms /\ start + ms < 4294967296 \/
               (start + ms) mod 4294967296 = start + ms - 4294967296 /\
               4294967296 <= start + ms).
  { destruct (Z_lt_ge_dec (start + ms) 4294967296) as [Hlt|Hge].
    - left. split; [apply Z.mod_small; lia|lia].
    - right. split; [|lia].
      replace (start + ms) with (start + ms - 4294967296 + 1 * 4294967296) at 1 by lia.
      rewrite Z.mod_add by lia. apply Z.mod_small. lia. }
  assert (He : (now - start) mod 4294967296 = now - start /\ start <= now \/
               (now - start) mod 4294967296 = now - start + 4294967296 /\ now < start).
  { destruct (Z_le_gt_dec start now) as [Hle|Hgt].
    - left. split; [apply Z.mod_small; lia|lia].
    - right. split; [|lia].
      replace (now - start) with (now - start + 4294967296 + (-1) * 4294967296) at 1 by lia.
      rewrite Z.mod_add by lia. apply Z.mod_small. lia. }
  destruct Hd as [[-> Hd]|[-> Hd]], He as [[-> He]|[-> He]];
    repeat match goal with
           | |- context [?a <=? ?b] => destruct (Z.leb_spec a b)
           | |- context [?a <? ?b] => destruct (Z.ltb_spec a b)
           end; cbn; try reflexivity; lia.
Qed.

Lemma delay_loop_ext f g clock :
  (forall now, now ∈ clock -> f now = g now) ->
  delay_loop f clock = delay_loop g clock.
Proof.
  induction clock as [|now clock IH]; intros Hfg; [reflexivity|].
  cbn [delay_loop]. rewrite (Hfg now) by left.
  destruct (g now); [|reflexivity]. apply IH. intros x Hx. apply Hfg. right. exact Hx.
Qed.

Lemma delay_loop_Some f clock rest :
  delay_loop f clock = Some rest <->
  exists waiting now,
    clock = waiting ++ now :: rest /\
    Forall (fun w => f w = true) waiting /\ f now = false.
Proof.
  revert rest. induction clock as [|x clock IH]; intros rest; cbn [delay_loop].
  - split; [discriminate|]. intros (w & now & H & _). destruct w; discriminate.
  - destruct (f x) eqn:Hx.
    + rewrite IH. split.
      * intros (w & now & -> & Hw & Hn). exists (x :: w), now.
        split; [reflexivity|]. split; [constructor; assumption|exact Hn].
      * intros (w & now & Heq & Hw & Hn). destruct w as [|y w].
        -- injection Heq as -> ->. congruence.
        -- injection Heq as <- ->. exists w, now.
           apply Forall_cons in Hw as [_ Hw]. auto.
    + split.
      * intros [= <-]. exists [], x. auto.
      * intros (w & now & Heq & Hw & Hn). destruct w as [|y w].
        -- injection Heq as -> ->. reflexivity.
        -- injection Heq as <- ->. apply Forall_cons in Hw as [Hy _]. congruence.
Qed.
End delay.

(** [delayMs] returns with the first clock reading for which at least [ms]
    milliseconds have passed since the start reading, counted modulo 2^32,
    and with no earlier one; this holds in both of its cases, whether or not
    start + ms overflows.  A reading smaller than the start time therefore
    ends a delay that does not overflow, and with [ms = 0] the function
    returns after its first reading. *)
Theorem delayMs_waits (ms start : Z) (polls rest : list Z) :
  0 <= ms < 4294967296 ->
  0 <= start < 4294967296 ->
  Forall (fun now => 0 <= now < 4294967296) polls ->
  (util_c.delayMs ms (start :: polls) = Some rest <->
   exists waiting now,
     polls = waiting ++ now :: rest /\
     Forall (fun w => util_c.elapsed start w < ms) waiting /\
     ms <= util_c.elapsed start now).
Proof.
  intros Hms Hs Hp.
  assert (Heq : util_c.delayMs ms (start :: polls)
                = util_c.delay_loop (fun now => util_c.elapsed start now <? ms) polls).
  { cbn [util_c.delayMs].
    destruct (start <=? util_c.u32 (start + ms)) eqn:Hcase;
      apply delay_loop_ext; intros now Hnow;
      rewrite <- (delay_condition ms start now Hms Hs), Hcase;
      try reflexivity; apply (proj1 (Forall_forall _ _) Hp now Hnow). }
  rewrite Heq, delay_loop_Some. split.
  - intros (w & now & -> & Hw & Hn). exists w, now. split; [reflexivity|]. split.
    + eapply Forall_impl; [exact Hw|]. intros x Hx. cbn in Hx. apply Z.ltb_lt. exact Hx.
    + apply Z.ltb_ge. exact Hn.
  - intros (w & now & -> & Hw & Hn). exists w, now. split; [reflexivity|]. split.
    + eapply Forall_impl; [exact Hw|]. intros x Hx. cbn. apply Z.ltb_lt. exact Hx.
    + apply Z.ltb_ge. exact Hn.
Qed.

Lemma delayMs_waits_witness :
  (0 <= 1000 < 4294967296) /\ (0 <= 55063000 < 4294967296) /\
  Forall (fun now => 0 <= now < 4294967296) [55063400; 55063683; 2; 7] /\
  util_c.delayMs 1000 [55063000; 55063400; 55063683; 2; 7] = Some [7].
Proof.
  assert (H1 : 0 <= 1000 < 4294967296) by lia.
  assert (H2 : 0 <= 55063000 < 4294967296) by lia.
  assert (H3 : Forall (fun now => 0 <= now < 4294967296) [55063400; 55063683; 2; 7])
    by (repeat constructor; lia).
  split; [exact H1|]. split; [exact H2|]. split; [exact H3|].
  apply (proj2 (delayMs_waits 1000 55063000 [55063400; 55063683; 2; 7] [7] H1 H2 H3)).
  exists [55063400; 55063683], 2. split; [reflexivity|].
  split; [repeat constructor; vm_compute; reflexivity|vm_compute; discriminate].
Defined.

(** ** os_core.c: os_checkResetSource *)

Section reset_source.
Import os_core_reset.
Context {mcusr : avr_mcusr}.

Lemma testbit_BV b n : 0 <= b -> Z.testbit (_BV b) n = (b =? n).
Proof. intros Hb. unfold _BV. rewrite Z.shiftl_1_l. apply Z.pow2_bits_eqb. exact Hb. Qed.

Lemma allowed_sources_bits n :
  mcusr_bits_wf ->
  Z.testbit OS_ALLOWED_RESET_SOURCES n
  = (JTRF =? n) || (BORF =? n) || (EXTRF =? n) || (PORF =? n).
Proof.
  intros (Hj & _ & Hb & He & Hp). unfold OS_ALLOWED_RESET_SOURCES.
  rewrite !Z.lor_spec, !testbit_BV by lia. reflexivity.
Qed.

Lemma land_allowed_sources saved :
  mcusr_bits_wf ->
  (Z.land saved OS_ALLOWED_RESET_SOURCES = 0 <->
   gbi saved JTRF = 0 /\ gbi saved BORF = 0 /\ gbi saved EXTRF = 0 /\ gbi saved PORF = 0).
Proof.
  intros Hwf. pose proof Hwf as (Hj & _ & Hb & He & Hp).
  rewrite !gbi_testbit by lia. split.
  - intros H0.
    assert (Hbit : forall b, 0 <= b -> Z.testbit OS_ALLOWED_RESET_SOURCES b = true ->
                             Z.b2z (Z.testbit saved b) = 0).
    { intros b Hb0 Hset.
      assert (Hl : Z.testbit (Z.land saved OS_ALLOWED_RESET_SOURCES) b = Z.testbit saved b)
        by (rewrite Z.land_spec, Hset; apply andb_true_r).
      rewrite H0, Z.bits_0 in Hl. rewrite <- Hl. reflexivity. }
    repeat apply conj; apply Hbit; try lia; rewrite allowed_sources_bits by exact Hwf;
      rewrite Z.eqb_refl; cbn; rewrite ?orb_true_r; reflexivity.
  - intros (A & B & C & D). apply Z.bits_inj'. intros n Hn.
    rewrite Z.land_spec, Z.bits_0, allowed_sources_bits by exact Hwf.
    destruct (Z.eqb_spec JTRF n) as [<-|_];
      [destruct (Z.testbit saved JTRF); [discriminate|reflexivity]|].
    destruct (Z.eqb_spec BORF n) as [<-|_];
      [destruct (Z.testbit saved BORF); [discriminate|reflexivity]|].
    destruct (Z.eqb_spec EXTRF n) as [<-|_];
      [destruct (Z.testbit saved EXTRF); [discriminate|reflexivity]|].
    destruct (Z.eqb_spec PORF n) as [<-|_];
      [destruct (Z.testbit saved PORF); [discriminate|reflexivity]|].
    apply andb_false_r.
Qed.

Lemma waitForInput_called saved allowed :
  call_os_waitForInput ∈ os_checkResetSource saved allowed <->
  Z.land saved allowed = 0.
Proof.
  unfold os_checkResetSource.
  rewrite !elem_of_app.
  destruct (Z.eqb_spec (Z.land saved allowed) 0) as [E|E].
  - split; [intros _; exact E|]. intros _. do 7 right. do 2 right. left.
  - split; [|contradiction].
    intros H. exfalso.
    repeat match goal with
           | H : _ \/ _ |- _ => destruct H as [H|H]
           | H : _ ∈ (if ?b then _ else _) |- _ => destruct b
           | H : _ ∈ [] |- _ => apply elem_of_nil in H; contradiction
           | H : _ ∈ [_] |- _ => apply list_elem_of_singleton in H; discriminate
           end.
Qed.
End reset_source.

(** With the reset sources the kernel allows ([OS_ALLOWED_RESET_SOURCES]),
    [os_checkResetSource] stops and waits for a key press exactly when none
    of the JTAG, brown-out, external and power-on reset flags is set in the
    saved MCUSR, that is after a watchdog reset or a software reset; and a
    software reset (MCUSR = 0) is reported and waits for a key press
    whatever sources the caller allows. *)
Theorem os_checkResetSource_confirmation {mcusr : avr_mcusr} (savedMCUSR : Z) :
  os_core_reset.mcusr_bits_wf ->
  (os_core_reset.call_os_waitForInput
     ∈ os_core_reset.os_checkResetSource savedMCUSR os_core_reset.OS_ALLOWED_RESET_SOURCES
   <->
   gbi savedMCUSR JTRF = 0 /\ gbi savedMCUSR BORF = 0 /\
   gbi savedMCUSR EXTRF = 0 /\ gbi savedMCUSR PORF = 0) /\
  (forall allowedSources,
     os_core_reset.call_os_waitForInput
       ∈ os_core_reset.os_checkResetSource 0 allowedSources /\
     os_core_reset.call_lcd_writeProgString "SOFT RESET"
       ∈ os_core_reset.os_checkResetSource 0 allowedSources).
Proof.
  intros Hwf. split.
  - rewrite waitForInput_called. apply land_allowed_sources. exact Hwf.
  - intros allowed. split.
    + apply waitForInput_called. apply Z.land_0_l.
    + unfold os_core_reset.os_checkResetSource. rewrite !gbi_reset.
      cbn [Z.eqb app]. right. left.
Qed.

Lemma os_checkResetSource_confirmation_witness :
  @os_core_reset.mcusr_bits_wf atmega644_mcusr /\
  os_core_reset.os_checkResetSource 0x08 os_core_reset.OS_ALLOWED_RESET_SOURCES
  = [os_core_reset.call_lcd_line2;
     os_core_reset.call_lcd_writeProgString "WATCHDOG ";
     os_core_reset.call_lcd_line1;
     os_core_reset.call_lcd_writeProgString "SYSTEM ERROR:   ";
     os_core_reset.call_os_waitForInput; os_core_reset.call_os_waitForNoInput] /\
  os_core_reset.call_os_waitForInput
    ∈ os_core_reset.os_checkResetSource 0x08 os_core_reset.OS_ALLOWED_RESET_SOURCES.
Proof.
  assert (H : @os_core_reset.mcusr_bits_wf atmega644_mcusr)
    by (unfold os_core_reset.mcusr_bits_wf; cbn; lia).
  split; [exact H|]. split; [reflexivity|].
  apply (proj1 (@os_checkResetSource_confirmation atmega644_mcusr 0x08 H)).
  repeat apply conj; reflexivity.
Defined.

(** ** lcd.c: the busy-flag loop and the transfer of a byte pair *)

Section lcd_transfer.
Import lcd.

Lemma lcd_frame_refl s : lcd_frame s s.
Proof. repeat apply conj; reflexivity. Qed.

Lemma lcd_frame_trans s t u : lcd_frame s t -> lcd_frame t u -> lcd_frame s u.
Proof.
  intros (A1 & A2 & A3 & A4 & A5) (B1 & B2 & B3 & B4 & B5).
  repeat apply conj; congruence.
Qed.

Lemma lcd_enable_fields s :
  lcd_frame s (lcd_enable s) /\
  pin_reads (lcd_enable s) = pin_reads s /\
  LCD_PORT_DDR (lcd_enable s) = LCD_PORT_DDR s /\
  LCD_PORT_DATA (lcd_enable s) = cbi (sbi (LCD_PORT_DATA s) 5) 5 /\
  port_trace (lcd_enable s)
    = port_trace s ++ [sbi (LCD_PORT_DATA s) 5; cbi (sbi (LCD_PORT_DATA s) 5) 5].
Proof.
  unfold lcd_enable, lcd_frame. cbn. repeat apply conj; try reflexivity.
  rewrite <- app_assoc. reflexivity.
Qed.

Lemma lcd_poll_fields s :
  (lcd_poll s).1 = busy_at s 0 /\
  lcd_frame s (lcd_poll s).2 /\
  pin_reads (lcd_poll s).2 = S (pin_reads s) /\
  LCD_PORT_DDR (lcd_poll s).2 = 0xF0 /\
  LCD_PORT_DATA (lcd_poll s).2 = 0x4F /\
  port_trace (lcd_poll s).2 = port_trace s ++ poll_cycle.
Proof.
  unfold lcd_poll, lcd_enable, lcd_frame, busy_at, poll_cycle. cbn.
  rewrite Nat.add_0_r.
  change (sbi 64 5) with 96. change (u8 (Z.lor 96 15)) with 111.
  change (cbi 111 5) with 79. change (sbi 79 5) with 111.
  repeat apply conj; try reflexivity.
  rewrite <- !app_assoc. reflexivity.
Qed.

Lemma busy_at_poll s k : busy_at (lcd_poll s).2 k = busy_at s (S k).
Proof.
  destruct (lcd_poll_fields s) as (_ & (_ & _ & _ & _ & Hpin) & Hr & _).
  unfold busy_at. rewrite Hpin, Hr, Nat.add_succ_r. reflexivity.
Qed.

Lemma lcd_busyWait_step fuel it s :
  lcd_busyWait (S fuel) it s =
    if u16 (it + 1) =? LCD_BUSY_TIMEOUT then (false, lcd_enable (lcd_poll s).2)
    else if (lcd_poll s).1 then lcd_busyWait fuel (u16 (it + 1)) (lcd_poll s).2
    else (true, (lcd_poll s).2).
Proof. cbn [lcd_busyWait]. destruct (lcd_poll s) as [b t]. reflexivity. Qed.

Lemma lcd_busyWait_frame fuel : forall it s, lcd_frame s (lcd_busyWait fuel it s).2.
Proof.
  induction fuel as [|fuel IH]; intros it s.
  - apply lcd_frame_refl.
  - rewrite lcd_busyWait_step.
    destruct (lcd_poll_fields s) as (_ & Hf & _).
    destruct (u16 (it + 1) =? LCD_BUSY_TIMEOUT).
    + cbn [snd]. destruct (lcd_enable_fields (lcd_poll s).2) as (He & _).
      exact (lcd_frame_trans _ _ _ Hf He).
    + destruct (lcd_poll s).1.
      * exact (lcd_frame_trans _ _ _ Hf (IH _ _)).
      * exact Hf.
Qed.

Lemma lcd_busyWait_ready k : forall fuel it s,
  (k < fuel)%nat -> 0 <= it -> it + Z.of_nat k + 1 < LCD_BUSY_TIMEOUT ->
  (forall j, (j < k)%nat -> busy_at s j = true) -> busy_at s k = false ->
  exists s', lcd_busyWait fuel it s = (true, s') /\
    pin_reads s' = (pin_reads s + S k)%nat /\
    LCD_PORT_DDR s' = 0xF0 /\
    port_trace s' = port_trace s ++ mjoin (replicate (S k) poll_cycle).
Proof.
  unfold LCD_BUSY_TIMEOUT.
  induction k as [|k IH]; intros fuel it s Hfuel Hit Hlt Hbusy Hready;
    (destruct fuel as [|fuel]; [lia|]);
    rewrite lcd_busyWait_step;
    destruct (lcd_poll_fields s) as (Hb & _ & Hr & Hd & _ & Ht);
    (assert (Hu : u16 (it + 1) = it + 1) by (unfold u16; apply Z.mod_small; lia));
    rewrite Hu; unfold LCD_BUSY_TIMEOUT;
    (destruct (Z.eqb_spec (it + 1) 2000) as [E|_]; [lia|]); rewrite Hb.
  - rewrite Hready. eexists; split; [reflexivity|].
    repeat apply conj; [lia|exact Hd|].
    rewrite Ht. cbn. rewrite ?app_nil_r. reflexivity.
  - rewrite (Hbusy 0%nat) by lia.
    destruct (IH fuel (it + 1) (lcd_poll s).2) as (s' & E & Hr' & Hd' & Ht');
      [lia|lia|lia| | |].
    + intros j Hj. rewrite busy_at_poll. apply Hbusy. lia.
    + rewrite busy_at_poll. exact Hready.
    + exists s'. split; [exact E|]. repeat apply conj; [lia|exact Hd'|].
      rewrite Ht', Ht, <- app_assoc. reflexivity.
Qed.

Lemma lcd_busyWait_timeout n : forall fuel it s,
  (n < fuel)%nat -> 0 <= it -> it + Z.of_nat n + 1 = LCD_BUSY_TIMEOUT ->
  (forall j, (j < n)%nat -> busy_at s j = true) ->
  exists s', lcd_busyWait fuel it s = (false, s') /\
    pin_reads s' = (pin_reads s + S n)%nat /\
    LCD_PORT_DDR s' = 0xF0 /\
    port_trace s' = port_trace s ++ mjoin (replicate (S n) poll_cycle) ++ [0x6F; 0x4F].
Proof.
  unfold LCD_BUSY_TIMEOUT.
  induction n as [|n IH]; intros fuel it s Hfuel Hit Hlt Hbusy;
    (destruct fuel as [|fuel]; [lia|]);
    rewrite lcd_busyWait_step;
    destruct (lcd_poll_fields s) as (Hb & _ & Hr & Hd & Hp & Ht);
    (assert (Hu : u16 (it + 1) = it + 1) by (unfold u16; apply Z.mod_small; lia));
    rewrite Hu; unfold LCD_BUSY_TIMEOUT.
  - destruct (Z.eqb_spec (it + 1) 2000) as [_|E]; [|lia].
    eexists; split; [reflexivity|].
    destruct (lcd_enable_fields (lcd_poll s).2) as (_ & Hr' & Hd' & _ & Ht').
    repeat apply conj; [lia|congruence|].
    rewrite Ht', Ht, Hp. cbn. rewrite ?app_nil_r, <- ?app_assoc. reflexivity.
  - destruct (Z.eqb_spec (it + 1) 2000) as [E|_]; [lia|]. rewrite Hb.
    rewrite (Hbusy 0%nat) by lia.
    destruct (IH fuel (it + 1) (lcd_poll s).2) as (s' & E & Hr' & Hd' & Ht');
      [lia|lia|lia| |].
    + intros j Hj. rewrite busy_at_poll. apply Hbusy. lia.
    + exists s'. split; [exact E|]. repeat apply conj; [lia|exact Hd'|].
      rewrite Ht', Ht, <- !app_assoc. reflexivity.
Qed.





Lemma lcd_sendStream_ready firstByte secondByte s k :
  (k < 1999)%nat ->
  (forall j, (j < k)%nat -> busy_at s j = true) ->
  busy_at s k = false ->
  port_trace (lcd_sendStream firstByte secondByte s)
    = port_trace s ++ mjoin (replicate (S k) poll_cycle)
        ++ strobe firstByte ++ strobe secondByte /\
  pin_reads (lcd_sendStream firstByte secondByte s) = (pin_reads s + S k)%nat /\
  LCD_PORT_DDR (lcd_sendStream firstByte secondByte s) = 0xFF.
Proof.
  intros Hk Hbusy Hready.
  destruct (lcd_busyWait_ready k (Z.to_nat LCD_BUSY_TIMEOUT) 0 (cli s))
    as (s' & E & Hr & Hd & Ht);
    [unfold LCD_BUSY_TIMEOUT; lia|lia|unfold LCD_BUSY_TIMEOUT; lia
    |exact Hbusy|exact Hready|].
  unfold lcd_sendStream. rewrite E.
  unfold lcd_enable, strobe. cbn -[sbi cbi u8 Z.shiftl mjoin replicate].
  repeat apply conj; [|exact Hr|reflexivity].
  rewrite Ht. cbn [cli port_trace set_SREG]. rewrite <- !app_assoc. reflexivity.
Qed.

(** lcd.c, lcd_sendStream: when the busy flag clears at the
    [k+1]-th poll, k < 1999, the port shows [k+1] poll rounds and then the
    two bytes, each clocked in with one enable pulse; the data direction
    register is left at output. *)
Theorem lcd_sendStream_transmits firstByte secondByte s k :
  (k < 1999)%nat ->
  (forall j, (j < k)%nat -> busy_at s j = true) ->
  busy_at s k = false ->
  port_trace (lcd_sendStream firstByte secondByte s)
    = port_trace s ++ mjoin (replicate (S k) poll_cycle)
        ++ strobe firstByte ++ strobe secondByte /\
  pin_reads (lcd_sendStream firstByte secondByte s) = (pin_reads s + S k)%nat /\
  LCD_PORT_DDR (lcd_sendStream firstByte secondByte s) = 0xFF.
Proof. apply lcd_sendStream_ready. Qed.

Lemma lcd_sendStream_transmits_witness :
  port_trace (lcd_sendStream 3 8 idle_lcd)
    = port_trace idle_lcd ++ mjoin (replicate 1 poll_cycle) ++ strobe 3 ++ strobe 8 /\
  pin_reads (lcd_sendStream 3 8 idle_lcd) = (pin_reads idle_lcd + 1)%nat /\
  LCD_PORT_DDR (lcd_sendStream 3 8 idle_lcd) = 0xFF.
Proof.
  apply (lcd_sendStream_transmits 3 8 idle_lcd 0);
    [lia|intros j Hj; lia|reflexivity].
Defined.

(** lcd.c, lcd_sendStream: when the busy flag is set at the first
    1999 polls, the function polls once more, ignores what that poll shows,
    pulses enable and returns: neither byte reaches the port, and the data
    direction register stays as the poll left it. *)
Theorem lcd_sendStream_gives_up firstByte secondByte s :
  (forall j, (j < 1999)%nat -> busy_at s j = true) ->
  port_trace (lcd_sendStream firstByte secondByte s)
    = port_trace s ++ mjoin (replicate 2000 poll_cycle) ++ [0x6F; 0x4F] /\
  pin_reads (lcd_sendStream firstByte secondByte s) = (pin_reads s + 2000)%nat /\
  LCD_PORT_DDR (lcd_sendStream firstByte secondByte s) = 0xF0.
Proof.
  intros Hbusy.
  destruct (lcd_busyWait_timeout 1999 (Z.to_nat LCD_BUSY_TIMEOUT) 0 (cli s))
    as (s' & E & Hr & Hd & Ht);
    [unfold LCD_BUSY_TIMEOUT; lia|lia|unfold LCD_BUSY_TIMEOUT; lia|exact Hbusy|].
  unfold lcd_sendStream. rewrite E.
  cbn -[sbi cbi u8 Z.shiftl mjoin replicate].
  repeat apply conj; [|exact Hr|exact Hd].
  rewrite Ht. reflexivity.
Qed.

Lemma lcd_sendStream_gives_up_witness :
  port_trace (lcd_sendStream 3 8 stuck_lcd)
    = port_trace stuck_lcd ++ mjoin (replicate 2000 poll_cycle) ++ [0x6F; 0x4F] /\
  pin_reads (lcd_sendStream 3 8 stuck_lcd) = (pin_reads stuck_lcd + 2000)%nat /\
  LCD_PORT_DDR (lcd_sendStream 3 8 stuck_lcd) = 0xF0.
Proof.
  apply (lcd_sendStream_gives_up 3 8 stuck_lcd). intros j Hj. reflexivity.
Defined.

End lcd_transfer.

(** ** lcd.c: cursor positioning *)

Ltac case_range c lo n :=
  lazymatch n with
  | O => exfalso; lia
  | S ?n' =>
      destruct (Z.eq_dec c lo) as [->|?];
      [|let lo' := eval compute in (lo + 1) in case_range c lo' n']
  end.

Section lcd_cursor.
Import lcd.

Lemma lcd_sendStream_vars firstByte secondByte s :
  charCtr (lcd_sendStream firstByte secondByte s) = charCtr s /\
  codePoint (lcd_sendStream firstByte secondByte s) = codePoint s /\
  expectedBytes (lcd_sendStream firstByte secondByte s) = expectedBytes s /\
  LCD_PIN (lcd_sendStream firstByte secondByte s) = LCD_PIN s.
Proof.
  unfold lcd_sendStream.
  pose proof (lcd_busyWait_frame (Z.to_nat LCD_BUSY_TIMEOUT) 0 (cli s)) as Hf.
  destruct (lcd_busyWait (Z.to_nat LCD_BUSY_TIMEOUT) 0 (cli s)) as [ready s'].
  destruct Hf as (H1 & H2 & H3 & _ & H5). cbn [snd] in *.
  destruct ready; unfold lcd_enable; cbn -[sbi cbi u8 Z.shiftl];
    repeat apply conj; assumption.
Qed.

Lemma clamp_u8 lim x :
  0 <= lim < 255 -> 0 <= x < 256 ->
  (if lim <? u8 (x - 1) then 0 else u8 (x - 1))
    = (if (1 <=? x) && (x <=? lim + 1) then x - 1 else 0).
Proof.
  intros Hl Hx. unfold u8.
  destruct (Z.eq_dec x 0) as [->|Hn].
  - change ((0 - 1) mod 256) with 255.
    destruct (Z.ltb_spec lim 255); [reflexivity|lia].
  - rewrite (Z.mod_small (x - 1)) by lia.
    destruct (Z.ltb_spec lim (x - 1)), (Z.leb_spec 1 x), (Z.leb_spec x (lim + 1));
      cbn; lia.
Qed.

Lemma lcd_goto_eq row column s :
  0 <= row < 256 -> 0 <= column < 256 ->
  let r := if (1 <=? row) && (row <=? 2) then row - 1 else 0 in
  let c := if (1 <=? column) && (column <=? 16) then column - 1 else 0 in
  lcd_goto row column s = lcd_sendStream (8 + 4 * r) c (set_charCtr (16 * r + c) s).
Proof.
  intros Hrow Hcol r c. unfold lcd_goto, lcd_command.
  rewrite (clamp_u8 1 row), (clamp_u8 15 column) by lia.
  change (1 + 1) with 2. change (15 + 1) with 16. fold r c.
  assert (Hr : 0 <= r < 2).
  { subst r. destruct (Z.leb_spec 1 row), (Z.leb_spec row 2); cbn; lia. }
  assert (Hc : 0 <= c < 16).
  { subst c. destruct (Z.leb_spec 1 column), (Z.leb_spec column 16); cbn; lia. }
  clearbody r c. clear Hrow Hcol.
  case_range r 0 2%nat; case_range c 0 16%nat; reflexivity.
Qed.

(** lcd.c, lcd_goto: a row outside 1..2 or a column outside 1..16 is
    not an error but is replaced by the first row or column; with row r and
    column c counted from 0 after that, [charCtr] becomes 16 r + c and the
    command 0x80 + 0x40 r + c goes to the display as the nibbles 8 + 4 r
    and c. *)
Theorem lcd_goto_clamps row column s :
  0 <= row < 256 -> 0 <= column < 256 ->
  let r := if (1 <=? row) && (row <=? 2) then row - 1 else 0 in
  let c := if (1 <=? column) && (column <=? 16) then column - 1 else 0 in
  lcd_goto row column s = lcd_sendStream (8 + 4 * r) c (set_charCtr (16 * r + c) s).
Proof. apply lcd_goto_eq. Qed.

Lemma lcd_goto_clamps_witness :
  lcd_goto 3 17 idle_lcd = lcd_sendStream (8 + 4 * 0) 0 (set_charCtr (16 * 0 + 0) idle_lcd).
Proof. apply (lcd_goto_clamps 3 17 idle_lcd); lia. Defined.

Lemma lcd_goto_charCtr row column s :
  charCtr (lcd_goto row column s) =
    u8 ((if 1 <? u8 (row - 1) then 0 else u8 (row - 1)) * 16
        + (if 15 <? u8 (column - 1) then 0 else u8 (column - 1))).
Proof.
  unfold lcd_goto, lcd_command.
  destruct (lcd_sendStream_vars
    (Z.land (Z.shiftr (u8 (LCD_CURSOR_MOVE_R
       + (if 15 <? u8 (column - 1) then 0 else u8 (column - 1))
       + (if 1 <? u8 (row - 1) then 0 else u8 (row - 1)) * LCD_NEXT_ROW)) 4) 15)
    (Z.land (u8 (LCD_CURSOR_MOVE_R
       + (if 15 <? u8 (column - 1) then 0 else u8 (column - 1))
       + (if 1 <? u8 (row - 1) then 0 else u8 (row - 1)) * LCD_NEXT_ROW)) 15)
    (set_charCtr (u8 ((if 1 <? u8 (row - 1) then 0 else u8 (row - 1)) * 16
        + (if 15 <? u8 (column - 1) then 0 else u8 (column - 1)))) s)) as (H & _).
  exact H.
Qed.

(** lcd.c, lcd_back, lcd_forward, lcd_home: with [charCtr] in its
    range 0..32, [lcd_back] stops at position 0, [lcd_forward] steps modulo
    32 (so from 31 to 0 and from 32 to 1), and [lcd_home] goes to the start
    of the current line, which for the value 32 is line 1. *)
Theorem lcd_cursor_moves s :
  0 <= charCtr s <= 32 ->
  charCtr (lcd_back s) = Z.max 0 (charCtr s - 1) /\
  charCtr (lcd_forward s) = (charCtr s + 1) mod 32 /\
  charCtr (lcd_home s) = 16 * ((charCtr s / 16) mod 2).
Proof.
  intros Hc. unfold lcd_back, lcd_forward, lcd_home.
  rewrite !lcd_goto_charCtr.
  generalize dependent (charCtr s). intros n Hn.
  case_range n 0 33%nat; repeat apply conj; reflexivity.
Qed.

Lemma lcd_cursor_moves_witness :
  charCtr (lcd_back idle_lcd) = Z.max 0 (charCtr idle_lcd - 1) /\
  charCtr (lcd_forward idle_lcd) = (charCtr idle_lcd + 1) mod 32 /\
  charCtr (lcd_home idle_lcd) = 16 * ((charCtr idle_lcd / 16) mod 2).
Proof. apply (lcd_cursor_moves idle_lcd). cbn. lia. Defined.

End lcd_cursor.

(** ** lcd.c: writing characters *)

Section lcd_write.
Import lcd.

Lemma forall_range (P : Z -> bool) lo n :
  forallb P (seqZ lo n) = true -> forall x, lo <= x < lo + n -> P x = true.
Proof.
  intros H x Hx. rewrite forallb_forall in H. apply H.
  apply list_elem_of_In, elem_of_seqZ. lia.
Qed.

Lemma lcd_sendStream_always_ready a b s :
  always_ready s ->
  always_ready (lcd_sendStream a b s) /\
  port_trace (lcd_sendStream a b s) = port_trace s ++ transfer a b.
Proof.
  intros Hr.
  destruct (lcd_sendStream_ready a b s 0) as (Ht & Hp & _);
    [lia|intros j Hj; lia|apply Hr|].
  destruct (lcd_sendStream_vars a b s) as (_ & _ & _ & Hpin).
  split.
  - intros j. unfold busy_at. rewrite Hpin, Hp.
    replace (pin_reads s + 1 + j)%nat with (pin_reads s + (1 + j))%nat by lia.
    apply Hr.
  - rewrite Ht. reflexivity.
Qed.

Lemma set_charCtr_proj v s :
  charCtr (set_charCtr v s) = v /\ codePoint (set_charCtr v s) = codePoint s /\
  expectedBytes (set_charCtr v s) = expectedBytes s /\
  port_trace (set_charCtr v s) = port_trace s.
Proof. repeat apply conj; reflexivity. Qed.

Lemma set_SREG_proj v s :
  charCtr (set_SREG v s) = charCtr s /\ codePoint (set_SREG v s) = codePoint s /\
  expectedBytes (set_SREG v s) = expectedBytes s /\
  port_trace (set_SREG v s) = port_trace s /\ SREG (set_SREG v s) = v.
Proof. repeat apply conj; reflexivity. Qed.

Lemma lcd_command_vars command s :
  charCtr (lcd_command command s) = charCtr s /\
  codePoint (lcd_command command s) = codePoint s /\
  expectedBytes (lcd_command command s) = expectedBytes s.
Proof.
  unfold lcd_command.
  destruct (lcd_sendStream_vars (Z.land (Z.shiftr command 4) 15)
              (Z.land command 15) s) as (H1 & H2 & H3 & _).
  repeat apply conj; assumption.
Qed.

Lemma lcd_line2_vars s :
  charCtr (lcd_line2 s) = 16 /\ codePoint (lcd_line2 s) = codePoint s /\
  expectedBytes (lcd_line2 s) = expectedBytes s.
Proof.
  unfold lcd_line2.
  destruct (set_charCtr_proj 16 (lcd_command LCD_LINE_2 s)) as (A1 & A2 & A3 & _).
  destruct (lcd_command_vars LCD_LINE_2 s) as (_ & B2 & B3).
  rewrite A1, A2, A3, B2, B3. repeat apply conj; reflexivity.
Qed.

Lemma lcd_line1_clear_vars s :
  charCtr (lcd_line1 (lcd_clear s)) = 0 /\
  codePoint (lcd_line1 (lcd_clear s)) = codePoint s /\
  expectedBytes (lcd_line1 (lcd_clear s)) = expectedBytes s.
Proof.
  unfold lcd_line1.
  destruct (set_charCtr_proj 0 (lcd_command LCD_LINE_1 (lcd_clear s)))
    as (A1 & A2 & A3 & _).
  destruct (lcd_command_vars LCD_LINE_1 (lcd_clear s)) as (_ & B2 & B3).
  rewrite A1, A2, A3, B2, B3. unfold lcd_clear.
  destruct (lcd_command_vars LCD_CLEAR (set_charCtr 0 s)) as (_ & C2 & C3).
  destruct (set_charCtr_proj 0 s) as (_ & D2 & D3 & _).
  rewrite C2, C3, D2, D3. repeat apply conj; reflexivity.
Qed.

Lemma lcd_decode_charCtr c s : charCtr (lcd_decode c s) = charCtr s.
Proof. unfold lcd_decode. repeat case_match; reflexivity. Qed.

Lemma lcd_decode_cli c s :
  codePoint (lcd_decode c (cli s)) = codePoint (lcd_decode c s) /\
  expectedBytes (lcd_decode c (cli s)) = expectedBytes (lcd_decode c s).
Proof.
  unfold lcd_decode.
  change (expectedBytes (cli s)) with (expectedBytes s).
  repeat case_match; split; reflexivity.
Qed.

Lemma lcd_lineChange_vars s :
  charCtr (lcd_lineChange s)
    = (if codePoint s =? 10 then (if charCtr s <? 16 then 16 else 0)
       else if charCtr s =? 32 then 0 else charCtr s) /\
  codePoint (lcd_lineChange s) = codePoint s /\
  expectedBytes (lcd_lineChange s) = expectedBytes s.
Proof.
  unfold lcd_lineChange.
  destruct (codePoint s =? 10).
  - destruct (Z.ltb_spec (charCtr s) 16).
    + destruct (set_charCtr_proj 16 s) as (A1 & A2 & A3 & _).
      destruct (lcd_line2_vars (set_charCtr 16 s)) as (B1 & B2 & B3).
      rewrite A1. change (16 =? 16) with true. cbv iota.
      rewrite B1, B2, B3, A2, A3. repeat apply conj; reflexivity.
    + destruct (set_charCtr_proj 32 s) as (A1 & A2 & A3 & _).
      destruct (lcd_line1_clear_vars (set_charCtr 32 s)) as (B1 & B2 & B3).
      rewrite A1. change (32 =? 16) with false. change (32 =? 32) with true.
      cbv iota. rewrite B1, B2, B3, A2, A3. repeat apply conj; reflexivity.
  - destruct (Z.eqb_spec (charCtr s) 16) as [E|N].
    + destruct (lcd_line2_vars s) as (B1 & B2 & B3).
      rewrite B1, B2, B3, E. repeat apply conj; reflexivity.
    + destruct (Z.eqb_spec (charCtr s) 32) as [E|N'].
      * destruct (lcd_line1_clear_vars s) as (B1 & B2 & B3).
        rewrite B1, B2, B3. repeat apply conj; reflexivity.
      * repeat apply conj; reflexivity.
Qed.

Lemma lcd_print_vars c s :
  charCtr (lcd_print c s) = u8 (charCtr s + 1) /\
  codePoint (lcd_print c s) = codePoint s /\
  expectedBytes (lcd_print c s) = expectedBytes s.
Proof.
  unfold lcd_print.
  set (a := Z.lor 16 (Z.shiftr (Z.land (lcd_remap (codePoint s) c) 240) 4)).
  set (b := Z.lor 16 (Z.land (lcd_remap (codePoint s) c) 15)).
  destruct (lcd_sendStream_vars a b s) as (B1 & B2 & B3 & _).
  destruct (set_charCtr_proj (u8 (charCtr (lcd_sendStream a b s) + 1))
              (lcd_sendStream a b s)) as (A1 & A2 & A3 & _).
  rewrite A1, A2, A3, B1, B2, B3. repeat apply conj; reflexivity.
Qed.

Lemma lcd_writeChar_vars c s :
  charCtr (lcd_writeChar c s)
    = (if negb (expectedBytes (lcd_decode c s) =? 0) then charCtr s
       else if codePoint (lcd_decode c s) =? 10
            then (if charCtr s <? 16 then 16 else 0)
            else u8 ((if charCtr s =? 32 then 0 else charCtr s) + 1)) /\
  codePoint (lcd_writeChar c s) = codePoint (lcd_decode c s) /\
  expectedBytes (lcd_writeChar c s) = expectedBytes (lcd_decode c s) /\
  SREG (lcd_writeChar c s) = SREG s.
Proof.
  destruct (lcd_decode_cli c s) as (Hcp & Heb).
  pose proof (lcd_decode_charCtr c (cli s)) as Hcc.
  change (charCtr (cli s)) with (charCtr s) in Hcc.
  rewrite <- Hcp, <- Heb, <- Hcc.
  unfold lcd_writeChar.
  destruct (set_SREG_proj (SREG s) (lcd_writeChar_body c (cli s)))
    as (A1 & A2 & A3 & _ & A5).
  rewrite A1, A2, A3, A5. clear A1 A2 A3 A5.
  unfold lcd_writeChar_body.
  generalize (lcd_decode c (cli s)). intros d.
  destruct (expectedBytes d =? 0); cbn [negb].
  2: { repeat apply conj; reflexivity. }
  destruct (lcd_lineChange_vars d) as (L1 & L2 & L3).
  rewrite L2. destruct (codePoint d =? 10).
  - rewrite L1, L2, L3. repeat apply conj; reflexivity.
  - destruct (lcd_print_vars c (lcd_lineChange d)) as (P1 & P2 & P3).
    rewrite P1, P2, P3, L1, L2, L3. repeat apply conj; reflexivity.
Qed.

Lemma always_ready_set_charCtr v s : always_ready s -> always_ready (set_charCtr v s).
Proof. intros H j. exact (H j). Qed.

Lemma always_ready_set_SREG v s : always_ready s -> always_ready (set_SREG v s).
Proof. intros H j. exact (H j). Qed.

Lemma always_ready_unset_SREG v s : always_ready (set_SREG v s) -> always_ready s.
Proof. intros H j. exact (H j). Qed.

Lemma lcd_command_ready command s :
  always_ready s ->
  always_ready (lcd_command command s) /\
  port_trace (lcd_command command s)
    = port_trace s ++ transfer (Z.land (Z.shiftr command 4) 15) (Z.land command 15).
Proof. intros H. unfold lcd_command. apply lcd_sendStream_always_ready. exact H. Qed.

Lemma lcd_line2_ready s :
  always_ready s ->
  always_ready (lcd_line2 s) /\
  port_trace (lcd_line2 s) = port_trace s ++ transfer 12 0.
Proof.
  intros H. unfold lcd_line2.
  destruct (lcd_command_ready LCD_LINE_2 s H) as (R & T).
  destruct (set_charCtr_proj 16 (lcd_command LCD_LINE_2 s)) as (_ & _ & _ & A).
  split; [apply always_ready_set_charCtr; exact R|].
  rewrite A, T. reflexivity.
Qed.

Lemma lcd_line1_clear_ready s :
  always_ready s ->
  always_ready (lcd_line1 (lcd_clear s)) /\
  port_trace (lcd_line1 (lcd_clear s))
    = port_trace s ++ transfer 0 1 ++ transfer 8 0.
Proof.
  intros H. unfold lcd_line1.
  assert (Hc : always_ready (lcd_clear s) /\
               port_trace (lcd_clear s) = port_trace s ++ transfer 0 1).
  { unfold lcd_clear.
    destruct (lcd_command_ready LCD_CLEAR (set_charCtr 0 s)
                (always_ready_set_charCtr 0 s H)) as (R & T).
    split; [exact R|]. rewrite T.
    destruct (set_charCtr_proj 0 s) as (_ & _ & _ & A). rewrite A. reflexivity. }
  destruct Hc as (Rc & Tc).
  destruct (lcd_command_ready LCD_LINE_1 (lcd_clear s) Rc) as (R & T).
  destruct (set_charCtr_proj 0 (lcd_command LCD_LINE_1 (lcd_clear s)))
    as (_ & _ & _ & A).
  split; [apply always_ready_set_charCtr; exact R|].
  rewrite A, T, Tc, <- app_assoc. reflexivity.
Qed.

Lemma lcd_lineChange_ready s :
  always_ready s ->
  always_ready (lcd_lineChange s) /\
  port_trace (lcd_lineChange s)
    = port_trace s ++ line_change (codePoint s =? 10) (charCtr s).
Proof.
  intros H. unfold lcd_lineChange, line_change.
  destruct (codePoint s =? 10).
  - destruct (Z.ltb_spec (charCtr s) 16).
    + destruct (set_charCtr_proj 16 s) as (A1 & _ & _ & A4).
      rewrite A1. change (16 =? 16) with true. cbv iota.
      destruct (lcd_line2_ready (set_charCtr 16 s)
                  (always_ready_set_charCtr 16 s H)) as (R & T).
      split; [exact R|]. rewrite T, A4. reflexivity.
    + destruct (set_charCtr_proj 32 s) as (A1 & _ & _ & A4).
      rewrite A1. change (32 =? 16) with false. change (32 =? 32) with true.
      cbv iota.
      destruct (lcd_line1_clear_ready (set_charCtr 32 s)
                  (always_ready_set_charCtr 32 s H)) as (R & T).
      split; [exact R|]. rewrite T, A4. reflexivity.
  - destruct (charCtr s =? 16).
    + apply lcd_line2_ready. exact H.
    + destruct (charCtr s =? 32).
      * apply lcd_line1_clear_ready. exact H.
      * split; [exact H|]. rewrite app_nil_r. reflexivity.
Qed.

Lemma lcd_print_ready c s :
  always_ready s ->
  always_ready (lcd_print c s) /\
  port_trace (lcd_print c s)
    = port_trace s ++ send_char (lcd_remap (codePoint s) c).
Proof.
  intros H. unfold lcd_print, send_char.
  set (a := Z.lor 16 (Z.shiftr (Z.land (lcd_remap (codePoint s) c) 240) 4)).
  set (b := Z.lor 16 (Z.land (lcd_remap (codePoint s) c) 15)).
  destruct (lcd_sendStream_always_ready a b s H) as (R & T).
  destruct (set_charCtr_proj (u8 (charCtr (lcd_sendStream a b s) + 1))
              (lcd_sendStream a b s)) as (_ & _ & _ & A).
  split; [apply always_ready_set_charCtr; exact R|].
  rewrite A, T. reflexivity.
Qed.

Lemma lcd_decode_ready c s :
  always_ready s ->
  always_ready (lcd_decode c (cli s)) /\
  port_trace (lcd_decode c (cli s)) = port_trace s.
Proof.
  intros H. unfold lcd_decode.
  repeat case_match; (split; [intros j; exact (H j)|reflexivity]).
Qed.

(** What a call of [lcd_writeChar] sends to a display that is ready
    whenever it is asked. *)
Lemma lcd_writeChar_ready c s :
  always_ready s ->
  always_ready (lcd_writeChar c s) /\
  port_trace (lcd_writeChar c s)
    = port_trace s ++
      (if negb (expectedBytes (lcd_decode c s) =? 0) then []
       else line_change (codePoint (lcd_decode c s) =? 10) (charCtr s)
            ++ (if codePoint (lcd_decode c s) =? 10 then []
                else send_char (lcd_remap (codePoint (lcd_decode c s)) c))).
Proof.
  intros H.
  destruct (lcd_decode_cli c s) as (Hcp & Heb).
  pose proof (lcd_decode_charCtr c (cli s)) as Hcc.
  change (charCtr (cli s)) with (charCtr s) in Hcc.
  destruct (lcd_decode_ready c s H) as (Rd & Td).
  rewrite <- Hcp, <- Heb, <- Hcc, <- Td.
  unfold lcd_writeChar.
  destruct (set_SREG_proj (SREG s) (lcd_writeChar_body c (cli s)))
    as (_ & _ & _ & A4 & _).
  rewrite A4. clear A4.
  cut (always_ready (lcd_writeChar_body c (cli s)) /\
       port_trace (lcd_writeChar_body c (cli s))
         = port_trace (lcd_decode c (cli s)) ++
           (if negb (expectedBytes (lcd_decode c (cli s)) =? 0) then []
            else line_change (codePoint (lcd_decode c (cli s)) =? 10)
                   (charCtr (lcd_decode c (cli s)))
                 ++ (if codePoint (lcd_decode c (cli s)) =? 10 then []
                     else send_char (lcd_remap (codePoint (lcd_decode c (cli s))) c)))).
  { intros (R & T). split; [apply always_ready_set_SREG; exact R|exact T]. }
  unfold lcd_writeChar_body.
  generalize dependent (lcd_decode c (cli s)). intros d _ _ _ Rd _.
  destruct (expectedBytes d =? 0); cbn [negb].
  2: { split; [exact Rd|]. rewrite app_nil_r. reflexivity. }
  destruct (lcd_lineChange_vars d) as (_ & L2 & _).
  destruct (lcd_lineChange_ready d Rd) as (Rl & Tl).
  rewrite L2. destruct (codePoint d =? 10) eqn:Hn.
  - split; [exact Rl|]. rewrite Tl, ?Hn, app_nil_r. reflexivity.
  - destruct (lcd_print_ready c (lcd_lineChange d) Rl) as (Rp & Tp).
    split; [exact Rp|]. rewrite Tp, Tl, L2, ?Hn, <- app_assoc. reflexivity.
Qed.

Lemma lcd_decode_idle c s :
  expectedBytes s = 0 -> 0 <= c <= 0xFF ->
  codePoint (lcd_decode c s)
    = (if (0x80 <=? c) && (c <=? 0xBF) then 0xE296A1 else c) /\
  expectedBytes (lcd_decode c s)
    = (if c <=? 0xBF then 0 else Z.of_nat (utf8_expected c)).
Proof.
  intros He Hc. unfold lcd_decode, utf8_expected. rewrite He.
  change (0 =? 0) with true. cbv iota.
  destruct (Z.leb_spec c 0x7F), (Z.leb_spec c 0xBF), (Z.leb_spec c 0xDF),
    (Z.leb_spec c 0xEF), (Z.leb_spec c 0xFF), (Z.leb_spec 0x80 c);
    try lia; split; reflexivity.
Qed.

Lemma lcd_decode_pending c s :
  expectedBytes s <> 0 ->
  codePoint (lcd_decode c s)
    = (if (0x80 <=? c) && (c <=? 0xBF)
       then util_c.u32 (Z.lor (Z.shiftl (codePoint s) 8) c) else 0xE296A1) /\
  expectedBytes (lcd_decode c s)
    = (if (0x80 <=? c) && (c <=? 0xBF) then u8 (expectedBytes s - 1) else 0).
Proof.
  intros He. unfold lcd_decode.
  destruct (Z.eqb_spec (expectedBytes s) 0) as [E|_]; [contradiction|].
  destruct ((0x80 <=? c) && (c <=? 0xBF)); split; reflexivity.
Qed.

Lemma lcd_writeChars_cons c text s :
  lcd_writeChars (c :: text) s = lcd_writeChars text (lcd_writeChar c s).
Proof. reflexivity. Qed.

Lemma lcd_writeChar_range c s :
  0 <= charCtr s <= 32 ->
  0 <= charCtr (lcd_writeChar c s) <= 32 /\ SREG (lcd_writeChar c s) = SREG s.
Proof.
  intros Hc. destruct (lcd_writeChar_vars c s) as (H1 & _ & _ & H4).
  split; [|exact H4]. rewrite H1.
  destruct (negb (expectedBytes (lcd_decode c s) =? 0)); [exact Hc|].
  destruct (codePoint (lcd_decode c s) =? 10).
  - destruct (charCtr s <? 16); lia.
  - unfold u8. destruct (Z.eqb_spec (charCtr s) 32).
    + change ((0 + 1) mod 256) with 1. lia.
    + rewrite Z.mod_small by lia. lia.
Qed.

(** lcd.c, lcd_writeString, lcd_writeProgString, lcd_writeChar:
    whatever bytes a string holds and whatever the decoder was in the
    middle of, [charCtr] stays in 0..32, as its comment says, and the
    status register is the same after the call as before. *)
Theorem lcd_writeString_keeps_range text : forall s,
  0 <= charCtr s <= 32 ->
  0 <= charCtr (lcd_writeString text s) <= 32 /\
  SREG (lcd_writeString text s) = SREG s.
Proof.
  induction text as [|c text IH]; intros s Hc; cbn [lcd_writeString].
  - split; [exact Hc|reflexivity].
  - destruct (c =? 0); [split; [exact Hc|reflexivity]|].
    destruct (lcd_writeChar_range c s Hc) as (Hc' & HS).
    destruct (IH (lcd_writeChar c s) Hc') as (Hr & HS').
    split; [exact Hr|congruence].
Qed.

Lemma lcd_writeString_keeps_range_witness :
  0 <= charCtr (lcd_writeString [72; 105; 0] idle_lcd) <= 32 /\
  SREG (lcd_writeString [72; 105; 0] idle_lcd) = SREG idle_lcd.
Proof. apply (lcd_writeString_keeps_range [72; 105; 0] idle_lcd). cbn. lia. Defined.

Lemma lcd_remap_ascii c :
  0 <= c <= 0x7F ->
  lcd_remap c c
    = (if c =? 0x5C then LCD_CC_BACKSLASH else if c =? 0x7E then LCD_CC_TILDE else c).
Proof.
  intros Hc. apply Z.eqb_eq.
  apply (forall_range
           (fun c => lcd_remap c c =?
              (if c =? 0x5C then LCD_CC_BACKSLASH
               else if c =? 0x7E then LCD_CC_TILDE else c)) 0 128);
    [vm_compute; reflexivity|lia].
Qed.

Lemma charCtr_step n :
  0 <= n <= 32 -> u8 ((if n =? 32 then 0 else n) + 1) = n mod 32 + 1.
Proof.
  intros Hn. unfold u8. destruct (Z.eqb_spec n 32) as [->|N]; [reflexivity|].
  rewrite (Z.mod_small n 32), Z.mod_small by lia. reflexivity.
Qed.

(** lcd.c, lcd_writeChar: an ASCII character written while no UTF-8
    sequence is open.  A newline prints nothing: it moves to line 2, or
    from line 2 clears the display and moves to line 1.  Any other
    character is printed at the position after a pending line change and
    advances [charCtr] by one; the backslash and the tilde go out as the
    custom characters 2 and 1, every other character as its own code. *)
Theorem lcd_writeChar_ascii c s :
  0 <= c <= 0x7F -> expectedBytes s = 0 -> 0 <= charCtr s <= 32 ->
  always_ready s ->
  charCtr (lcd_writeChar c s)
    = (if c =? 10 then (if charCtr s <? 16 then 16 else 0)
       else charCtr s mod 32 + 1) /\
  expectedBytes (lcd_writeChar c s) = 0 /\
  port_trace (lcd_writeChar c s)
    = port_trace s ++ line_change (c =? 10) (charCtr s)
        ++ (if c =? 10 then []
            else send_char (if c =? 0x5C then LCD_CC_BACKSLASH
                            else if c =? 0x7E then LCD_CC_TILDE else c)).
Proof.
  intros Hc He Hn Hr.
  destruct (lcd_decode_idle c s He) as (Dc & De); [lia|].
  destruct (Z.leb_spec 0x80 c); [lia|]. cbn [andb] in Dc.
  destruct (Z.leb_spec c 0xBF); [|lia].
  destruct (lcd_writeChar_vars c s) as (V1 & _ & V3 & _).
  destruct (lcd_writeChar_ready c s Hr) as (_ & T).
  rewrite V1, V3, T, De, Dc. change (negb (0 =? 0)) with false. cbv iota.
  rewrite charCtr_step, lcd_remap_ascii by lia.
  repeat apply conj; reflexivity.
Qed.

Lemma lcd_writeChar_ascii_witness :
  charCtr (lcd_writeChar 65 idle_lcd)
    = (if 65 =? 10 then (if charCtr idle_lcd <? 16 then 16 else 0)
       else charCtr idle_lcd mod 32 + 1) /\
  expectedBytes (lcd_writeChar 65 idle_lcd) = 0 /\
  port_trace (lcd_writeChar 65 idle_lcd)
    = port_trace idle_lcd ++ line_change (65 =? 10) (charCtr idle_lcd)
        ++ (if 65 =? 10 then []
            else send_char (if 65 =? 0x5C then LCD_CC_BACKSLASH
                            else if 65 =? 0x7E then LCD_CC_TILDE else 65)).
Proof.
  apply (lcd_writeChar_ascii 65 idle_lcd);
    [lia|reflexivity|cbn; lia|intros j; reflexivity].
Defined.

Lemma lcd_writeChar_incomplete c s :
  expectedBytes (lcd_decode c s) <> 0 -> always_ready s ->
  charCtr (lcd_writeChar c s) = charCtr s /\
  port_trace (lcd_writeChar c s) = port_trace s /\
  always_ready (lcd_writeChar c s).
Proof.
  intros He Hr.
  destruct (lcd_writeChar_vars c s) as (V1 & _).
  destruct (lcd_writeChar_ready c s Hr) as (R & T).
  rewrite V1, T.
  destruct (Z.eqb_spec (expectedBytes (lcd_decode c s)) 0) as [E|_]; [contradiction|].
  cbn [negb]. rewrite app_nil_r. repeat apply conj; [reflexivity|reflexivity|exact R].
Qed.

Lemma lcd_writeChar_complete c s :
  expectedBytes (lcd_decode c s) = 0 -> codePoint (lcd_decode c s) <> 10 ->
  0 <= charCtr s <= 32 -> always_ready s ->
  charCtr (lcd_writeChar c s) = charCtr s mod 32 + 1 /\
  expectedBytes (lcd_writeChar c s) = 0 /\
  port_trace (lcd_writeChar c s)
    = port_trace s ++ line_change false (charCtr s)
        ++ send_char (lcd_remap (codePoint (lcd_decode c s)) c) /\
  always_ready (lcd_writeChar c s).
Proof.
  intros He Hn Hc Hr.
  destruct (lcd_writeChar_vars c s) as (V1 & _ & V3 & _).
  destruct (lcd_writeChar_ready c s Hr) as (R & T).
  rewrite V1, V3, T, He. change (negb (0 =? 0)) with false. cbv iota.
  destruct (Z.eqb_spec (codePoint (lcd_decode c s)) 10) as [E|_]; [contradiction|].
  rewrite charCtr_step by lia. repeat apply conj; [reflexivity..|exact R].
Qed.

Lemma lcd_writeChars_continuation conts : forall s,
  conts <> [] -> (length conts <= 3)%nat ->
  Forall (fun c => 0x80 <= c <= 0xBF) conts ->
  expectedBytes s = Z.of_nat (length conts) ->
  0 <= codePoint s ->
  (codePoint s + 1) * 256 ^ Z.of_nat (length conts) <= 4294967296 ->
  0 <= charCtr s <= 32 -> always_ready s ->
  port_trace (lcd_writeChars (removelast conts) s) = port_trace s /\
  charCtr (lcd_writeChars conts s) = charCtr s mod 32 + 1 /\
  expectedBytes (lcd_writeChars conts s) = 0 /\
  port_trace (lcd_writeChars conts s)
    = port_trace s ++ line_change false (charCtr s)
        ++ send_char (lcd_remap (utf8_code (codePoint s) conts) (List.last conts 0)) /\
  always_ready (lcd_writeChars conts s).
Proof.
  induction conts as [|c rest IH]; intros s Hne Hlen Hall He Hcp Hb Hc Hr;
    [contradiction|].
  apply Forall_cons in Hall as [Hcont Hall].
  cbn [length] in He, Hb, Hlen.
  rewrite Nat2Z.inj_succ in He, Hb. rewrite Z.pow_succ_r in Hb by lia.
  assert (Hp : 0 < 256 ^ Z.of_nat (length rest)) by (apply Z.pow_pos_nonneg; lia).
  destruct (lcd_decode_pending c s) as (Dc & De); [lia|].
  destruct (Z.leb_spec 0x80 c); [|lia]. destruct (Z.leb_spec c 0xBF); [|lia].
  cbn [andb] in Dc, De.
  rewrite lor_shiftl8 in Dc by lia. rewrite u32_small in Dc by nia.
  rewrite He in De. unfold u8 in De. rewrite Z.mod_small in De by lia.
  replace (Z.succ (Z.of_nat (length rest)) - 1) with (Z.of_nat (length rest)) in De
    by lia.
  destruct rest as [|c' rest'].
  - rewrite lcd_writeChars_cons.
    destruct (lcd_writeChar_complete c s) as (R1 & R2 & R3 & R4);
      [exact De|lia|exact Hc|exact Hr|].
    rewrite Dc in R3.
    repeat apply conj; [reflexivity|exact R1|exact R2|exact R3|exact R4].
  - change (removelast (c :: c' :: rest')) with (c :: removelast (c' :: rest')).
    rewrite (lcd_writeChars_cons c (removelast (c' :: rest')) s),
      (lcd_writeChars_cons c (c' :: rest') s).
    destruct (lcd_writeChar_incomplete c s) as (I1 & I2 & I3);
      [rewrite De; cbn [length]; lia|exact Hr|].
    destruct (lcd_writeChar_vars c s) as (_ & V2 & V3 & _).
    rewrite Dc in V2. rewrite De in V3.
    destruct (IH (lcd_writeChar c s)) as (R0 & R1 & R2 & R3 & R4);
      [discriminate|lia|exact Hall|exact V3|lia| |lia|exact I3|].
    { rewrite V2. nia. }
    rewrite I1 in R1, R3. rewrite I2 in R0. rewrite I2, V2 in R3.
    change (utf8_code (codePoint s) (c :: c' :: rest'))
      with (utf8_code (codePoint s * 256 + c) (c' :: rest')).
    change (List.last (c :: c' :: rest') 0) with (List.last (c' :: rest') 0).
    repeat apply conj; [exact R0|exact R1|exact R2|exact R3|exact R4].
Qed.

Lemma lcd_writeChars_utf8 lead conts s :
  0xC0 <= lead <= 0xFF ->
  length conts = utf8_expected lead ->
  Forall (fun c => 0x80 <= c <= 0xBF) conts ->
  expectedBytes s = 0 -> 0 <= charCtr s <= 32 -> always_ready s ->
  port_trace (lcd_writeChars (lead :: removelast conts) s) = port_trace s /\
  charCtr (lcd_writeChars (lead :: conts) s) = charCtr s mod 32 + 1 /\
  expectedBytes (lcd_writeChars (lead :: conts) s) = 0 /\
  port_trace (lcd_writeChars (lead :: conts) s)
    = port_trace s ++ line_change false (charCtr s)
        ++ send_char (lcd_remap (utf8_code lead conts) (List.last conts 0)) /\
  always_ready (lcd_writeChars (lead :: conts) s).
Proof.
  intros Hl Hlen Hall He Hc Hr.
  destruct (lcd_decode_idle lead s He) as (Dc & De); [lia|].
  destruct (Z.leb_spec 0x80 lead); [|lia]. destruct (Z.leb_spec lead 0xBF); [lia|].
  cbn [andb] in Dc.
  assert (Hk : (1 <= utf8_expected lead <= 3)%nat).
  { unfold utf8_expected. destruct (lead <=? 0xDF), (lead <=? 0xEF); lia. }
  destruct (lcd_writeChar_incomplete lead s) as (I1 & I2 & I3);
    [rewrite De; lia|exact Hr|].
  destruct (lcd_writeChar_vars lead s) as (_ & V2 & V3 & _).
  rewrite Dc in V2. rewrite De, <- Hlen in V3.
  rewrite !lcd_writeChars_cons.
  destruct (lcd_writeChars_continuation conts (lcd_writeChar lead s))
    as (R0 & R1 & R2 & R3 & R4);
    [intros ->; cbn in Hlen; lia|lia|exact Hall|exact V3|lia| |lia|exact I3|].
  { rewrite V2, Hlen. unfold utf8_expected.
    destruct (Z.leb_spec lead 0xDF); [|destruct (Z.leb_spec lead 0xEF)].
    - change (256 ^ Z.of_nat 1) with 256. lia.
    - change (256 ^ Z.of_nat 2) with 65536. lia.
    - change (256 ^ Z.of_nat 3) with 16777216. lia. }
  rewrite I1 in R1, R3. rewrite I2 in R0. rewrite I2, V2 in R3.
  repeat apply conj; [exact R0|exact R1|exact R2|exact R3|exact R4].
Qed.

(** lcd.c, lcd_writeChar: a well-formed UTF-8 sequence, a lead byte
    0xC0..0xFF followed by as many continuation bytes 0x80..0xBF as the lead
    byte announces, is printed as one character: nothing goes to the display
    until the last byte, [charCtr] advances by one, and the character code
    sent is [lcd_remap] of the bytes read as one big-endian number (for an
    unmapped code point that is the last byte itself). *)
Theorem lcd_writeChar_utf8_sequence lead conts s :
  0xC0 <= lead <= 0xFF ->
  length conts = utf8_expected lead ->
  Forall (fun c => 0x80 <= c <= 0xBF) conts ->
  expectedBytes s = 0 -> 0 <= charCtr s <= 32 -> always_ready s ->
  port_trace (lcd_writeChars (lead :: removelast conts) s) = port_trace s /\
  charCtr (lcd_writeChars (lead :: conts) s) = charCtr s mod 32 + 1 /\
  expectedBytes (lcd_writeChars (lead :: conts) s) = 0 /\
  port_trace (lcd_writeChars (lead :: conts) s)
    = port_trace s ++ line_change false (charCtr s)
        ++ send_char (lcd_remap (utf8_code lead conts) (List.last conts 0)).
Proof.
  intros Hl Hlen Hall He Hc Hr.
  destruct (lcd_writeChars_utf8 lead conts s Hl Hlen Hall He Hc Hr)
    as (R0 & R1 & R2 & R3 & _).
  repeat apply conj; [exact R0|exact R1|exact R2|exact R3].
Qed.

Lemma lcd_writeChar_utf8_sequence_witness :
  port_trace (lcd_writeChars (0xC3 :: removelast [0xA4]) idle_lcd)
    = port_trace idle_lcd /\
  charCtr (lcd_writeChars (0xC3 :: [0xA4]) idle_lcd) = charCtr idle_lcd mod 32 + 1 /\
  expectedBytes (lcd_writeChars (0xC3 :: [0xA4]) idle_lcd) = 0 /\
  port_trace (lcd_writeChars (0xC3 :: [0xA4]) idle_lcd)
    = port_trace idle_lcd ++ line_change false (charCtr idle_lcd)
        ++ send_char (lcd_remap (utf8_code 0xC3 [0xA4]) (List.last [0xA4] 0)).
Proof.
  apply (lcd_writeChar_utf8_sequence 0xC3 [0xA4] idle_lcd);
    [lia|reflexivity|constructor; [lia|constructor]|reflexivity|cbn; lia
    |intros j; reflexivity].
Defined.



Lemma lcd_writeChars_one c s : lcd_writeChars [c] s = lcd_writeChar c s.
Proof. rewrite lcd_writeChars_cons. reflexivity. Qed.

Lemma lcd_writeChars_app text text' s :
  lcd_writeChars (text ++ text') s = lcd_writeChars text' (lcd_writeChars text s).
Proof. unfold lcd_writeChars. apply foldl_app. Qed.

Lemma lcd_writeString_end text rest : forall s,
  Forall (fun c => c <> 0) text ->
  lcd_writeString (text ++ 0 :: rest) s = lcd_writeChars text s.
Proof.
  induction text as [|c text IH]; intros s Hall.
  - reflexivity.
  - apply Forall_cons in Hall as [Hc Hall].
    change ((c :: text) ++ 0 :: rest) with (c :: (text ++ 0 :: rest)).
    cbn [lcd_writeString].
    destruct (Z.eqb_spec c 0) as [E|_]; [contradiction|].
    rewrite lcd_writeChars_cons. apply IH. exact Hall.
Qed.

(** lcd.c, lcd_writeString, lcd_writeProgString: the characters up
    to the first zero byte are written, one call of [lcd_writeChar] each,
    and nothing after it. *)
Theorem lcd_writeString_terminator text rest s :
  Forall (fun c => c <> 0) text ->
  lcd_writeString (text ++ 0 :: rest) s = lcd_writeChars text s.
Proof. apply lcd_writeString_end. Qed.

Lemma lcd_writeString_terminator_witness :
  lcd_writeString ([72; 105] ++ 0 :: [33]) idle_lcd = lcd_writeChars [72; 105] idle_lcd.
Proof.
  apply (lcd_writeString_terminator [72; 105] [33] idle_lcd).
  repeat constructor; lia.
Defined.

End lcd_write.

(** ** lcd.c: writing numbers *)

Section lcd_numbers.
Import lcd.

Lemma lcd_writeHexNibble_char number s :
  lcd_writeHexNibble number s = lcd_writeChar (hexNibble_char number) s.
Proof.
  unfold lcd_writeHexNibble, hexNibble_char.
  destruct (Z.land number 15 <? 10); reflexivity.
Qed.

Lemma lcd_writeHexByte_chars number s :
  lcd_writeHexByte number s = lcd_writeChars (hexByte_chars number) s.
Proof.
  unfold lcd_writeHexByte, hexByte_chars.
  rewrite !lcd_writeHexNibble_char, !lcd_writeChars_cons. reflexivity.
Qed.

Lemma lcd_writeHexWord_chars number s :
  lcd_writeHexWord number s = lcd_writeChars (hexWord_chars number) s.
Proof.
  unfold lcd_writeHexWord, hexWord_chars.
  rewrite !lcd_writeHexByte_chars, lcd_writeChars_app. reflexivity.
Qed.

Lemma lcd_writeHex_loop_chars fuel : forall nib print number s,
  lcd_writeHex_loop fuel nib print number s
    = lcd_writeChars (hex_loop_chars fuel nib print number) s.
Proof.
  induction fuel as [|fuel IH]; intros nib print number s;
    cbn [lcd_writeHex_loop hex_loop_chars]; [reflexivity|].
  destruct (nib =? 0); [reflexivity|].
  rewrite lcd_writeChars_app, IH.
  destruct (negb (u8 (Z.lor print (Z.shiftr number (u16 (nib - 4)))) =? 0)).
  - rewrite lcd_writeHexNibble_char, lcd_writeChars_one. reflexivity.
  - reflexivity.
Qed.

Lemma lcd_writeHex_chars number s :
  lcd_writeHex number s = lcd_writeChars (hex_chars number) s.
Proof.
  unfold lcd_writeHex, hex_chars. destruct (number =? 0).
  - rewrite lcd_writeChars_one. reflexivity.
  - apply lcd_writeHex_loop_chars.
Qed.

Lemma lcd_writeDec_loop_chars fuel : forall pos print number s,
  lcd_writeDec_loop fuel pos print number s
    = lcd_writeChars (dec_loop_chars fuel pos print number) s.
Proof.
  induction fuel as [|fuel IH]; intros pos print number s;
    cbn [lcd_writeDec_loop dec_loop_chars]; [reflexivity|].
  rewrite lcd_writeChars_app.
  destruct (negb (Z.lor print (u8 (number / pos)) =? 0)).
  - rewrite lcd_writeChars_one. destruct (pos / 10 =? 0); [reflexivity|apply IH].
  - destruct (pos / 10 =? 0); [reflexivity|].
    rewrite IH. reflexivity.
Qed.

Lemma lcd_writeDec_chars number s :
  lcd_writeDec number s = lcd_writeChars (dec_chars number) s.
Proof.
  unfold lcd_writeDec, dec_chars. destruct (number =? 0).
  - rewrite lcd_writeChars_one. reflexivity.
  - apply lcd_writeDec_loop_chars.
Qed.

Lemma all_numbers_spec bits P : forall prefix,
  all_numbers bits P prefix = true ->
  forall x, prefix * 2 ^ Z.of_nat bits <= x < (prefix + 1) * 2 ^ Z.of_nat bits ->
  P x = true.
Proof.
  induction bits as [|bits IH]; intros prefix Hall x Hx.
  - cbn in Hall. change (2 ^ Z.of_nat 0) with 1 in Hx.
    replace x with prefix by lia. exact Hall.
  - cbn [all_numbers] in Hall. apply andb_true_iff in Hall as [H0 H1].
    rewrite Nat2Z.inj_succ, Z.pow_succ_r in Hx by lia.
    assert (Hp : 0 < 2 ^ Z.of_nat bits) by (apply Z.pow_pos_nonneg; lia).
    destruct (Z_lt_ge_dec x ((2 * prefix + 1) * 2 ^ Z.of_nat bits)).
    + apply (IH (2 * prefix) H0). nia.
    + apply (IH (2 * prefix + 1) H1). nia.
Qed.

Lemma all_words P :
  all_numbers 16 P 0 = true -> forall x, 0 <= x < 65536 -> P x = true.
Proof.
  intros Hall x Hx. apply (all_numbers_spec 16 P 0 Hall).
  change (2 ^ Z.of_nat 16) with 65536. lia.
Qed.

Lemma reads_as_spec base digit text number :
  match read_number base digit text with Some m => m =? number | None => false end
    = true ->
  read_number base digit text = Some number.
Proof.
  destruct (read_number base digit text) as [m|]; [|discriminate].
  intros E. apply Z.eqb_eq in E. congruence.
Qed.

Lemma digits_ok_spec base digit longest number digits :
  digits_ok base digit longest number digits = true ->
  (1 <= length digits <= longest)%nat /\
  read_number base digit digits = Some number /\
  (number = 0 \/ hd 0 digits <> 48).
Proof.
  unfold digits_ok. intros H.
  apply andb_true_iff in H as [H H4]. apply andb_true_iff in H as [H H3].
  apply andb_true_iff in H as [H1 H2].
  apply Nat.leb_le in H1, H2. apply reads_as_spec in H3.
  repeat apply conj; [exact H1|exact H2|exact H3|].
  apply orb_true_iff in H4 as [E|E].
  - left. apply Z.eqb_eq. exact E.
  - right. apply Z.eqb_neq, negb_true_iff. exact E.
Qed.

Lemma hexWord_chars_reads number :
  0 <= number < 65536 ->
  length (hexWord_chars number) = 4%nat /\
  read_number 16 hex_digit (hexWord_chars number) = Some number.
Proof.
  intros Hn. split; [reflexivity|]. apply reads_as_spec. revert number Hn.
  apply (all_words
           (fun n => match read_number 16 hex_digit (hexWord_chars n) with
                     | Some m => m =? n
                     | None => false
                     end)).
  vm_compute. reflexivity.
Qed.

(** lcd.c, lcd_writeHexWord: a 16-bit number is written as exactly
    four characters, upper-case hexadecimal digits, most significant first:
    reading them back gives the number. *)
Theorem lcd_writeHexWord_round_trip number s :
  0 <= number < 65536 ->
  exists digits,
    lcd_writeHexWord number s = lcd_writeChars digits s /\
    length digits = 4%nat /\
    read_number 16 hex_digit digits = Some number.
Proof.
  intros Hn. exists (hexWord_chars number).
  split; [apply lcd_writeHexWord_chars|apply hexWord_chars_reads; exact Hn].
Qed.

Lemma lcd_writeHexWord_round_trip_witness :
  exists digits,
    lcd_writeHexWord 0xBEEF idle_lcd = lcd_writeChars digits idle_lcd /\
    length digits = 4%nat /\
    read_number 16 hex_digit digits = Some 0xBEEF.
Proof. apply (lcd_writeHexWord_round_trip 0xBEEF idle_lcd). lia. Defined.

(** lcd.c, lcd_writeHex: a 16-bit number is written in hexadecimal
    without leading zeros: one to four digits that read back as the number,
    the first of them 0 only for the number 0. *)
Theorem lcd_writeHex_round_trip number s :
  0 <= number < 65536 ->
  exists digits,
    lcd_writeHex number s = lcd_writeChars digits s /\
    (1 <= length digits <= 4)%nat /\
    read_number 16 hex_digit digits = Some number /\
    (number = 0 \/ hd 0 digits <> 48).
Proof.
  intros Hn. exists (hex_chars number).
  split; [apply lcd_writeHex_chars|].
  apply digits_ok_spec. revert number Hn.
  apply (all_words (fun n => digits_ok 16 hex_digit 4 n (hex_chars n))).
  vm_compute. reflexivity.
Qed.

Lemma lcd_writeHex_round_trip_witness :
  exists digits,
    lcd_writeHex 0x2A idle_lcd = lcd_writeChars digits idle_lcd /\
    (1 <= length digits <= 4)%nat /\
    read_number 16 hex_digit digits = Some 0x2A /\
    (0x2A = 0 \/ hd 0 digits <> 48).
Proof. apply (lcd_writeHex_round_trip 0x2A idle_lcd). lia. Defined.

Lemma dec_chars_ok number :
  0 <= number < 65536 -> digits_ok 10 dec_digit 5 number (dec_chars number) = true.
Proof.
  revert number.
  apply (all_words (fun n => digits_ok 10 dec_digit 5 n (dec_chars n))).
  vm_compute. reflexivity.
Qed.

(** lcd.c, lcd_writeDec: a 16-bit number is written in decimal without
    leading zeros: one to five digits that read back as the number, the
    first of them 0 only for the number 0. *)
Theorem lcd_writeDec_round_trip number s :
  0 <= number < 65536 ->
  exists digits,
    lcd_writeDec number s = lcd_writeChars digits s /\
    (1 <= length digits <= 5)%nat /\
    read_number 10 dec_digit digits = Some number /\
    (number = 0 \/ hd 0 digits <> 48).
Proof.
  intros Hn. exists (dec_chars number).
  split; [apply lcd_writeDec_chars|].
  apply digits_ok_spec, dec_chars_ok. exact Hn.
Qed.

Lemma lcd_writeDec_round_trip_witness :
  exists digits,
    lcd_writeDec 1024 idle_lcd = lcd_writeChars digits idle_lcd /\
    (1 <= length digits <= 5)%nat /\
    read_number 10 dec_digit digits = Some 1024 /\
    (1024 = 0 \/ hd 0 digits <> 48).
Proof. apply (lcd_writeDec_round_trip 1024 idle_lcd). lia. Defined.

End lcd_numbers.


(** ** lcd.c: erasing a line and drawing a bar *)

Section lcd_lines.
Import lcd.

Lemma line_change_inside k :
  0 < k < 16 \/ 16 < k < 32 -> line_change false k = [].
Proof.
  intros Hk. unfold line_change.
  destruct (Z.eqb_spec k 16); [lia|]. destruct (Z.eqb_spec k 32); [lia|].
  reflexivity.
Qed.

Lemma lcd_writeChar_printable c s :
  0 <= c <= 0x7F -> c <> 10 -> expectedBytes s = 0 -> always_ready s ->
  0 <= charCtr s < 32 ->
  charCtr (lcd_writeChar c s) = charCtr s + 1 /\
  expectedBytes (lcd_writeChar c s) = 0 /\
  always_ready (lcd_writeChar c s) /\
  port_trace (lcd_writeChar c s)
    = port_trace s ++ line_change false (charCtr s) ++ send_char (lcd_remap c c).
Proof.
  intros Hc Hnl He Hr Hk.
  destruct (lcd_decode_idle c s He) as (Dc & De); [lia|].
  destruct (Z.leb_spec 0x80 c); [lia|]. cbn [andb] in Dc.
  destruct (Z.leb_spec c 0xBF); [|lia].
  destruct (lcd_writeChar_complete c s) as (R1 & R2 & R3 & R4);
    [exact De|rewrite Dc; exact Hnl|lia|exact Hr|].
  rewrite Dc in R3. rewrite Z.mod_small in R1 by lia.
  repeat apply conj; assumption.
Qed.

Lemma lcd_writeChars_in_line c n : forall s r,
  0 <= c <= 0x7F -> c <> 10 -> expectedBytes s = 0 -> always_ready s ->
  r = 0 \/ r = 1 -> 16 * r <= charCtr s ->
  charCtr s + Z.of_nat (S n) <= 16 * (r + 1) ->
  charCtr (lcd_writeChars (replicate (S n) c) s) = charCtr s + Z.of_nat (S n) /\
  expectedBytes (lcd_writeChars (replicate (S n) c) s) = 0 /\
  always_ready (lcd_writeChars (replicate (S n) c) s) /\
  port_trace (lcd_writeChars (replicate (S n) c) s)
    = port_trace s ++ line_change false (charCtr s)
        ++ mjoin (replicate (S n) (send_char (lcd_remap c c))).
Proof.
  induction n as [|n IH]; intros s r Hc Hnl He Hr Hrow Hlo Hhi;
    (destruct (lcd_writeChar_printable c s Hc Hnl He Hr) as (R1 & R2 & R4 & R3);
      [lia|]).
  - change (replicate 1 c) with [c]. rewrite lcd_writeChars_one.
    repeat apply conj; [rewrite R1; lia|exact R2|exact R4|].
    rewrite R3. cbn [replicate mjoin list_join]. rewrite app_nil_r. reflexivity.
  - change (replicate (S (S n)) c) with (c :: replicate (S n) c).
    rewrite lcd_writeChars_cons.
    destruct (IH (lcd_writeChar c s) r Hc Hnl R2 R4 Hrow) as (S1 & S2 & S3 & S4);
      [lia|lia|].
    rewrite line_change_inside in S4 by lia.
    repeat apply conj; [rewrite S1, R1; lia|exact S2|exact S3|].
    rewrite S4, R3, <- !app_assoc. reflexivity.
Qed.

Lemma lcd_goto_ready row column s :
  0 <= row < 256 -> 0 <= column < 256 -> always_ready s ->
  let r := if (1 <=? row) && (row <=? 2) then row - 1 else 0 in
  let c := if (1 <=? column) && (column <=? 16) then column - 1 else 0 in
  charCtr (lcd_goto row column s) = 16 * r + c /\
  expectedBytes (lcd_goto row column s) = expectedBytes s /\
  always_ready (lcd_goto row column s) /\
  port_trace (lcd_goto row column s) = port_trace s ++ transfer (8 + 4 * r) c.
Proof.
  intros Hrow Hcol Hr r c.
  rewrite (lcd_goto_eq row column s Hrow Hcol). fold r c.
  destruct (lcd_sendStream_vars (8 + 4 * r) c (set_charCtr (16 * r + c) s))
    as (V1 & _ & V3 & _).
  destruct (lcd_sendStream_always_ready (8 + 4 * r) c (set_charCtr (16 * r + c) s)
              (always_ready_set_charCtr _ s Hr)) as (R & T).
  destruct (set_charCtr_proj (16 * r + c) s) as (A1 & _ & A3 & A4).
  rewrite V1, V3, T, A1, A3, A4. repeat apply conj; [reflexivity..|exact R|reflexivity].
Qed.

Lemma erase_restores n :
  0 <= n <= 32 ->
  (if (1 <=? u8 (Z.quot n 16 + 1)) && (u8 (Z.quot n 16 + 1) <=? 2)
   then u8 (Z.quot n 16 + 1) - 1 else 0) = n / 16 mod 2 /\
  (if (1 <=? u8 (Z.rem n 16 + 1)) && (u8 (Z.rem n 16 + 1) <=? 16)
   then u8 (Z.rem n 16 + 1) - 1 else 0) = n mod 16 /\
  16 * (n / 16 mod 2) + n mod 16 = n mod 32.
Proof.
  intros Hn. case_range n 0 33%nat; repeat apply conj; reflexivity.
Qed.

(** lcd.c, lcd_erase: with no UTF-8 sequence open and a ready
    display, the function goes to the first column of the line (line 2 for
    the argument 2, line 1 for every other argument), writes sixteen
    blanks and goes back to where the cursor was; [charCtr] is as before,
    except that the value 32 becomes 0. *)
Theorem lcd_erase_line line s :
  0 <= line < 256 -> expectedBytes s = 0 -> 0 <= charCtr s <= 32 ->
  always_ready s ->
  let r := if line =? 2 then 1 else 0 in
  charCtr (lcd_erase line s) = charCtr s mod 32 /\
  port_trace (lcd_erase line s)
    = port_trace s ++ transfer (8 + 4 * r) 0 ++ line_change false (16 * r)
        ++ mjoin (replicate 16 (send_char 32))
        ++ transfer (8 + 4 * (charCtr s / 16 mod 2)) (charCtr s mod 16).
Proof.
  intros Hline He Hc Hr r. unfold lcd_erase.
  set (line' := if 2 <? line then 1 else line).
  assert (Hl' : 0 <= line' < 256) by (subst line'; destruct (2 <? line); lia).
  destruct (lcd_goto_ready line' 1 s Hl') as (G1 & G2 & G3 & G4); [lia|exact Hr|].
  assert (Er : (if (1 <=? line') && (line' <=? 2) then line' - 1 else 0) = r).
  { subst line' r.
    destruct (Z.ltb_spec 2 line); [destruct (Z.eqb_spec line 2); [lia|reflexivity]|].
    destruct (Z.eqb_spec line 2) as [->|N]; [reflexivity|].
    destruct (Z.leb_spec 1 line), (Z.leb_spec line 2); cbn [andb]; lia. }
  rewrite Er in G1, G4.
  change (if (1 <=? 1) && (1 <=? 16) then 1 - 1 else 0) with 0 in G1, G4.
  rewrite He in G2.
  assert (Hrow : r = 0 \/ r = 1) by (subst r; destruct (line =? 2); lia).
  destruct (lcd_writeChars_in_line 32 15 (lcd_goto line' 1 s) r)
    as (W1 & W2 & W3 & W4); [lia|lia|exact G2|exact G3|exact Hrow|lia|lia|].
  rewrite G1, G4 in W4.
  replace (16 * r + 0) with (16 * r) in W4 by lia.
  change (lcd_remap 32 32) with 32 in W4.
  set (s2 := lcd_writeChars (replicate 16 32) (lcd_goto line' 1 s)) in *.
  destruct (set_charCtr_proj (charCtr s) s2) as (A1 & _ & _ & A4).
  rewrite A1.
  destruct (erase_restores (charCtr s) Hc) as (Q1 & Q2 & Q3).
  destruct (lcd_goto_ready (u8 (Z.quot (charCtr s) 16 + 1))
              (u8 (Z.rem (charCtr s) 16 + 1)) (set_charCtr (charCtr s) s2))
    as (F1 & _ & _ & F4);
    [apply Z.mod_pos_bound; lia|apply Z.mod_pos_bound; lia
    |apply always_ready_set_charCtr; exact W3|].
  rewrite Q1, Q2 in F1, F4. rewrite Q3 in F1.
  split; [exact F1|].
  rewrite F4, A4, W4, <- !app_assoc. reflexivity.
Qed.

Lemma lcd_erase_line_witness :
  charCtr (lcd_erase 2 idle_lcd) = charCtr idle_lcd mod 32 /\
  port_trace (lcd_erase 2 idle_lcd)
    = port_trace idle_lcd ++ transfer (8 + 4 * 1) 0 ++ line_change false (16 * 1)
        ++ mjoin (replicate 16 (send_char 32))
        ++ transfer (8 + 4 * (charCtr idle_lcd / 16 mod 2)) (charCtr idle_lcd mod 16).
Proof.
  apply (lcd_erase_line 2 idle_lcd);
    [lia|reflexivity|cbn; lia|intros j; reflexivity].
Defined.

Lemma lcd_writeString_bar s :
  expectedBytes s = 0 -> 0 <= charCtr s < 16 -> always_ready s ->
  charCtr (lcd_writeString bar_string s) = charCtr s + 1 /\
  expectedBytes (lcd_writeString bar_string s) = 0 /\
  always_ready (lcd_writeString bar_string s) /\
  port_trace (lcd_writeString bar_string s)
    = port_trace s ++ line_change false (charCtr s) ++ send_char 0xFF.
Proof.
  intros He Hc Hr.
  change bar_string with ([0xE2; 0x96; 0xAE] ++ 0 :: []).
  rewrite lcd_writeString_end by (repeat constructor; lia).
  destruct (lcd_writeChars_utf8 0xE2 [0x96; 0xAE] s) as (_ & R1 & R2 & R3 & R4);
    [lia|reflexivity|repeat constructor; lia|exact He|lia|exact Hr|].
  rewrite Z.mod_small in R1 by lia.
  repeat apply conj; [exact R1|exact R2|exact R4|exact R3].
Qed.

Lemma lcd_drawBar_loop_bars n : forall fuel i val s,
  (n < fuel)%nat -> 0 <= i -> i + 100 * Z.of_nat n < 65536 ->
  val <= i + 100 * Z.of_nat n ->
  (n = 0%nat \/ i + 100 * (Z.of_nat n - 1) < val) ->
  expectedBytes s = 0 -> always_ready s ->
  0 <= charCtr s -> charCtr s + Z.of_nat n <= 16 ->
  charCtr (lcd_drawBar_loop fuel i val s) = charCtr s + Z.of_nat n /\
  port_trace (lcd_drawBar_loop fuel i val s)
    = port_trace s ++ mjoin (replicate n (send_char 0xFF)).
Proof.
  induction n as [|n IH]; intros fuel i val s Hf Hi Hmax Hval Hlast He Hr Hc Hn;
    (destruct fuel as [|fuel]; [lia|]); cbn [lcd_drawBar_loop].
  - destruct (Z.ltb_spec i val); [lia|].
    split; [lia|]. cbn [replicate mjoin list_join]. rewrite app_nil_r. reflexivity.
  - destruct (Z.ltb_spec i val); [|lia].
    destruct (lcd_writeString_bar s He) as (B1 & B2 & B3 & B4); [lia|exact Hr|].
    assert (Hu : u16 (i + 100) = i + 100) by (unfold u16; apply Z.mod_small; lia).
    rewrite Hu.
    destruct (IH fuel (i + 100) val (lcd_writeString bar_string s))
      as (R1 & R2); [lia|lia|lia|lia|lia|exact B2|exact B3|lia|lia|].
    split; [rewrite R1, B1; lia|].
    rewrite R2, B4.
    assert (Hk : line_change false (charCtr s) = []).
    { unfold line_change.
      destruct (Z.eqb_spec (charCtr s) 16); [lia|].
      destruct (Z.eqb_spec (charCtr s) 32); [lia|]. reflexivity. }
    rewrite Hk. cbn [replicate mjoin list_join app]. rewrite <- app_assoc.
    reflexivity.
Qed.

(** lcd.c, lcd_drawBar: with no UTF-8 sequence open and a ready
    display, the function clears the display and prints 16 p / 100 bar
    characters, rounded up, where p is the percentage or 100 when that is
    more; a bar is the code 0xFF, written as U+25AE.  [charCtr] is the
    number of bars afterwards. *)
Theorem lcd_drawBar_bars percent s :
  0 <= percent < 256 -> expectedBytes s = 0 -> always_ready s ->
  let bars := (Z.min percent 100 * 16 + 99) / 100 in
  charCtr (lcd_drawBar percent s) = bars /\
  port_trace (lcd_drawBar percent s)
    = port_trace s ++ transfer 0 1
        ++ mjoin (replicate (Z.to_nat bars) (send_char 0xFF)).
Proof.
  intros Hp He Hr bars. unfold lcd_drawBar.
  assert (Hm : (if percent <=? 100 then percent else 100) = Z.min percent 100).
  { destruct (Z.leb_spec percent 100); lia. }
  rewrite Hm.
  assert (Hv : u16 (Z.min percent 100 * 16) = Z.min percent 100 * 16)
    by (unfold u16; apply Z.mod_small; lia).
  rewrite Hv.
  assert (Hb : 0 <= bars <= 16 /\ Z.min percent 100 * 16 <= 100 * bars /\
               (bars = 0 \/ 100 * (bars - 1) < Z.min percent 100 * 16)).
  { subst bars. generalize (Z.min_spec percent 100). intros Hmin.
    pose proof (Z.div_mod (Z.min percent 100 * 16 + 99) 100) as Hd.
    pose proof (Z.mod_pos_bound (Z.min percent 100 * 16 + 99) 100) as Hq.
    lia. }
  destruct Hb as (Hb1 & Hb2 & Hb3).
  assert (Hclear : charCtr (lcd_clear s) = 0 /\ expectedBytes (lcd_clear s) = 0 /\
                   always_ready (lcd_clear s) /\
                   port_trace (lcd_clear s) = port_trace s ++ transfer 0 1).
  { unfold lcd_clear.
    destruct (lcd_command_vars LCD_CLEAR (set_charCtr 0 s)) as (C1 & _ & C3).
    destruct (lcd_command_ready LCD_CLEAR (set_charCtr 0 s)
                (always_ready_set_charCtr 0 s Hr)) as (R & T).
    destruct (set_charCtr_proj 0 s) as (A1 & _ & A3 & A4).
    rewrite C1, C3, T, A1, A3, A4, He.
    repeat apply conj; [reflexivity|reflexivity|exact R|reflexivity]. }
  destruct Hclear as (K1 & K2 & K3 & K4).
  destruct (lcd_drawBar_loop_bars (Z.to_nat bars) 17 0 (Z.min percent 100 * 16)
              (lcd_clear s)) as (R1 & R2);
    [lia|lia|lia|lia|lia|exact K2|exact K3|lia|lia|].
  split; [rewrite R1, K1; lia|].
  rewrite R2, K4, <- app_assoc. reflexivity.
Qed.

Lemma lcd_drawBar_bars_witness :
  charCtr (lcd_drawBar 50 idle_lcd) = (Z.min 50 100 * 16 + 99) / 100 /\
  port_trace (lcd_drawBar 50 idle_lcd)
    = port_trace idle_lcd ++ transfer 0 1
        ++ mjoin (replicate (Z.to_nat ((Z.min 50 100 * 16 + 99) / 100))
                    (send_char 0xFF)).
Proof.
  apply (lcd_drawBar_bars 50 idle_lcd); [lia|reflexivity|intros j; reflexivity].
Defined.

End lcd_lines.

(** ** lcd.c: numbers made of several parts *)

Section lcd_compound.
Import lcd.

Lemma read_number_None base (digit : Z -> option Z) (text : list Z) :
  foldl (fun acc c => n ← acc; d ← digit c; Some (n * base + d)) None text = None.
Proof. induction text as [|c text IH]; [reflexivity|exact IH]. Qed.

Lemma read_number_from base (digit : Z -> option Z) (text : list Z) : forall a,
  foldl (fun acc c => n ← acc; d ← digit c; Some (n * base + d)) (Some a) text
    = x ← read_number base digit text; Some (a * base ^ Z.of_nat (length text) + x).
Proof.
  unfold read_number.
  induction text as [|c text IH]; intros a.
  - cbn. f_equal. lia.
  - cbn [foldl length]. cbn [mbind option_bind].
    destruct (digit c) as [d|].
    + cbn [mbind option_bind]. rewrite (IH (a * base + d)), (IH (0 * base + d)).
      destruct (foldl _ (Some 0) text) as [x|]; [|reflexivity].
      cbn [mbind option_bind]. f_equal.
      rewrite Nat2Z.inj_succ, Z.pow_succ_r by lia. ring.
    + cbn [mbind option_bind]. rewrite read_number_None. reflexivity.
Qed.

Lemma read_number_app base digit text text' x y :
  read_number base digit text = Some x ->
  read_number base digit text' = Some y ->
  read_number base digit (text ++ text')
    = Some (x * base ^ Z.of_nat (length text') + y).
Proof.
  intros Hx Hy. unfold read_number at 1. rewrite foldl_app.
  fold (read_number base digit text). rewrite Hx, read_number_from, Hy.
  reflexivity.
Qed.

(** lcd.c, lcd_write32bitHex: a 32-bit number is written as 0x
    and exactly eight upper-case hexadecimal digits that read back as the
    number. *)
Theorem lcd_write32bitHex_round_trip number s :
  0 <= number < 4294967296 ->
  exists digits,
    lcd_write32bitHex number s = lcd_writeChars (48 :: 120 :: digits) s /\
    length digits = 8%nat /\
    read_number 16 hex_digit digits = Some number.
Proof.
  intros Hn.
  exists (hexWord_chars (u16 (Z.shiftr number 16)) ++ hexWord_chars (u16 number)).
  repeat apply conj.
  - unfold lcd_write32bitHex.
    rewrite lcd_writeDec_chars, !lcd_writeHexWord_chars.
    change (dec_chars 0) with [48].
    rewrite lcd_writeChars_one, !lcd_writeChars_cons, lcd_writeChars_app.
    reflexivity.
  - reflexivity.
  - assert (Hhi : u16 (Z.shiftr number 16) = number / 65536).
    { rewrite Z.shiftr_div_pow2 by lia. change (2 ^ 16) with 65536.
      unfold u16. apply Z.mod_small.
      split; [apply Z.div_pos; lia|apply Z.div_lt_upper_bound; lia]. }
    destruct (hexWord_chars_reads (u16 (Z.shiftr number 16))) as (_ & Rhi);
      [unfold u16; apply Z.mod_pos_bound; lia|].
    destruct (hexWord_chars_reads (u16 number)) as (_ & Rlo);
      [unfold u16; apply Z.mod_pos_bound; lia|].
    rewrite (read_number_app _ _ _ _ _ _ Rhi Rlo). f_equal.
    change (16 ^ Z.of_nat (length (hexWord_chars (u16 number)))) with 65536.
    rewrite Hhi. unfold u16.
    pose proof (Z.div_mod number 65536). lia.
Qed.

Lemma lcd_write32bitHex_round_trip_witness :
  exists digits,
    lcd_write32bitHex 0xDEADBEEF idle_lcd
      = lcd_writeChars (48 :: 120 :: digits) idle_lcd /\
    length digits = 8%nat /\
    read_number 16 hex_digit digits = Some 0xDEADBEEF.
Proof. apply (lcd_write32bitHex_round_trip 0xDEADBEEF idle_lcd). lia. Defined.

Lemma fraction_chars_reads floatVal :
  0 <= floatVal < 1000 ->
  length (fraction_chars floatVal) = 3%nat /\
  read_number 10 dec_digit (fraction_chars floatVal) = Some floatVal.
Proof.
  intros Hf.
  assert (H : (if floatVal <? 1000
               then Nat.eqb (length (fraction_chars floatVal)) 3
                    && match read_number 10 dec_digit (fraction_chars floatVal) with
                       | Some m => m =? floatVal
                       | None => false
                       end
               else true) = true).
  { assert (Hw : 0 <= floatVal < 65536) by lia. clear Hf. revert floatVal Hw.
    apply (all_words
             (fun n => if n <? 1000
                       then Nat.eqb (length (fraction_chars n)) 3
                            && match read_number 10 dec_digit (fraction_chars n) with
                               | Some m => m =? n
                               | None => false
                               end
                       else true)).
    vm_compute. reflexivity. }
  destruct (Z.ltb_spec floatVal 1000); [|lia].
  apply andb_true_iff in H as [H1 H2].
  split; [apply Nat.eqb_eq; exact H1|apply reads_as_spec; exact H2].
Qed.

Lemma millivolts_split v ub :
  0 < ub -> 0 <= v ->
  (v * 1000 / ub) / 1000 = v / ub /\
  (v * 1000 / ub) mod 1000 = (v - v / ub * ub) * 1000 / ub /\
  0 <= (v - v / ub * ub) * 1000 / ub < 1000.
Proof.
  intros Hub Hv.
  pose proof (Z.div_mod v ub ltac:(lia)) as Hd.
  pose proof (Z.mod_pos_bound v ub Hub) as Hr.
  assert (Er : v - v / ub * ub = v mod ub) by lia.
  rewrite Er.
  assert (Hf : 0 <= v mod ub * 1000 / ub < 1000).
  { split; [apply Z.div_pos; lia|apply Z.div_lt_upper_bound; lia]. }
  assert (Eq : v * 1000 / ub = v / ub * 1000 + v mod ub * 1000 / ub).
  { replace (v * 1000) with (v / ub * 1000 * ub + v mod ub * 1000) by lia.
    apply Z.div_add_l. lia. }
  rewrite Eq. repeat apply conj; try lia.
  - symmetry. apply (Z.div_unique _ _ _ (v mod ub * 1000 / ub)); lia.
  - symmetry. apply (Z.mod_unique _ _ (v / ub)); lia.
Qed.

(** lcd.c, lcd_writeVoltage: for a reading that is at most its upper
    bound, and whose product with the voltage bound fits 16 bits, the
    function prints the voltage in thousandths of a volt, rounded down: the
    whole volts without leading zeros, a point, exactly three places, and
    the letter V. *)
Theorem lcd_writeVoltage_places voltage valueUpperBound voltUpperBound s :
  0 < valueUpperBound < 65536 -> 0 <= voltage <= valueUpperBound ->
  0 <= voltUpperBound < 256 -> voltage * voltUpperBound < 65536 ->
  let millivolts := voltage * voltUpperBound * 1000 / valueUpperBound in
  exists whole fraction,
    lcd_writeVoltage voltage valueUpperBound voltUpperBound s
      = lcd_writeChars (whole ++ [46] ++ fraction ++ [86]) s /\
    read_number 10 dec_digit whole = Some (millivolts / 1000) /\
    (whole = [48] \/ hd 0 whole <> 48) /\
    length fraction = 3%nat /\
    read_number 10 dec_digit fraction = Some (millivolts mod 1000).
Proof.
  intros Hub Hv Hvub Hfit millivolts.
  assert (Hp : 0 <= voltage * voltUpperBound) by nia.
  destruct (millivolts_split (voltage * voltUpperBound) valueUpperBound)
    as (M1 & M2 & M3); [lia|lia|].
  fold millivolts in M1, M2.
  set (i := voltage * voltUpperBound / valueUpperBound) in *.
  set (f := (voltage * voltUpperBound - i * valueUpperBound) * 1000
            / valueUpperBound) in *.
  assert (Hi : 0 <= i <= voltUpperBound).
  { subst i. split; [apply Z.div_pos; lia|].
    apply Z.div_le_upper_bound; [lia|nia]. }
  assert (Hrem : 0 <= voltage * voltUpperBound - i * valueUpperBound
                 < valueUpperBound).
  { subst i. pose proof (Z.div_mod (voltage * voltUpperBound) valueUpperBound).
    pose proof (Z.mod_pos_bound (voltage * voltUpperBound) valueUpperBound).
    lia. }
  exists (dec_chars i), (fraction_chars f).
  destruct (digits_ok_spec _ _ _ _ _ (dec_chars_ok i ltac:(lia)))
    as (_ & Hwhole & Hlead).
  destruct (fraction_chars_reads f M3) as (Hlen & Hfrac).
  rewrite M1, M2.
  repeat apply conj; [|exact Hwhole| |exact Hlen|exact Hfrac].
  - unfold lcd_writeVoltage.
    assert (E1 : u16 (voltage * voltUpperBound) = voltage * voltUpperBound)
      by (unfold u16; apply Z.mod_small; lia).
    rewrite E1. fold i.
    assert (E2 : u8 i = i) by (unfold u8; apply Z.mod_small; lia).
    rewrite E2.
    assert (E3 : u16 (i * valueUpperBound) = i * valueUpperBound)
      by (unfold u16; apply Z.mod_small; nia).
    rewrite E3.
    assert (E4 : u16 (voltage * voltUpperBound - i * valueUpperBound)
                 = voltage * voltUpperBound - i * valueUpperBound)
      by (unfold u16; apply Z.mod_small; lia).
    rewrite E4.
    rewrite u32_small by lia. fold f.
    assert (E5 : u16 f = f) by (unfold u16; apply Z.mod_small; lia).
    rewrite E5.
    rewrite !lcd_writeChars_app, !lcd_writeChars_one, !lcd_writeDec_chars.
    unfold fraction_chars. rewrite !lcd_writeChars_app.
    destruct (f <? 100), (f <? 10); rewrite ?lcd_writeChars_one; reflexivity.
  - destruct Hlead as [E|N]; [left; rewrite E; reflexivity|right; exact N].
Qed.

Lemma lcd_writeVoltage_places_witness :
  exists whole fraction,
    lcd_writeVoltage 512 1023 5 idle_lcd
      = lcd_writeChars (whole ++ [46] ++ fraction ++ [86]) idle_lcd /\
    read_number 10 dec_digit whole = Some ((512 * 5 * 1000 / 1023) / 1000) /\
    (whole = [48] \/ hd 0 whole <> 48) /\
    length fraction = 3%nat /\
    read_number 10 dec_digit fraction = Some ((512 * 5 * 1000 / 1023) mod 1000).
Proof. apply (lcd_writeVoltage_places 512 1023 5 idle_lcd); lia. Defined.

End lcd_compound.
